(** * lmdeploy/pytorch/models/dbrx.py: a shallow embedding

    The DBRX patch layer of lmdeploy: tensor-parallel loading and repacking
    of the expert weights, the paged attention forward, the expert dispatch
    and the model forward driver.

    Tensors are modelled the way torch stores them: a shape and the
    row-major contents.  Python objects that are mutated in place (KV
    caches, the query buffer, module attributes) live in explicit stores,
    and every function that can raise returns an outcome together with the
    state reached when it stopped. *)

From stdpp Require Import gmap strings list fin_maps.

Open Scope string_scope.
Open Scope nat_scope.
Open Scope list_scope.

(** ** Python exceptions and the state-and-error monad *)

Inductive exn : Type :=
| AttributeError
| KeyError
| IndexError
| TypeError
| ZeroDivisionError
| TorchError.  (* the RuntimeError or IndexError a torch operation raises *)

Inductive outcome (A : Type) : Type :=
| Ok (a : A)
| Raise (e : exn).
Arguments Ok {A} a.
Arguments Raise {A} e.

(** A computation over a mutable world [S]: the world is returned in both
    cases, so that what an exception leaves behind can be stated. *)
Definition M (S A : Type) : Type := S -> outcome A * S.

Definition ret {S A} (a : A) : M S A := fun s => (Ok a, s).

Definition bind {S A B} (m : M S A) (k : A -> M S B) : M S B :=
  fun s => match m s with
           | (Ok a, s') => k a s'
           | (Raise e, s') => (Raise e, s')
           end.

Definition raise {S A} (e : exn) : M S A := fun s => (Raise e, s).

Definition get_state {S} : M S S := fun s => (Ok s, s).

Definition put_state {S} (s : S) : M S unit := fun _ => (Ok tt, s).

Definition modify {S} (f : S -> S) : M S unit := fun s => (Ok tt, f s).

(** [lift_opt e o]: the value of [o], or the exception [e]. *)
Definition lift_opt {S A} (e : exn) (o : option A) : M S A :=
  match o with
  | Some a => ret a
  | None => raise e
  end.

(** [a // b] on non-negative Python integers *)
Definition floordiv {S} (a b : nat) : M S nat :=
  if b =? 0 then raise ZeroDivisionError else ret (a / b).

Declare Scope py_scope.
Delimit Scope py_scope with py.
Notation "x <- c1 ;; c2" := (bind c1 (fun x => c2))
  (at level 20, c1 at level 99, c2 at level 200, only parsing) : py_scope.
Notation "' pat <- c1 ;; c2" := (bind c1 (fun x => match x with pat => c2 end))
  (at level 20, pat pattern, c1 at level 99, c2 at level 200, only parsing)
  : py_scope.
Notation "c1 ;; c2" := (bind c1 (fun _ => c2))
  (at level 100, c2 at level 200, right associativity, only parsing) : py_scope.

(** ** Tensors *)

Module Torch.

Section Tensor.
Context {A : Type}.
(** What uninitialised memory holds ([new_empty]); also the value read
    outside a tensor's storage, which no well-formed access reaches. *)
Variable uninit : A.

Record tensor : Type := Tensor { shape : list nat; data : list A }.

Definition numel (sh : list nat) : nat := foldr Nat.mul 1 sh.

Definition wf (t : tensor) : Prop := length (data t) = numel (shape t).

Definition rank (t : tensor) : nat := length (shape t).

(** [t.size(d)]: IndexError when [d] is not a dimension. *)
Definition size (t : tensor) (d : nat) : option nat := shape t !! d.

(** Row-major offset of a multi-index, and its inverse. *)
Fixpoint ravel (sh idx : list nat) : nat :=
  match sh, idx with
  | _ :: sh', i :: idx' => i * numel sh' + ravel sh' idx'
  | _, _ => 0
  end.

Fixpoint unravel (sh : list nat) (k : nat) : list nat :=
  match sh with
  | [] => []
  | _ :: sh' => (k / numel sh') :: unravel sh' (k mod numel sh')
  end.

Definition in_range (idx sh : list nat) : Prop := Forall2 lt idx sh.

(** [t[i0, i1, ...]] *)
Definition get (t : tensor) (idx : list nat) : A :=
  nth (ravel (shape t) idx) (data t) uninit.

(** The tensor of shape [sh] whose entry at [idx] is [f idx]. *)
Definition build (sh : list nat) (f : list nat -> A) : tensor :=
  Tensor sh (map (fun k => f (unravel sh k)) (seq 0 (numel sh))).

(** *** Shape inference (ATen's [infer_size]); [None] stands for [-1] *)

Definition known_product (sizes : list (option nat)) : nat :=
  foldr (fun o acc => match o with Some n => n * acc | None => acc end) 1 sizes.

Definition count_infer (sizes : list (option nat)) : nat :=
  length (filter (fun o => o = None) sizes).

Definition infer_size (sizes : list (option nat)) (n : nat) : option (list nat) :=
  let newsize := known_product sizes in
  match count_infer sizes with
  | 0 => if n =? newsize then Some (map (default 0) sizes) else None
  | 1 => if (0 <? newsize) && (n mod newsize =? 0)
         then Some (map (default (n / newsize)) sizes)
         else None
  | _ => None
  end.

(** [t.view(sizes)] and [t.reshape(sizes)] on a row-major tensor. *)
Definition view (t : tensor) (sizes : list (option nat)) : option tensor :=
  sh ← infer_size sizes (numel (shape t));
  Some (Tensor sh (data t)).

(** [t.unflatten(dim, sizes)] *)
Definition unflatten (t : tensor) (dim : nat) (sizes : list (option nat))
  : option tensor :=
  n ← shape t !! dim;
  if bool_decide (sizes = []) then None else
  sh ← infer_size sizes n;
  Some (Tensor (take dim (shape t) ++ sh ++ drop (S dim) (shape t)) (data t)).

(** [t.flatten(s, e)] for a tensor of rank at least 1. *)
Definition flatten (t : tensor) (s e : nat) : option tensor :=
  if (s <=? e) && (e <? rank t)
  then Some (Tensor (take s (shape t)
                       ++ numel (take (S e - s) (drop s (shape t)))
                       :: drop (S e) (shape t)) (data t))
  else None.

(** [t.narrow(dim, start, len)], for [start + len <= t.size(dim)]. *)
Definition narrow (t : tensor) (dim start len : nat) : tensor :=
  build (<[dim := len]> (shape t))
        (fun idx => get t (alter (fun i => i + start) dim idx)).

(** [t.split(split_size, dim)] *)
Definition split (t : tensor) (split_size dim : nat) : option (list tensor) :=
  n ← shape t !! dim;
  if (split_size =? 0) && negb (n =? 0) then None else
  let num_splits :=
    if split_size =? 0 then 1
    else Nat.max ((n + split_size - 1) / split_size) 1 in
  let last_split_size := split_size - (split_size * num_splits - n) in
  Some (map (fun i => narrow t dim (i * split_size)
                        (if i <? num_splits - 1 then split_size
                         else last_split_size))
            (seq 0 num_splits)).

(** Start offsets of consecutive sections. *)
Fixpoint starts (from : nat) (sizes : list nat) : list nat :=
  match sizes with
  | [] => []
  | n :: sizes' => from :: starts (from + n) sizes'
  end.

(** [t.split(sizes, dim)] with a list of section sizes. *)
Definition split_with_sizes (t : tensor) (sizes : list nat) (dim : nat)
  : option (list tensor) :=
  n ← shape t !! dim;
  if foldr Nat.add 0 sizes =? n
  then Some (zip_with (fun st len => narrow t dim st len) (starts 0 sizes) sizes)
  else None.

(** [t.chunk(chunks, dim)] *)
Definition chunk (t : tensor) (chunks dim : nat) : option (list tensor) :=
  n ← shape t !! dim;
  if chunks =? 0 then None else
  let split_size := (n + chunks - 1) / chunks in
  if (split_size =? 0) && (n =? 0)
  then split_with_sizes t (replicate chunks 0) dim
  else split t split_size dim.

Definition swap (d0 d1 : nat) (l : list nat) : list nat :=
  <[d0 := default 0 (l !! d1)]> (<[d1 := default 0 (l !! d0)]> l).

(** [t.transpose(d0, d1).contiguous()] *)
Definition transpose (t : tensor) (d0 d1 : nat) : option tensor :=
  if (d0 <? rank t) && (d1 <? rank t)
  then Some (build (swap d0 d1 (shape t)) (fun idx => get t (swap d0 d1 idx)))
  else None.

(** [t.new_empty(sizes)] *)
Definition new_empty (sizes : list nat) : tensor :=
  Tensor sizes (replicate (numel sizes) uninit).

(** Broadcast [t] to shape [sh] (trailing dimensions aligned, a dimension
    of size 1 repeated). *)
Definition expand (t : tensor) (sh : list nat) : option tensor :=
  if rank t <=? length sh then
    let lead := length sh - rank t in
    let padded := replicate lead 1 ++ shape t in
    if forallb (fun p => (fst p =? snd p) || (fst p =? 1)) (zip padded sh)
    then Some (build sh (fun idx =>
                 get t (drop lead
                          (zip_with (fun s i => if s =? 1 then 0 else i)
                                    padded idx))))
    else None
  else None.

(** [dst[..., start:stop, ...].copy_(src)] with the slice on dimension
    [dim]; Python clips the slice bounds to the dimension. *)
Definition slice_copy_ (dst : tensor) (dim start : nat) (stop : option nat)
    (src : tensor) : option tensor :=
  n ← shape dst !! dim;
  let start' := Nat.min start n in
  let stop' := Nat.min (default n stop) n in
  let len := stop' - start' in
  src' ← expand src (<[dim := len]> (shape dst));
  Some (build (shape dst) (fun idx =>
          let i := default 0 (idx !! dim) in
          if (start' <=? i) && (i <? start' + len)
          then get src' (alter (fun i => i - start') dim idx)
          else get dst idx)).

(** Element-wise map. *)
Definition tmap (f : A -> A) (t : tensor) : tensor :=
  Tensor (shape t) (map f (data t)).

End Tensor.

Arguments tensor A : clear implicits.

End Torch.

(** ** PatchedDbrxExpertGLU *)

Module ExpertGLU.
Import Torch.

Section GLU.
Context {A : Type}.
Variable uninit : A.

(** The part of an [nn.Module] the patch touches: its registered
    parameters and buffers, and the [moe_num_experts] attribute. *)
Record Module_ : Type := {
  moe_num_experts : nat;
  _parameters : gmap string (tensor A);
  _buffers : gmap string (tensor A)
}.

(** [self.name] ([nn.Module.__getattr__]) *)
Definition getattr (name : string) : M Module_ (tensor A) :=
  fun self =>
    match _parameters self !! name with
    | Some t => (Ok t, self)
    | None =>
        match _buffers self !! name with
        | Some t => (Ok t, self)
        | None => (Raise AttributeError, self)
        end
    end.

(** [delattr(self, name)] ([nn.Module.__delattr__]) *)
Definition delattr (name : string) : M Module_ unit :=
  fun self =>
    match _parameters self !! name with
    | Some _ =>
        (Ok tt, {| moe_num_experts := moe_num_experts self;
                   _parameters := delete name (_parameters self);
                   _buffers := _buffers self |})
    | None =>
        match _buffers self !! name with
        | Some _ =>
            (Ok tt, {| moe_num_experts := moe_num_experts self;
                       _parameters := _parameters self;
                       _buffers := delete name (_buffers self) |})
        | None => (Raise AttributeError, self)
        end
    end.

(** [self.register_parameter(name, param)]: KeyError when the name is an
    attribute that is not a parameter. *)
Definition register_parameter (name : string) (param : tensor A)
  : M Module_ unit :=
  fun self =>
    match _parameters self !! name, _buffers self !! name with
    | None, Some _ => (Raise KeyError, self)
    | _, _ =>
        (Ok tt, {| moe_num_experts := moe_num_experts self;
                   _parameters := <[name := param]> (_parameters self);
                   _buffers := _buffers self |})
    end.

(** [self.register_buffer(name, tensor)]: KeyError when the name is an
    attribute that is not a buffer. *)
Definition register_buffer (name : string) (t : tensor A) : M Module_ unit :=
  fun self =>
    match _buffers self !! name, _parameters self !! name with
    | None, Some _ => (Raise KeyError, self)
    | _, _ =>
        (Ok tt, {| moe_num_experts := moe_num_experts self;
                   _parameters := _parameters self;
                   _buffers := <[name := t]> (_buffers self) |})
    end.

(** [nn.Module] keeps the names of parameters and buffers apart: both
    [register_parameter] and [register_buffer] refuse a name the other
    dictionary holds. *)
Definition names_apart (self : Module_) : Prop :=
  forall name, is_Some (_parameters self !! name) -> _buffers self !! name = None.

(** The world of [_load_weights]: the module and the weight source. *)
Record LoadWorld : Type := {
  self_ : Module_;
  loader : gmap string (tensor A)
}.

Definition on_self {B} (m : M Module_ B) : M LoadWorld B :=
  fun w => let '(r, s) := m (self_ w) in
           (r, {| self_ := s; loader := loader w |}).

(** [loader.pop(name)] *)
Definition loader_pop (name : string) : M LoadWorld (tensor A) :=
  fun w =>
    match loader w !! name with
    | Some t => (Ok t, {| self_ := self_ w; loader := delete name (loader w) |})
    | None => (Raise KeyError, w)
    end.

(** The nested [__partition(name, param)] of [_load_weights]; [param] is
    rebound at once, and moving to the device and the dtype test (which
    compares the dtype with itself) leave the values as they are. *)
Definition __partition (rank world_size : nat) (name : string)
    (param : tensor A) : M LoadWorld unit :=
  (param <- loader_pop name ;;
   self <- on_self get_state ;;
   param <- lift_opt TorchError
              (unflatten param 0 [Some (moe_num_experts self); None]) ;;
   chunks <- lift_opt TorchError (chunk uninit param world_size 1) ;;
   param <- lift_opt IndexError (chunks !! rank) ;;
   param <- lift_opt TorchError (flatten param 0 1) ;;
   on_self (register_parameter name param))%py.

Definition _load_weights (rank world_size : nat) : M LoadWorld unit :=
  (w1 <- on_self (getattr "w1") ;;
   __partition rank world_size "w1" w1 ;;
   v1 <- on_self (getattr "v1") ;;
   __partition rank world_size "v1" v1 ;;
   w2 <- on_self (getattr "w2") ;;
   __partition rank world_size "w2" w2)%py.

Definition _update_model_fn : M Module_ unit :=
  (self <- get_state ;;
   let E := moe_num_experts self in
   w1 <- getattr "w1" ;;
   n0 <- lift_opt TorchError (size w1 0) ;;
   ffn_hidden_size <- floordiv n0 E ;;
   w1 <- getattr "w1" ;;
   n1 <- lift_opt TorchError (size w1 1) ;;
   let gate_up_weights := new_empty uninit [E; ffn_hidden_size * 2; n1] in
   w1 <- getattr "w1" ;;
   src <- lift_opt TorchError (unflatten w1 0 [Some E; None]) ;;
   gate_up_weights <- lift_opt TorchError
     (slice_copy_ uninit gate_up_weights 1 0 (Some ffn_hidden_size) src) ;;
   v1 <- getattr "v1" ;;
   src <- lift_opt TorchError (unflatten v1 0 [Some E; None]) ;;
   gate_up_weights <- lift_opt TorchError
     (slice_copy_ uninit gate_up_weights 1 ffn_hidden_size None src) ;;
   delattr "w1" ;;
   delattr "v1" ;;
   w2 <- getattr "w2" ;;
   w2 <- lift_opt TorchError (unflatten w2 0 [Some E; None]) ;;
   down_weights <- lift_opt TorchError (transpose uninit w2 1 2) ;;
   delattr "w2" ;;
   (* torch.cuda.empty_cache() returns freed blocks to the driver *)
   register_buffer "gate_up_weights" gate_up_weights ;;
   register_buffer "down_weights" down_weights)%py.

End GLU.

Arguments Module_ A : clear implicits.
Arguments LoadWorld A : clear implicits.

(** *** Which rank holds what

    Loading moves entries and never looks at them, so where an entry of a
    shard comes from is read off by loading a weight whose entries are
    their own positions: entry [k] of a stacked weight of [E] experts with
    [F] rows of [H] entries belongs to expert [k / (F * H)]. *)

Definition positions (E F H : nat) : tensor nat :=
  Tensor [E * F; H] (seq 0 (E * F * H)).

(** The parameter [name] of rank [rank] after [_load_weights]. *)
Definition rank_shard (E F H world_size rank : nat) (name : string)
  : option (tensor nat) :=
  let W := positions E F H in
  let weights : gmap string (tensor nat) :=
    <["w1" := W]> (<["v1" := W]> (<["w2" := W]> ∅)) in
  let self := {| moe_num_experts := E; _parameters := weights; _buffers := ∅ |} in
  match _load_weights 0 rank world_size {| self_ := self; loader := weights |} with
  | (Ok _, w) => _parameters (self_ w) !! name
  | (Raise _, _) => None
  end.

(** Shard [P] holds some entry of expert [e]. *)
Definition holds_part (F H : nat) (P : tensor nat) (e : nat) : Prop :=
  exists k, k ∈ data P /\ k / (F * H) = e.

(** Shard [P] holds every entry of expert [e]. *)
Definition holds_all (E F H : nat) (P : tensor nat) (e : nat) : Prop :=
  forall k, k < E * F * H -> k / (F * H) = e -> k ∈ data P.

(** Sharding along the expert axis: a rank that holds anything of an
    expert holds all of it, and no other rank holds any of it. *)
Definition sharded_along_expert_axis (E F H world_size : nat) (name : string)
  : Prop :=
  forall r P e,
    r < world_size -> rank_shard E F H world_size r name = Some P ->
    e < E -> holds_part F H P e ->
    holds_all E F H P e
    /\ forall r' P', r' < world_size -> r' <> r ->
         rank_shard E F H world_size r' name = Some P' ->
         ~ holds_part F H P' e.

(** Rows per rank and per expert: [chunk] cuts a dimension of size [F]
    into pieces of [chunk_size F world_size] rows, the last one shorter. *)
Definition chunk_size (F world_size : nat) : nat :=
  (F + world_size - 1) / world_size.

Definition chunk_len (F world_size rank : nat) : nat :=
  Nat.min (chunk_size F world_size) (F - rank * chunk_size F world_size).

End ExpertGLU.

(** ** Reference repacking

    The repacked layout as the specification words it, built expert by
    expert with [torch.cat], [Tensor.t] and [torch.stack] from slices of
    the load-representation tensors. *)

Module Reference.
Import Torch.

Section Ref.
Context {A : Type}.
Variable uninit : A.

(** [torch.cat([a, b], dim=0)] *)
Definition cat0 (a b : tensor A) : tensor A :=
  Tensor (default 0 (shape a !! 0) + default 0 (shape b !! 0) :: drop 1 (shape a))
         (data a ++ data b).

(** [torch.stack(ts)] *)
Definition stack (ts : list (tensor A)) : tensor A :=
  Tensor (length ts :: default [] (shape <$> head ts)) (concat (data <$> ts)).

(** [m.t()] of a matrix: entry [(h, f)] is entry [(f, h)] of [m]. *)
Definition t_ (m : tensor A) : tensor A :=
  build (reverse (shape m)) (fun idx => get uninit m (reverse idx)).

(** [w[e*F : (e+1)*F]], the rows of expert [e] in a stacked weight of
    [E] experts. *)
Definition expert (E : nat) (w : tensor A) (e : nat) : tensor A :=
  let F := default 0 (shape w !! 0) / E in
  narrow uninit w 0 (e * F) F.

Definition reference_gate_up (E : nat) (gate value : tensor A) : tensor A :=
  stack (map (fun e => cat0 (expert E gate e) (expert E value e)) (seq 0 E)).

Definition reference_down (E : nat) (down : tensor A) : tensor A :=
  stack (map (fun e => t_ (expert E down e)) (seq 0 E)).

End Ref.

End Reference.

(** ** Python values and the world of a forward pass *)

(** A reference to a tensor object.  A view that covers the whole of its
    base ([t[None]], [t[0]] of a tensor with leading dimension 1) has the
    reference of its base: writing through one is writing the other. *)
Definition ref : Type := nat.

Local Unset Elimination Schemes.
Inductive pyval : Type :=
| PNone
| PBool (b : bool)
| PTensor (r : ref)
| PTuple (items : list pyval).
Local Set Elimination Schemes.

(** [v[i]] on [None] and on tuples; subscripting a tensor is outside the
    model and is made an error. *)
Definition getitem (v : pyval) (i : nat) : outcome pyval :=
  match v with
  | PTuple items =>
      match items !! i with
      | Some x => Ok x
      | None => Raise IndexError
      end
  | PTensor _ => Raise TorchError
  | PNone | PBool _ => Raise TypeError
  end.

Definition subscript {S} (v : pyval) (i : nat) : M S pyval :=
  fun s => (getitem v i, s).

(** A kernel argument that must be a tensor. *)
Definition as_tensor {S} (v : pyval) : M S ref :=
  match v with
  | PTensor r => ret r
  | _ => raise TypeError
  end.

(** The batch context ([self.context.context]) of one forward call. *)
Record StepContext : Type := {
  q_start_loc : Torch.tensor Z;
  q_seq_length : Torch.tensor Z;
  kv_seq_length : Torch.tensor Z;
  block_offsets : Torch.tensor Z;
  max_q_seq_length : Z;
  position_ids_1d : Torch.tensor Z
}.

Module Runtime.
Import Torch.

Section Runtime.
(** Activations are tensors over an abstract float type. *)
Context {F : Type}.

(** Calls into kernels that write tensors in place, as they are issued. *)
Inductive call : Type :=
| Call_fused_rotary_emb (q k : ref) (position_ids : tensor Z)
    (inv_freq : list F) (scaling_factor : F) (out_q out_k : ref)
| Call_fill_kv_cache (k v key_cache value_cache : ref)
    (q_start_loc q_seq_length kv_seq_length : tensor Z)
    (max_q_seq_length : Z) (block_offsets : tensor Z)
| Call_paged_attention_fwd (q key_cache value_cache o : ref)
    (block_offsets q_start_loc q_seqlens kv_seqlens : tensor Z)
    (max_seqlen : Z)
| Call_all_reduce (t : ref).

Record World : Type := {
  heap : list (tensor F);          (* the tensor objects, by reference *)
  inv_freq : option (list F);      (* [self.rotary_emb.inv_freq] *)
  context : StepContext;           (* [self.context.context] *)
  dist_world_size : option nat;    (* [dist]: None when not initialised *)
  calls : list call
}.

Definition set_heap (h : list (tensor F)) (w : World) : World :=
  {| heap := h; inv_freq := inv_freq w; context := context w;
     dist_world_size := dist_world_size w; calls := calls w |}.

Definition set_inv_freq (t : option (list F)) (w : World) : World :=
  {| heap := heap w; inv_freq := t; context := context w;
     dist_world_size := dist_world_size w; calls := calls w |}.

Definition set_context (c : StepContext) (w : World) : World :=
  {| heap := heap w; inv_freq := inv_freq w; context := c;
     dist_world_size := dist_world_size w; calls := calls w |}.

Definition emit (c : call) : M World unit :=
  modify (fun w =>
    {| heap := heap w; inv_freq := inv_freq w; context := context w;
       dist_world_size := dist_world_size w; calls := calls w ++ [c] |}).

(** The tensor a reference denotes. *)
Definition read (r : ref) : M World (tensor F) :=
  fun w => match heap w !! r with
           | Some t => (Ok t, w)
           | None => (Raise TorchError, w)
           end.

(** A new tensor object. *)
Definition alloc (t : tensor F) : M World ref :=
  fun w => (Ok (length (heap w)), set_heap (heap w ++ [t]) w).

(** Overwrite the contents of a tensor object; its shape stays. *)
Definition write_data (r : ref) (d : list F) : M World unit :=
  fun w => match heap w !! r with
           | Some t => (Ok tt, set_heap (<[r := Tensor (shape t) d]> (heap w)) w)
           | None => (Raise TorchError, w)
           end.

(** [t[None]] *)
Definition unsqueeze0 {A} (t : tensor A) : tensor A :=
  Tensor (1 :: shape t) (data t).

(** What the sum over the ranks puts into a tensor is a parameter: it
    depends on the other ranks. *)
Variable all_reduce_sum : tensor F -> list F.

(** Modelled from the spec: [dist.all_reduce(t)] is the blocking sum
    all-reduce; it replaces the contents of [t] by the sum over the ranks. *)
Definition all_reduce (t : pyval) : M World unit :=
  (r <- as_tensor t ;;
   v <- read r ;;
   emit (Call_all_reduce r) ;;
   write_data r (all_reduce_sum v))%py.

End Runtime.

Arguments World F : clear implicits.
Arguments call F : clear implicits.

End Runtime.

(** ** PatchedDbrxAttention *)

Module Attention.
Import Torch Runtime.

Section Attn.
Context {F : Type}.
Variable uninit : F.
(** The float operations the file uses. *)
Variable fle : F -> F -> bool.      (* [a <= b] *)
Variable fneg : F -> F.             (* [-a] *)
Variable fone : F.                  (* [1.0] *)
Variable fdiv : F -> F -> F.        (* [a / b] *)
Variable fpow : F -> F -> F.        (* [a ** b] *)
Variable of_int : nat -> F.         (* an integer as a float *)

(** [x != x]: true of NaN only, since [<=] fails as soon as one operand
    is NaN. *)
Definition is_nan (x : F) : bool := negb (fle x x).

(** [a < b] *)
Definition flt (a b : F) : bool := fle a b && negb (fle b a).

(** [std::max] and [std::min] *)
Definition fmax (a b : F) : F := if flt a b then b else a.
Definition fmin (a b : F) : F := if flt b a then b else a.

(** One entry of [torch.clamp(x, min=lo, max=hi)] with scalar bounds: a
    bound that is NaN makes the result NaN, an entry that is NaN is
    returned as it is, and any other entry is [min(max(x, lo), hi)]. *)
Definition clamp_elt (lo hi x : F) : F :=
  if is_nan lo then lo
  else if is_nan hi then hi
  else if is_nan x then x
  else fmin (fmax x lo) hi.
Definition clamp (t : tensor F) (lo hi : F) : tensor F :=
  tmap (clamp_elt lo hi) t.

(** *** The kernels

    What the kernels compute is a parameter; how they are called is
    modelled from the spec (section 6): each reads its arguments and
    writes its result into the tensors it is given for that. *)
Variable fused_rotary_emb_kernel :
  tensor F -> tensor F -> tensor Z -> list F -> F -> list F * list F.
Variable fill_kv_cache_kernel :
  tensor F -> tensor F -> tensor F -> tensor F ->
  tensor Z -> tensor Z -> tensor Z -> Z -> tensor Z -> list F * list F.
Variable paged_attention_fwd_kernel :
  tensor F -> tensor F -> tensor F -> tensor F ->
  tensor Z -> tensor Z -> tensor Z -> tensor Z -> Z -> list F.
Variable all_reduce_sum : tensor F -> list F.

(** Modelled from the spec: the kernel [fused_rotary_emb(query, key,
    position_ids, inv_freq, scaling_factor, out_q, out_k) -> (query',
    key')] writes the rotated query and key into [out_q] and [out_k] and
    returns these two. *)
Definition fused_rotary_emb (q k : ref) (position_ids : tensor Z)
    (inv_freq : list F) (scaling_factor : F) (out_q out_k : ref)
  : M (World F) (ref * ref) :=
  (qv <- read q ;;
   kv <- read k ;;
   emit (Call_fused_rotary_emb q k position_ids inv_freq scaling_factor
           out_q out_k) ;;
   let '(dq, dk) :=
     fused_rotary_emb_kernel (unsqueeze0 qv) (unsqueeze0 kv) position_ids
       inv_freq scaling_factor in
   write_data out_q dq ;;
   write_data out_k dk ;;
   ret (out_q, out_k))%py.

(** Modelled from the spec: the kernel [fill_kv_cache(key, value,
    key_cache, value_cache, q_start_loc, q_seqlens, kv_seqlens,
    max_q_seqlen, block_offsets)] writes the two caches in place. *)
Definition fill_kv_cache (k v key_cache value_cache : ref)
    (q_start_loc q_seq_length kv_seq_length : tensor Z)
    (max_q_seq_length : Z) (block_offsets : tensor Z) : M (World F) unit :=
  (kv <- read k ;;
   vv <- read v ;;
   kc <- read key_cache ;;
   vc <- read value_cache ;;
   emit (Call_fill_kv_cache k v key_cache value_cache q_start_loc
           q_seq_length kv_seq_length max_q_seq_length block_offsets) ;;
   let '(dkc, dvc) :=
     fill_kv_cache_kernel kv vv kc vc q_start_loc q_seq_length kv_seq_length
       max_q_seq_length block_offsets in
   write_data key_cache dkc ;;
   write_data value_cache dvc)%py.

(** Modelled from the spec: the kernel [paged_attention_fwd(query,
    key_cache, value_cache, output, block_offsets, q_start_loc, q_seqlens,
    kv_seqlens, max_seqlen)] writes [output] in place. *)
Definition paged_attention_fwd (q key_cache value_cache o : ref)
    (block_offsets q_start_loc q_seqlens kv_seqlens : tensor Z)
    (max_seqlen : Z) : M (World F) unit :=
  (qv <- read q ;;
   kc <- read key_cache ;;
   vc <- read value_cache ;;
   ov <- read o ;;
   emit (Call_paged_attention_fwd q key_cache value_cache o block_offsets
           q_start_loc q_seqlens kv_seqlens max_seqlen) ;;
   write_data o (paged_attention_fwd_kernel qv kc vc ov block_offsets
                   q_start_loc q_seqlens kv_seqlens max_seqlen))%py.

(** The attributes of the module; the two linear layers act on values. *)
Record Self : Type := {
  num_heads : nat;
  num_key_value_heads : nat;
  head_dim : nat;
  clip_qkv : option F;
  rotary_base : F;                 (* [self.rotary_emb.base] *)
  rotary_dim : nat;                (* [self.rotary_emb.dim] *)
  Wqkv : tensor F -> tensor F;
  out_proj : tensor F -> tensor F
}.

Variable self : Self.

(** [range(0, stop, 2)] *)
Definition arange2 (stop : nat) : list nat :=
  map (fun k => 2 * k) (seq 0 ((stop + 1) / 2)).

(** [1.0 / (base ** (torch.arange(0, dim, 2).float() / dim))] *)
Definition compute_inv_freq (base : F) (dim : nat) : list F :=
  map (fun i => fdiv fone (fpow base (fdiv (of_int i) (of_int dim))))
      (arange2 dim).

Definition _distribute_output_fn (outputs : pyval)
    (kwargs : list (string * pyval)) : M (World F) pyval :=
  (o <- subscript outputs 0 ;;
   all_reduce all_reduce_sum o ;;
   ret outputs)%py.

(** The QKV activations after the statement
    [if self.clip_qkv is not None: qkv_states = qkv_states.clamp(...)]. *)
Definition clipped (qkv_states : tensor F) : tensor F :=
  match clip_qkv self with
  | Some c => clamp qkv_states (fneg c) c
  | None => qkv_states
  end.

Definition __qkv_proj (num_heads num_kv_heads head_dim : nat)
    (hidden_states : ref) : M (World F) (ref * ref * ref) :=
  (h <- read hidden_states ;;
   let qkv_states := Wqkv self h in
   let qkv_states := clipped qkv_states in
   parts <- lift_opt TorchError
     (split_with_sizes uninit qkv_states
        [num_heads * head_dim; num_kv_heads * head_dim; num_kv_heads * head_dim]
        (rank qkv_states - 1)) ;;
   match parts with
   | [query_states; key_states; value_states] =>
       query_states <- lift_opt TorchError
         (view query_states [None; Some num_heads; Some head_dim]) ;;
       key_states <- lift_opt TorchError
         (view key_states [None; Some num_kv_heads; Some head_dim]) ;;
       value_states <- lift_opt TorchError
         (view value_states [None; Some num_kv_heads; Some head_dim]) ;;
       q <- alloc query_states ;;
       k <- alloc key_states ;;
       v <- alloc value_states ;;
       ret (q, k, v)
   | _ => raise TypeError
   end)%py.

Definition __rotary_emb_fn (context : StepContext)
    (query_states key_states value_states : ref)
  : M (World F) (ref * ref * ref) :=
  (let scaling_factor := fone in
   w <- get_state ;;
   inv_freq <-
     match inv_freq w with
     | None =>
         let t := compute_inv_freq (rotary_base self) (rotary_dim self) in
         modify (set_inv_freq (Some t)) ;;
         ret t
     | Some t => ret t
     end ;;
   '(query_states, key_states) <-
     fused_rotary_emb query_states key_states
       (unsqueeze0 (position_ids_1d context)) inv_freq scaling_factor
       query_states key_states ;;
   ret (query_states, key_states, value_states))%py.

Definition _contiguous_batching_forward_impl (hidden_states : ref)
    (past_key_value : pyval) (world_size : nat) : M (World F) pyval :=
  (w <- get_state ;;
   let context := context w in
   let q_start_loc := q_start_loc context in
   let q_seq_length := q_seq_length context in
   let kv_seq_length := kv_seq_length context in
   let block_offsets := block_offsets context in
   let max_q_seq_length := max_q_seq_length context in
   num_heads <- floordiv (num_heads self) world_size ;;
   num_kv_heads <- floordiv (num_key_value_heads self) world_size ;;
   let head_dim := head_dim self in
   '(query_states, key_states, value_states) <-
     __qkv_proj num_heads num_kv_heads head_dim hidden_states ;;
   '(query_states, key_states, value_states) <-
     __rotary_emb_fn context query_states key_states value_states ;;
   key_cache <- bind (subscript past_key_value 0) as_tensor ;;
   value_cache <- bind (subscript past_key_value 1) as_tensor ;;
   fill_kv_cache key_states value_states key_cache value_cache
     q_start_loc q_seq_length kv_seq_length max_q_seq_length block_offsets ;;
   let attn_output := query_states in
   key_cache <- bind (subscript past_key_value 0) as_tensor ;;
   value_cache <- bind (subscript past_key_value 1) as_tensor ;;
   paged_attention_fwd query_states key_cache value_cache attn_output
     block_offsets q_start_loc q_seq_length kv_seq_length max_q_seq_length ;;
   h <- read hidden_states ;;
   o <- read attn_output ;;
   attn_output <- lift_opt TorchError
     (view o (map Some (removelast (shape h)) ++ [None])) ;;
   attn_output <- alloc (out_proj self attn_output) ;;
   ret (PTuple [PTensor attn_output; PNone; past_key_value]))%py.

Definition forward (hidden_states : ref) (position_ids : pyval)
    (attention_mask : pyval) (past_key_value : pyval)
    (output_attentions : bool) (use_cache : bool) (cache_position : pyval)
    (kwargs : list (string * pyval)) : M (World F) pyval :=
  (w <- get_state ;;
   let world_size :=
     match dist_world_size w with
     | Some n => n
     | None => 1
     end in
   _contiguous_batching_forward_impl hidden_states past_key_value world_size)%py.

(** *** Well-shaped calls

    What the engine provides when it calls [forward]: a positive world
    size, hidden states whose QKV projection has the local Q, K and V
    widths after the leading dimensions of the input, at least one token,
    and a key cache and a value cache that are two tensor objects other
    than the hidden states. *)

Definition world_size_of (w : World F) : nat := default 1 (dist_world_size w).

Definition q_width (world_size : nat) : nat :=
  num_heads self / world_size * head_dim self.

Definition kv_width (world_size : nat) : nat :=
  num_key_value_heads self / world_size * head_dim self.

Definition ready (w : World F) (hidden_states : ref) (past_key_value : pyval)
    (h : tensor F) (key_cache value_cache : ref) : Prop :=
  let ws := world_size_of w in
  let lead := removelast (shape h) in
  0 < ws
  /\ heap w !! hidden_states = Some h
  /\ shape (Wqkv self h) = lead ++ [q_width ws + kv_width ws + kv_width ws]
  /\ 0 < q_width ws /\ 0 < kv_width ws /\ 0 < numel lead
  /\ (exists rest,
        past_key_value = PTuple (PTensor key_cache :: PTensor value_cache :: rest))
  /\ is_Some (heap w !! key_cache) /\ is_Some (heap w !! value_cache)
  /\ key_cache <> value_cache
  /\ hidden_states <> key_cache /\ hidden_states <> value_cache.

(** A section of the last dimension of [y], seen as
    [(tokens, heads, head_dim)]. *)
Definition heads_of (y : tensor F) (lead : list nat) (start len heads hd : nat)
  : tensor F :=
  Tensor [numel lead; heads; hd] (data (narrow uninit y (length lead) start len)).

(** The specification's words on the split: the query heads and the
    key-value heads of one rank are in the ratio of the unsharded head
    counts. *)
Definition head_ratio_preserved (Q K : tensor F) : Prop :=
  exists tokens nh nkv hd,
    shape Q = [tokens; nh; hd] /\ shape K = [tokens; nkv; hd]
    /\ nh * num_key_value_heads self = nkv * num_heads self.

End Attn.

Arguments Self F : clear implicits.

End Attention.

(** ** PatchedDbrxExperts *)

Module Experts.
Import Torch Runtime.

Section Experts.
Context {F : Type}.
Variable all_reduce_sum : tensor F -> list F.
(** The fused expert kernel [fused_moe(x, w1, w2, topk_weights, topk_ids,
    topk, renormalize)], a parameter. *)
Variable fused_moe :
  tensor F -> tensor F -> tensor F -> tensor F -> tensor Z -> nat -> bool ->
  tensor F.

Definition _distribute_output_fn (outputs : pyval)
    (kwargs : list (string * pyval)) : M (World F) pyval :=
  (all_reduce all_reduce_sum outputs ;;
   ret outputs)%py.

(** [forward]; the state is [self.mlp], whose buffers are read. *)
Definition forward (x weights top_weights : tensor F) (top_experts : tensor Z)
  : M (ExpertGLU.Module_ F) (tensor F) :=
  (q_len <- lift_opt TorchError (size x 1) ;;
   x <- lift_opt TorchError (flatten x 0 1) ;;
   gate_up_weights <- ExpertGLU.getattr "gate_up_weights" ;;
   down_weights <- ExpertGLU.getattr "down_weights" ;;
   topk <- lift_opt TorchError (size top_weights 1) ;;
   let out_states :=
     fused_moe x gate_up_weights down_weights top_weights top_experts
       topk false in
   out_states <- lift_opt TorchError
     (unflatten out_states 0 [None; Some q_len]) ;;
   ret out_states)%py.

End Experts.

End Experts.

(** ** PatchedDbrxModel *)

Module Model.

Section Driver.
(** The state the embedding, the blocks and the final norm act on. *)
Context {W : Type}.

(** The keyword arguments of a block call. *)
Record BlockArgs : Type := {
  hidden_states : pyval;
  attention_mask : pyval;
  position_ids : pyval;
  past_key_value : pyval;
  output_attentions : bool;
  output_router_logits : bool;
  use_cache : bool;
  cache_position : pyval
}.

(** Calls of submodules, with what they returned. *)
Inductive event : Type :=
| Ev_wte (input_ids : pyval) (result : pyval)
| Ev_block (idx : nat) (args : BlockArgs) (result : pyval)
| Ev_norm_f (input : pyval) (result : pyval).

Record World : Type := {
  inner : W;
  trace : list event
}.

Record MoeModelOutputWithPast : Type := {
  last_hidden_state : pyval;
  past_key_values : pyval;
  all_hidden_states : pyval;       (* the field [hidden_states] *)
  attentions : pyval
}.

(** The submodules *)
Variable wte : pyval -> M W pyval.
Variable blocks : list (BlockArgs -> M W pyval).
Variable norm_f : pyval -> M W pyval.

(** Call a submodule and record the call once it has returned. *)
Definition call_sub (m : M W pyval) (ev : pyval -> event) : M World pyval :=
  fun w => match m (inner w) with
           | (Ok r, i) => (Ok r, {| inner := i; trace := trace w ++ [ev r] |})
           | (Raise e, i) => (Raise e, {| inner := i; trace := trace w |})
           end.

(** The loop [for idx, block in enumerate(self.blocks)], from [idx] on. *)
Fixpoint run_blocks (idx : nat) (bs : list (BlockArgs -> M W pyval))
    (hidden_states attention_mask position_ids past_key_values : pyval)
    (output_attentions output_router_logits use_cache : bool)
    (cache_position : pyval) : M World pyval :=
  match bs with
  | [] => ret hidden_states
  | block :: bs' =>
      (past_key_value <- subscript past_key_values idx ;;
       let args :=
         {| hidden_states := hidden_states;
            attention_mask := attention_mask;
            position_ids := position_ids;
            past_key_value := past_key_value;
            output_attentions := output_attentions;
            output_router_logits := output_router_logits;
            use_cache := use_cache;
            cache_position := cache_position |} in
       block_outputs <- call_sub (block args) (Ev_block idx args) ;;
       hidden_states <- subscript block_outputs 0 ;;
       run_blocks (S idx) bs' hidden_states attention_mask position_ids
         past_key_values output_attentions output_router_logits use_cache
         cache_position)%py
  end.

Definition _continuous_batching_forward
    (input_ids position_ids past_key_values : pyval)
  : M World MoeModelOutputWithPast :=
  (let output_attentions := false in
   let use_cache := true in
   let output_router_logits := false in
   inputs_embeds <- call_sub (wte input_ids) (Ev_wte input_ids) ;;
   (* Attention mask is not necessary in continuous batching *)
   let attention_mask := PNone in
   let cache_position := PNone in
   let hidden_states := inputs_embeds in
   hidden_states <-
     run_blocks 0 blocks hidden_states attention_mask position_ids
       past_key_values output_attentions output_router_logits use_cache
       cache_position ;;
   hidden_states' <- call_sub (norm_f hidden_states) (Ev_norm_f hidden_states) ;;
   ret {| last_hidden_state := hidden_states';
          past_key_values := past_key_values;
          all_hidden_states := PNone;
          attentions := PNone |})%py.

Definition forward
    (input_ids attention_mask position_ids past_key_values inputs_embeds
     use_cache output_attentions output_hidden_states output_router_logits
     return_dict cache_position : pyval)
  : M World MoeModelOutputWithPast :=
  _continuous_batching_forward input_ids position_ids past_key_values.

(** *** The pass as the specification words it

    [blocks_run idx bs h i evs h' i']: from the submodule state [i], the
    blocks [bs], numbered from [idx], are called one after the other in
    that order, each with the hidden states the one before returned (the
    first with [h]), its own entry of [past_key_values], no attention mask
    and no cache position; [evs] are the calls with their results, [h'] the
    hidden states the last block returned and [i'] the state reached. *)
Inductive blocks_run (position_ids past_key_values : pyval)
  : nat -> list (BlockArgs -> M W pyval) -> pyval -> W ->
    list event -> pyval -> W -> Prop :=
| blocks_run_nil idx h i :
    blocks_run position_ids past_key_values idx [] h i [] h i
| blocks_run_cons idx block bs h i kv res i1 h1 evs h' i' :
    getitem past_key_values idx = Ok kv ->
    let args := {| hidden_states := h;
                   attention_mask := PNone;
                   position_ids := position_ids;
                   past_key_value := kv;
                   output_attentions := false;
                   output_router_logits := false;
                   use_cache := true;
                   cache_position := PNone |} in
    block args i = (Ok res, i1) ->
    getitem res 0 = Ok h1 ->
    blocks_run position_ids past_key_values (S idx) bs h1 i1 evs h' i' ->
    blocks_run position_ids past_key_values idx (block :: bs) h i
      (Ev_block idx args res :: evs) h' i'.

End Driver.

Arguments World W : clear implicits.

End Model.

(** ** Concrete instances

    Small inputs on which the functions above are run: two experts of two
    rows, a two-token batch on two ranks, integers for floats and kernels
    that leave a visible mark. *)

Module Demo.
Import Torch Runtime.

(** Expert weights: [(E * F, H) = (4, 2)] for [E = 2] experts. *)
Definition w : tensor nat := Tensor [4; 2] [10; 11; 12; 13; 20; 21; 22; 23].

Definition weights : gmap string (tensor nat) :=
  <["w1" := w]> (<["v1" := tmap (Nat.add 100) w]> (<["w2" := tmap (Nat.add 200) w]> ∅)).

Definition loaded : ExpertGLU.Module_ nat :=
  {| ExpertGLU.moe_num_experts := 2;
     ExpertGLU._parameters := weights;
     ExpertGLU._buffers := ∅ |}.

Definition load_world : ExpertGLU.LoadWorld nat :=
  {| ExpertGLU.self_ := loaded; ExpertGLU.loader := weights |}.

(** The module after the repacking. *)
Definition repacked : ExpertGLU.Module_ nat :=
  snd (ExpertGLU._update_model_fn 0 loaded).

(** A stand-in for the fused expert kernel: it returns the tokens. *)
Definition moe_kernel (x w1 w2 top_weights : tensor nat) (top_experts : tensor Z)
    (topk : nat) (renormalize : bool) : tensor nat := x.

Definition x : tensor nat := Tensor [1; 2; 2] [1; 2; 3; 4].
Definition x_empty : tensor nat := Tensor [1; 0; 2] [].
Definition top_weights : tensor nat := Tensor [2; 1] [1; 1].
Definition top_experts : tensor Z := Tensor [2; 1] [0%Z; 1%Z].

(** Attention: 4 query heads and 2 key-value heads of width 1, on 2 ranks. *)
Definition self : Attention.Self Z :=
  {| Attention.num_heads := 4;
     Attention.num_key_value_heads := 2;
     Attention.head_dim := 1;
     Attention.clip_qkv := Some 5%Z;
     Attention.rotary_base := 10000%Z;
     Attention.rotary_dim := 4;
     Attention.Wqkv := fun h =>
       Tensor [1; 2; 4]
         (flat_map (fun e => [e; (e * 10)%Z; (- e)%Z; (e + 1)%Z]) (data h));
     Attention.out_proj := fun t => tmap (Z.add 1000) t |}.

Definition rotary_kernel (q k : tensor Z) (position_ids : tensor Z)
    (inv_freq : list Z) (scaling_factor : Z) : list Z * list Z :=
  (map (Z.add 100) (data q), map (Z.add 200) (data k)).

Definition fill_kernel (k v key_cache value_cache : tensor Z)
    (q_start_loc q_seq_length kv_seq_length : tensor Z) (max_q_seq_length : Z)
    (block_offsets : tensor Z) : list Z * list Z :=
  (data key_cache ++ data k, data value_cache ++ data v).

Definition attention_kernel (q key_cache value_cache o : tensor Z)
    (block_offsets q_start_loc q_seqlens kv_seqlens : tensor Z)
    (max_seqlen : Z) : list Z :=
  map (Z.mul 2) (data q).

Definition reduce_kernel (t : tensor Z) : list Z := map (Z.mul 2) (data t).

Definition ctx : StepContext :=
  {| q_start_loc := Tensor [1] [0%Z];
     q_seq_length := Tensor [1] [2%Z];
     kv_seq_length := Tensor [1] [2%Z];
     block_offsets := Tensor [1; 1] [0%Z];
     max_q_seq_length := 2%Z;
     position_ids_1d := Tensor [2] [0%Z; 1%Z] |}.

Definition hidden : tensor Z := Tensor [1; 2; 1] [3%Z; 7%Z].

(** Tensor 0 is the hidden states, tensors 1 and 2 the two caches. *)
Definition world : World Z :=
  {| heap := [hidden; Tensor [0] []; Tensor [0] []];
     inv_freq := None;
     context := ctx;
     dist_world_size := Some 2;
     calls := [] |}.

Definition past_key_value : pyval := PTuple [PTensor 1; PTensor 2].

(** The driver: submodules that count their calls; a block returns its
    hidden states and [None]. *)
Definition wte (input_ids : pyval) : M nat pyval :=
  fun calls => (Ok (PTensor 0), S calls).

Definition block (args : Model.BlockArgs) : M nat pyval :=
  fun calls => (Ok (PTuple [Model.hidden_states args; PNone]), S calls).

Definition norm_f (hidden_states : pyval) : M nat pyval :=
  fun calls => (Ok hidden_states, S calls).

Definition past_key_values : pyval :=
  PTuple [PTuple [PTensor 1; PTensor 2]; PTuple [PTensor 3; PTensor 4]].

End Demo.

(** ** PatchedDbrxAttention._load_weights *)

Module AttentionLoad.
Import Attention.

Section Load.
Context {F S : Type}.
(** The two loaders of [weight_loader.dist_utils] are parameters.  They
    act on a state [S] that holds the modules and the weight source; the
    linear layer they fill is named by its attribute. *)
Variable colwise_split_parallelize_linear :
  string -> list nat -> nat -> nat -> string -> M S unit.
Variable rowwise_parallelize_linear :
  string -> nat -> nat -> string -> M S unit.

Variable self : Self F.

(** The local [sections] of [_load_weights]. *)
Definition sections : list nat :=
  [num_heads self * head_dim self;
   num_key_value_heads self * head_dim self;
   num_key_value_heads self * head_dim self].

Definition _load_weights (rank world_size : nat) : M S unit :=
  (colwise_split_parallelize_linear "Wqkv" sections rank world_size "Wqkv" ;;
   rowwise_parallelize_linear "out_proj" rank world_size "out_proj")%py.

End Load.

End AttentionLoad.

(** ** More concrete instances: inputs on which a step fails *)

Module DemoExtra.
Import Torch Runtime.

(** Two experts of five rows of one entry; four ranks get chunks of two
    rows, so that the rows run out before the last rank. *)
Definition w5 : tensor nat := Tensor [10; 1] (seq 0 10).

Definition load_world5 : ExpertGLU.LoadWorld nat :=
  {| ExpertGLU.self_ :=
       {| ExpertGLU.moe_num_experts := 2;
          ExpertGLU._parameters := <["w1" := w5]> ∅;
          ExpertGLU._buffers := ∅ |};
     ExpertGLU.loader := <["w1" := w5]> ∅ |}.

(** A weight source that lacks [v1]. *)
Definition load_world_no_v1 : ExpertGLU.LoadWorld nat :=
  {| ExpertGLU.self_ := Demo.loaded;
     ExpertGLU.loader := <["w1" := Demo.w]> ∅ |}.

(** A module whose [w2] has three rows for two experts. *)
Definition odd_w2 : ExpertGLU.Module_ nat :=
  {| ExpertGLU.moe_num_experts := 2;
     ExpertGLU._parameters :=
       <["w1" := Demo.w]>
         (<["v1" := Demo.w]> (<["w2" := Tensor [3; 2] [1; 2; 3; 4; 5; 6]]> ∅));
     ExpertGLU._buffers := ∅ |}.

(** The attention world of [Demo] on three ranks: more than the two
    key-value heads. *)
Definition world3 : World Z :=
  {| heap := heap Demo.world;
     inv_freq := None;
     context := Demo.ctx;
     dist_world_size := Some 3;
     calls := [] |}.

(** The attention of [Demo] with 5 query heads and 3 key-value heads: on
    two ranks the projection of width 4 is split into 2 query heads and
    one key head and one value head. *)
Definition self53 : Attention.Self Z :=
  {| Attention.num_heads := 5;
     Attention.num_key_value_heads := 3;
     Attention.head_dim := 1;
     Attention.clip_qkv := Some 5%Z;
     Attention.rotary_base := 10000%Z;
     Attention.rotary_dim := 4;
     Attention.Wqkv := Attention.Wqkv Demo.self;
     Attention.out_proj := Attention.out_proj Demo.self |}.

(** A block that raises. *)
Definition failing_block (args : Model.BlockArgs) : M nat pyval :=
  fun calls => (Raise TorchError, S calls).

End DemoExtra.

(** * Properties *)

(** ** The tensor library *)

Module TorchFacts.
Import Torch.

Section Facts.
Context {A : Type}.
Variable uninit : A.

Lemma numel_cons n sh : numel (n :: sh) = n * numel sh.
Proof. reflexivity. Qed.

Lemma ravel_lt sh idx : in_range idx sh -> ravel sh idx < numel sh.
Proof.
  intros H. induction H as [|i n idx sh Hi _ IH]; simpl.
  - lia.
  - fold (numel sh). nia.
Qed.

Lemma unravel_ravel sh idx : in_range idx sh -> unravel sh (ravel sh idx) = idx.
Proof.
  intros H. induction H as [|i n idx sh Hi Hr IH]; simpl; [done|].
  pose proof (ravel_lt _ _ Hr) as Hlt.
  assert (Hdiv : (i * numel sh + ravel sh idx) / numel sh = i).
  { rewrite Nat.add_comm, Nat.div_add by lia.
    rewrite Nat.div_small by lia. lia. }
  assert (Hmod : (i * numel sh + ravel sh idx) mod numel sh = ravel sh idx).
  { rewrite Nat.add_comm, Nat.Div0.mod_add. apply Nat.mod_small; lia. }
  rewrite Hdiv, Hmod, IH. done.
Qed.

Lemma shape_build sh (f : list nat -> A) : shape (build sh f) = sh.
Proof. reflexivity. Qed.

Lemma wf_build sh (f : list nat -> A) : wf (build sh f).
Proof. unfold wf, build; simpl. by rewrite length_map, length_seq. Qed.

(** Reading a built tensor inside its shape gives the builder's value. *)
Lemma get_build sh (f : list nat -> A) idx :
  in_range idx sh -> get uninit (build sh f) idx = f idx.
Proof.
  intros H. unfold get, build; simpl.
  pose proof (ravel_lt _ _ H) as Hlt.
  rewrite nth_lookup, list_lookup_fmap, lookup_seq_lt by done.
  simpl. by rewrite unravel_ravel.
Qed.

Lemma in_range_length idx sh : in_range idx sh -> length idx = length sh.
Proof. apply Forall2_length. Qed.

End Facts.

End TorchFacts.

Module TorchOpsFacts.
Import Torch TorchFacts.

Section Facts.
Context {A : Type}.
Variable uninit : A.

Ltac in_range_tac := unfold in_range; repeat constructor; lia.

Lemma infer_size_tail E n :
  infer_size [Some E; None] n
  = if (0 <? E * 1) && (n mod (E * 1) =? 0) then Some [E; n / (E * 1)] else None.
Proof. reflexivity. Qed.

Lemma unflatten_experts (t : tensor A) E F rest :
  0 < E -> shape t = E * F :: rest ->
  unflatten t 0 [Some E; None] = Some (Tensor (E :: F :: rest) (data t)).
Proof.
  intros HE Hsh. unfold unflatten. rewrite Hsh. simpl.
  rewrite infer_size_tail.
  replace (E * 1) with E by lia.
  assert (Hm : (E * F) mod E = 0) by (rewrite Nat.mul_comm; apply Nat.Div0.mod_mul).
  assert (Hd : (E * F) / E = F) by (rewrite Nat.mul_comm; apply Nat.div_mul; lia).
  rewrite Hm, Hd.
  destruct (0 <? E) eqn:H0; [done|]. apply Nat.ltb_ge in H0. lia.
Qed.

(** Entry [e, i, j] of the unflattened view is entry [e*F + i, j]. *)
Lemma get_unflattened (d : list A) E F H e i j :
  get uninit (Tensor [E; F; H] d) [e; i; j]
  = get uninit (Tensor [E * F; H] d) [e * F + i; j].
Proof. unfold get; simpl. f_equal. lia. Qed.

Lemma get_shape_irrel (t : tensor A) sh idx :
  shape t = sh -> get uninit t idx = get uninit (Tensor sh (data t)) idx.
Proof. intros <-. by destruct t. Qed.

Lemma expand_same3 (t : tensor A) E F H :
  shape t = [E; F; H] ->
  exists t', expand uninit t [E; F; H] = Some t' /\ shape t' = [E; F; H] /\
    forall e i j, e < E -> i < F -> j < H ->
      get uninit t' [e; i; j] = get uninit t [e; i; j].
Proof.
  intros Hsh. unfold expand, rank. rewrite Hsh. simpl.
  rewrite !Nat.eqb_refl. simpl.
  eexists; split; [done|]. split; [done|].
  intros e i j He Hi Hj. rewrite get_build by in_range_tac. simpl.
  destruct (E =? 1) eqn:E1; [apply Nat.eqb_eq in E1|];
  destruct (F =? 1) eqn:F1; try apply Nat.eqb_eq in F1;
  destruct (H =? 1) eqn:H1; try apply Nat.eqb_eq in H1;
  repeat f_equal; lia.
Qed.

Lemma slice_copy_3d (dst src : tensor A) E N H start stop ostop :
  shape dst = [E; N; H] -> shape src = [E; stop - start; H] ->
  start <= stop -> stop <= N -> default N ostop = stop ->
  exists r, slice_copy_ uninit dst 1 start ostop src = Some r /\
    shape r = [E; N; H] /\
    forall e i j, e < E -> i < N -> j < H ->
      get uninit r [e; i; j]
      = if (start <=? i) && (i <? stop) then get uninit src [e; i - start; j]
        else get uninit dst [e; i; j].
Proof.
  intros Hd Hs Hle Hle' Hstop. unfold slice_copy_. rewrite Hd. simpl.
  rewrite Hstop.
  replace (stop `min` N - start `min` N) with (stop - start) by lia.
  destruct (expand_same3 src E (stop - start) H Hs) as (s' & Hex & Hsh' & Hget).
  rewrite Hex. simpl. eexists; split; [done|]. split; [done|].
  intros e i j He Hi Hj. rewrite get_build by in_range_tac. simpl.
  replace (start `min` N) with start by lia.
  replace (start + (stop - start)) with stop by lia.
  destruct ((start <=? i) && (i <? stop)) eqn:Hin; [|done].
  apply andb_prop in Hin as [H1 H2].
  apply Nat.leb_le in H1. apply Nat.ltb_lt in H2.
  apply Hget; lia.
Qed.

Lemma transpose_3d (t : tensor A) E F H :
  shape t = [E; F; H] ->
  exists r, transpose uninit t 1 2 = Some r /\ shape r = [E; H; F] /\
    forall e h f, e < E -> h < H -> f < F ->
      get uninit r [e; h; f] = get uninit t [e; f; h].
Proof.
  intros Hsh. unfold transpose, rank. rewrite Hsh. simpl.
  eexists; split; [done|]. split; [done|].
  intros e h f He Hh Hf. unfold swap; simpl.
  rewrite get_build by in_range_tac. done.
Qed.

End Facts.
End TorchOpsFacts.

Module TorchExtFacts.
Import Torch TorchFacts TorchOpsFacts.

Section Facts.
Context {A : Type}.
Variable uninit : A.

Lemma unravel_in_range sh k : k < numel sh -> in_range (unravel sh k) sh.
Proof.
  revert k. induction sh as [|n sh IH]; intros k Hk; simpl.
  - constructor.
  - rewrite numel_cons in Hk.
    assert (0 < numel sh) by (destruct (numel sh); lia).
    constructor.
    + apply Nat.Div0.div_lt_upper_bound. lia.
    + apply IH. apply Nat.mod_upper_bound. lia.
Qed.

Lemma ravel_unravel sh k : k < numel sh -> ravel sh (unravel sh k) = k.
Proof.
  revert k. induction sh as [|n sh IH]; intros k Hk; simpl.
  - simpl in Hk. lia.
  - rewrite numel_cons in Hk.
    assert (0 < numel sh) by (destruct (numel sh); lia).
    fold (@numel sh). rewrite IH by (apply Nat.mod_upper_bound; lia).
    pose proof (Nat.div_mod_eq k (numel sh)). lia.
Qed.

(** Two well-formed tensors of one shape with equal entries are equal. *)
Lemma tensor_ext (t1 t2 : tensor A) :
  shape t1 = shape t2 -> wf t1 -> wf t2 ->
  (forall idx, in_range idx (shape t1) -> get uninit t1 idx = get uninit t2 idx) ->
  t1 = t2.
Proof.
  destruct t1 as [sh d1], t2 as [sh2 d2]. unfold wf, get; simpl.
  intros <- H1 H2 Hget. f_equal.
  apply (nth_ext _ _ uninit uninit); [congruence|].
  intros k Hk. rewrite H1 in Hk.
  specialize (Hget (unravel sh k) (unravel_in_range _ _ Hk)).
  by rewrite ravel_unravel in Hget.
Qed.

Lemma nth_concat_uniform (ls : list (list A)) L e r :
  Forall (fun l => length l = L) ls -> r < L ->
  nth (e * L + r) (concat ls) uninit = nth r (nth e ls []) uninit.
Proof.
  intros Hall Hr. revert e. induction Hall as [|l ls Hl _ IH]; intros e; simpl.
  - destruct (e * L + r), e, r; reflexivity.
  - destruct e as [|e]; simpl.
    + rewrite app_nth1 by lia. done.
    + rewrite app_nth2 by lia.
      replace (L + e * L + r - length l) with (e * L + r) by lia.
      apply IH.
Qed.

End Facts.
End TorchExtFacts.

(** ** Running monadic code *)

Lemma bind_run {S A B} (c : M S A) (k : A -> M S B) s a s' :
  c s = (Ok a, s') -> bind c k s = k a s'.
Proof. intros H. unfold bind. by rewrite H. Qed.

Lemma bind_raise {S A B} (c : M S A) (k : A -> M S B) s e s' :
  c s = (Raise e, s') -> bind c k s = (Raise e, s').
Proof. intros H. unfold bind. by rewrite H. Qed.

Lemma lift_opt_run {S A} (e : exn) (o : option A) (a : A) (s : S) :
  o = Some a -> lift_opt e o s = (Ok a, s).
Proof. by intros ->. Qed.

Lemma floordiv_run {S} (a b : nat) (s : S) :
  0 < b -> floordiv a b s = (Ok (a / b), s).
Proof.
  intros Hb. unfold floordiv. destruct (b =? 0) eqn:E; [|done].
  apply Nat.eqb_eq in E. lia.
Qed.

(** ** Expert weights: repacking *)

Module ExpertGLUFacts.
Import Torch TorchFacts TorchOpsFacts TorchExtFacts ExpertGLU.

Section Facts.
Context {A : Type}.
Variable uninit : A.

Lemma getattr_param (m : Module_ A) name t :
  _parameters m !! name = Some t -> getattr name m = (Ok t, m).
Proof. intros H. unfold getattr. by rewrite H. Qed.

Lemma getattr_missing (m : Module_ A) name :
  _parameters m !! name = None -> _buffers m !! name = None ->
  getattr name m = (Raise AttributeError, m).
Proof. intros H1 H2. unfold getattr. by rewrite H1, H2. Qed.

Lemma delattr_param (m : Module_ A) name t :
  _parameters m !! name = Some t ->
  delattr name m
  = (Ok tt, {| moe_num_experts := moe_num_experts m;
               _parameters := delete name (_parameters m);
               _buffers := _buffers m |}).
Proof. intros H. unfold delattr. by rewrite H. Qed.

Lemma register_buffer_run (m : Module_ A) name t :
  _parameters m !! name = None ->
  register_buffer name t m
  = (Ok tt, {| moe_num_experts := moe_num_experts m;
               _parameters := _parameters m;
               _buffers := <[name := t]> (_buffers m) |}).
Proof. intros H. unfold register_buffer. rewrite H. by destruct (_buffers m !! name). Qed.

(** The repacking, run on a loaded module: it succeeds, removes the three
    load-representation parameters and registers the two buffers, whose
    entries are those of [w1], [v1] and [w2]. *)
Lemma update_model_fn_run (m : Module_ A) E F H F2 H2 w1 v1 w2 :
  moe_num_experts m = E -> 0 < E ->
  _parameters m !! "w1" = Some w1 ->
  _parameters m !! "v1" = Some v1 ->
  _parameters m !! "w2" = Some w2 ->
  shape w1 = [E * F; H] -> shape v1 = [E * F; H] -> shape w2 = [E * F2; H2] ->
  _parameters m !! "gate_up_weights" = None ->
  _parameters m !! "down_weights" = None ->
  exists gu dn,
    _update_model_fn uninit m
    = (Ok tt, {| moe_num_experts := E;
                 _parameters :=
                   delete "w2" (delete "v1" (delete "w1" (_parameters m)));
                 _buffers :=
                   <["down_weights" := dn]>
                     (<["gate_up_weights" := gu]> (_buffers m)) |})
    /\ shape gu = [E; F * 2; H] /\ wf gu
    /\ (forall e i j, e < E -> i < F * 2 -> j < H ->
          get uninit gu [e; i; j]
          = if i <? F then get uninit w1 [e * F + i; j]
            else get uninit v1 [e * F + (i - F); j])
    /\ shape dn = [E; H2; F2] /\ wf dn
    /\ (forall e h f, e < E -> h < H2 -> f < F2 ->
          get uninit dn [e; h; f] = get uninit w2 [e * F2 + f; h]).
Proof.
  intros HE HE0 Hw1 Hv1 Hw2 Hs1 Hs2 Hs3 Hgu Hdn.
  assert (Hdiv : (E * F) / E = F) by (rewrite Nat.mul_comm; apply Nat.div_mul; lia).
  set (gu0 := new_empty uninit [E; F * 2; H]).
  destruct (slice_copy_3d uninit gu0 (Tensor [E; F; H] (data w1))
              E (F * 2) H 0 F (Some F))
    as (gu1 & Hc1 & Hsh1 & Hg1); [done| by rewrite Nat.sub_0_r | lia | lia | done |].
  destruct (slice_copy_3d uninit gu1 (Tensor [E; F; H] (data v1))
              E (F * 2) H F (F * 2) None)
    as (gu2 & Hc2 & Hsh2 & Hg2); [done| by replace (F * 2 - F) with F by lia | lia | lia | done |].
  destruct (transpose_3d uninit (Tensor [E; F2; H2] (data w2)) E F2 H2 eq_refl)
    as (dn & Htr & Hshd & Hgd).
  exists gu2, dn. split.
  - unfold _update_model_fn.
    erewrite bind_run by reflexivity. rewrite HE.
    erewrite bind_run by (by apply getattr_param).
    erewrite bind_run by (apply lift_opt_run; unfold size; by rewrite Hs1).
    erewrite bind_run by (by apply floordiv_run).
    rewrite Hdiv.
    erewrite bind_run by (by apply getattr_param).
    erewrite bind_run by (apply lift_opt_run; unfold size; by rewrite Hs1).
    erewrite bind_run by (by apply getattr_param).
    erewrite bind_run by (apply lift_opt_run; by apply unflatten_experts).
    erewrite bind_run by (apply lift_opt_run; exact Hc1).
    erewrite bind_run by (by apply getattr_param).
    erewrite bind_run by (apply lift_opt_run; by apply unflatten_experts).
    erewrite bind_run by (apply lift_opt_run; exact Hc2).
    erewrite bind_run by (by eapply delattr_param).
    erewrite bind_run by (eapply delattr_param; simpl; by simplify_map_eq).
    erewrite bind_run by (eapply getattr_param; simpl; by simplify_map_eq).
    erewrite bind_run by (apply lift_opt_run; by apply unflatten_experts).
    erewrite bind_run by (apply lift_opt_run; exact Htr).
    erewrite bind_run by (eapply delattr_param; simpl; by simplify_map_eq).
    erewrite bind_run by (eapply register_buffer_run; simpl; by simplify_map_eq).
    rewrite register_buffer_run by (simpl; by simplify_map_eq).
    simpl. by rewrite HE.
  - split; [done|]. split.
    { unfold slice_copy_ in Hc2. rewrite Hsh1 in Hc2. simpl in Hc2.
      destruct (expand _ _ _) in Hc2; simpl in Hc2; [|done].
      injection Hc2 as <-. apply wf_build. }
    split.
    { intros e i j He Hi Hj. rewrite Hg2 by lia.
      destruct (i <? F) eqn:Hlt.
      - apply Nat.ltb_lt in Hlt.
        replace (F <=? i) with false by (symmetry; apply Nat.leb_gt; lia).
        simpl. rewrite Hg1 by lia. simpl.
        replace (i <? F) with true by (symmetry; apply Nat.ltb_lt; lia).
        rewrite Nat.sub_0_r, get_unflattened.
        symmetry. by apply get_shape_irrel.
      - apply Nat.ltb_ge in Hlt.
        replace (F <=? i) with true by (symmetry; apply Nat.leb_le; lia).
        replace (i <? F * 2) with true by (symmetry; apply Nat.ltb_lt; lia).
        simpl. rewrite get_unflattened.
        symmetry. by apply get_shape_irrel. }
    split; [done|]. split.
    { unfold transpose in Htr. simpl in Htr. injection Htr as <-. apply wf_build. }
    intros e h f He Hh Hf. rewrite Hgd by lia.
    rewrite get_unflattened. symmetry. by apply get_shape_irrel.
Qed.

End Facts.
End ExpertGLUFacts.

(** ** The reference repacking, entry by entry *)

Module ReferenceFacts.
Import Torch TorchFacts TorchOpsFacts TorchExtFacts Reference.

Section Facts.
Context {A : Type}.
Variable uninit : A.

Lemma shape_stack (g : nat -> tensor A) n :
  0 < n -> shape (stack (map g (seq 0 n))) = n :: shape (g 0).
Proof.
  intros Hn. unfold stack; simpl. rewrite length_map, length_seq.
  destruct n; [lia|]. done.
Qed.

Lemma wf_stack (g : nat -> tensor A) n sh :
  0 < n -> (forall e, e < n -> shape (g e) = sh /\ wf (g e)) ->
  wf (stack (map g (seq 0 n))).
Proof.
  intros Hn Hg. unfold wf. rewrite shape_stack by done.
  destruct (Hg 0 Hn) as [-> _]. unfold stack; simpl.
  fold (numel sh).
  assert (Hgen : forall a m, (forall e, a <= e < a + m -> length (data (g e)) = numel sh) ->
                 length (concat (data <$> map g (seq a m))) = m * numel sh).
  { intros a m. revert a. induction m as [|m IH]; intros a Ha; simpl; [done|].
    rewrite length_app, Ha by lia. rewrite IH; [lia|]. intros e He. apply Ha. lia. }
  apply Hgen. intros e He. destruct (Hg e) as [Hs Hw]; [lia|].
  unfold wf in Hw. by rewrite Hw, Hs.
Qed.

Lemma get_stack (g : nat -> tensor A) n sh e idx :
  (forall e, e < n -> shape (g e) = sh /\ wf (g e)) ->
  e < n -> in_range idx sh ->
  get uninit (stack (map g (seq 0 n))) (e :: idx) = get uninit (g e) idx.
Proof.
  intros Hg He Hidx. unfold get.
  rewrite shape_stack by lia. destruct (Hg 0) as [Hs0 _]; [lia|].
  destruct (Hg e He) as [Hse Hwe]. rewrite Hs0, Hse. simpl. fold (numel sh).
  rewrite (nth_concat_uniform uninit _ (numel sh)).
  - f_equal. rewrite nth_lookup, !list_lookup_fmap, lookup_seq_lt by done. reflexivity.
  - apply Forall_fmap, Forall_fmap, Forall_forall. intros x Hx.
    apply elem_of_seq in Hx. simpl. destruct (Hg x) as [Hs Hw]; [lia|].
    unfold wf in Hw. by rewrite Hw, Hs.
  - by apply ravel_lt.
Qed.

Lemma expert_shape (w : tensor A) E F H e :
  0 < E -> shape w = [E * F; H] -> shape (expert uninit E w e) = [F; H].
Proof.
  intros HE Hs. unfold expert, narrow. rewrite Hs, shape_build.
  change (default 0 ([E * F; H] !! 0)) with (E * F).
  rewrite (Nat.mul_comm E F), Nat.div_mul by lia. done.
Qed.

Lemma get_expert (w : tensor A) E F H e i j :
  0 < E -> shape w = [E * F; H] -> i < F -> j < H ->
  get uninit (expert uninit E w e) [i; j] = get uninit w [e * F + i; j].
Proof.
  intros HE Hs Hi Hj. unfold expert, narrow. rewrite Hs.
  change (default 0 ([E * F; H] !! 0)) with (E * F).
  rewrite (Nat.mul_comm E F), Nat.div_mul by lia.
  rewrite get_build by (unfold in_range; repeat constructor; lia).
  simpl. f_equal. f_equal. lia.
Qed.

Lemma wf_expert (w : tensor A) E e : wf (expert uninit E w e).
Proof. apply wf_build. Qed.

Lemma get_cat0 (a b : tensor A) F Fb H i j :
  shape a = [F; H] -> shape b = [Fb; H] -> wf a -> j < H ->
  get uninit (cat0 a b) [i; j]
  = if i <? F then get uninit a [i; j] else get uninit b [i - F; j].
Proof.
  intros Ha Hb Hwa Hj. unfold get, cat0. rewrite Ha, Hb.
  unfold wf in Hwa. rewrite Ha in Hwa.
  cbn [shape data ravel numel foldr drop] in *.
  destruct (i <? F) eqn:Hlt.
  - apply Nat.ltb_lt in Hlt. rewrite app_nth1 by nia. done.
  - apply Nat.ltb_ge in Hlt. rewrite app_nth2 by nia.
    f_equal. rewrite Hwa. nia.
Qed.

Lemma shape_cat0 (a b : tensor A) F Fb H :
  shape a = [F; H] -> shape b = [Fb; H] -> shape (cat0 a b) = [F + Fb; H].
Proof. intros Ha Hb. unfold cat0. by rewrite Ha, Hb. Qed.

Lemma wf_cat0 (a b : tensor A) F Fb H :
  shape a = [F; H] -> shape b = [Fb; H] -> wf a -> wf b -> wf (cat0 a b).
Proof.
  intros Ha Hb Hwa Hwb. unfold wf in *. rewrite (shape_cat0 a b F Fb H) by done.
  unfold cat0. cbn [data]. rewrite length_app, Hwa, Hwb, Ha, Hb.
  cbn [numel foldr]. lia.
Qed.

Lemma shape_t_ (m : tensor A) F H : shape m = [F; H] -> shape (t_ uninit m) = [H; F].
Proof. intros Hm. unfold t_. by rewrite Hm. Qed.

Lemma get_t_ (m : tensor A) F H h f :
  shape m = [F; H] -> h < H -> f < F ->
  get uninit (t_ uninit m) [h; f] = get uninit m [f; h].
Proof.
  intros Hm Hh Hf. unfold t_. rewrite Hm.
  rewrite get_build by (unfold in_range; repeat constructor; lia). done.
Qed.

(** Entries of the reference [gate_up]. *)
Lemma reference_gate_up_spec (gate value : tensor A) E F H :
  0 < E -> shape gate = [E * F; H] -> shape value = [E * F; H] ->
  shape (reference_gate_up uninit E gate value) = [E; F + F; H]
  /\ wf (reference_gate_up uninit E gate value)
  /\ forall e i j, e < E -> i < F + F -> j < H ->
       get uninit (reference_gate_up uninit E gate value) [e; i; j]
       = if i <? F then get uninit gate [e * F + i; j]
         else get uninit value [e * F + (i - F); j].
Proof.
  intros HE Hg Hv. unfold reference_gate_up.
  set (blk := fun e => cat0 (expert uninit E gate e) (expert uninit E value e)).
  assert (Hblk : forall e, e < E -> shape (blk e) = [F + F; H] /\ wf (blk e)).
  { intros e He. unfold blk. split.
    - apply shape_cat0; by apply expert_shape.
    - eapply wf_cat0; try (by apply expert_shape); apply wf_expert. }
  split; [|split].
  - rewrite shape_stack by done. by destruct (Hblk 0 HE) as [-> _].
  - by eapply wf_stack.
  - intros e i j He Hi Hj.
    rewrite (get_stack blk E [F + F; H])
      by (try done; unfold in_range; repeat constructor; lia).
    unfold blk.
    rewrite (get_cat0 _ _ F F H)
      by (try (by apply expert_shape); try apply wf_expert; done).
    destruct (i <? F) eqn:Hlt.
    + apply Nat.ltb_lt in Hlt. by apply (get_expert _ E F H).
    + apply Nat.ltb_ge in Hlt. apply (get_expert _ E F H); try done; lia.
Qed.

(** Entries of the reference [down]. *)
Lemma reference_down_spec (down : tensor A) E F H :
  0 < E -> shape down = [E * F; H] ->
  shape (reference_down uninit E down) = [E; H; F]
  /\ wf (reference_down uninit E down)
  /\ forall e h f, e < E -> h < H -> f < F ->
       get uninit (reference_down uninit E down) [e; h; f]
       = get uninit down [e * F + f; h].
Proof.
  intros HE Hd. unfold reference_down.
  set (blk := fun e => t_ uninit (expert uninit E down e)).
  assert (Hblk : forall e, e < E -> shape (blk e) = [H; F] /\ wf (blk e)).
  { intros e He. unfold blk. split.
    - apply shape_t_. by apply expert_shape.
    - apply wf_build. }
  split; [|split].
  - rewrite shape_stack by done. by destruct (Hblk 0 HE) as [-> _].
  - by eapply wf_stack.
  - intros e h f He Hh Hf.
    rewrite (get_stack blk E [H; F])
      by (try done; unfold in_range; repeat constructor; lia).
    unfold blk. rewrite (get_t_ _ F H) by (try done; by apply expert_shape).
    by apply (get_expert _ E F H).
Qed.

Lemma in_range3 idx E F H :
  in_range idx [E; F; H] ->
  exists e i j, idx = [e; i; j] /\ e < E /\ i < F /\ j < H.
Proof.
  intros Hr. unfold in_range in Hr.
  apply Forall2_cons_inv_r in Hr as (e & r1 & He & Hr & ->).
  apply Forall2_cons_inv_r in Hr as (i & r2 & Hi & Hr & ->).
  apply Forall2_cons_inv_r in Hr as (j & r3 & Hj & Hr & ->).
  apply Forall2_nil_inv_r in Hr as ->. eauto 10.
Qed.

End Facts.
End ReferenceFacts.

Module Repack.
Import Torch TorchFacts TorchOpsFacts TorchExtFacts ExpertGLU ExpertGLUFacts.
Import Reference ReferenceFacts.

Section Claims.
Context {A : Type}.
Variable uninit : A.

(** C2.  Repacking a loaded module succeeds, and the two buffers it
    registers are the reference tensors: [gate_up_weights] is, expert by
    expert, the rows of [w1] followed by the rows of [v1], and
    [down_weights] is, expert by expert, the transpose of the rows of
    [w2]. *)
Theorem repack_matches_reference (m : Module_ A) E F H F2 H2 w1 v1 w2 :
  moe_num_experts m = E -> 0 < E ->
  _parameters m !! "w1" = Some w1 ->
  _parameters m !! "v1" = Some v1 ->
  _parameters m !! "w2" = Some w2 ->
  shape w1 = [E * F; H] -> shape v1 = [E * F; H] -> shape w2 = [E * F2; H2] ->
  _parameters m !! "gate_up_weights" = None ->
  _parameters m !! "down_weights" = None ->
  exists m' gate_up down,
    _update_model_fn uninit m = (Ok tt, m')
    /\ _buffers m' !! "gate_up_weights" = Some gate_up
    /\ _buffers m' !! "down_weights" = Some down
    /\ gate_up = reference_gate_up uninit E w1 v1
    /\ down = reference_down uninit E w2
    /\ (forall e i j, e < E -> i < F -> j < H ->
          get uninit gate_up [e; i; j] = get uninit w1 [e * F + i; j]
          /\ get uninit gate_up [e; F + i; j] = get uninit v1 [e * F + i; j])
    /\ (forall e h f, e < E -> h < H2 -> f < F2 ->
          get uninit down [e; h; f] = get uninit w2 [e * F2 + f; h]).
Proof.
  intros HE HE0 Hw1 Hv1 Hw2 Hs1 Hs2 Hs3 Hgu Hdn.
  destruct (update_model_fn_run uninit m E F H F2 H2 w1 v1 w2)
    as (gu & dn & Hrun & Hsg & Hwg & Hgg & Hsd & Hwd & Hgd); try done.
  destruct (reference_gate_up_spec uninit w1 v1 E F H) as (Rs & Rw & Rg); try done.
  destruct (reference_down_spec uninit w2 E F2 H2) as (Ds & Dw & Dg); try done.
  eexists _, gu, dn. split; [exact Hrun|]. simpl.
  split; [by simplify_map_eq|]. split; [by simplify_map_eq|].
  split; [|split; [|split]].
  - apply (tensor_ext uninit); try done.
    + rewrite Hsg, Rs. do 2 f_equal. lia.
    + intros idx Hidx. rewrite Hsg in Hidx.
      apply in_range3 in Hidx as (e & i & j & -> & He & Hi & Hj).
      rewrite Hgg, Rg by lia. done.
  - apply (tensor_ext uninit); try done.
    + by rewrite Hsd, Ds.
    + intros idx Hidx. rewrite Hsd in Hidx.
      apply in_range3 in Hidx as (e & h & f & -> & He & Hh & Hf).
      rewrite Hgd, Dg by lia. done.
  - intros e i j He Hi Hj. rewrite !Hgg by lia.
    replace (i <? F) with true by (symmetry; apply Nat.ltb_lt; lia).
    replace (F + i <? F) with false by (symmetry; apply Nat.ltb_ge; lia).
    replace (F + i - F) with i by lia. done.
  - exact Hgd.
Qed.

(** C9.  Repacking is a one-way step: afterwards [w1], [v1] and [w2] are
    no longer attributes of the module, the two buffers are, and a second
    repack raises AttributeError and leaves the module as it was. *)
Theorem repack_one_time_transition (m : Module_ A) E F H F2 H2 w1 v1 w2 :
  moe_num_experts m = E -> 0 < E ->
  _parameters m !! "w1" = Some w1 ->
  _parameters m !! "v1" = Some v1 ->
  _parameters m !! "w2" = Some w2 ->
  shape w1 = [E * F; H] -> shape v1 = [E * F; H] -> shape w2 = [E * F2; H2] ->
  _parameters m !! "gate_up_weights" = None ->
  _parameters m !! "down_weights" = None ->
  names_apart m ->
  exists m',
    _update_model_fn uninit m = (Ok tt, m')
    /\ (forall name, name ∈ ["w1"; "v1"; "w2"] ->
          getattr name m' = (Raise AttributeError, m'))
    /\ is_Some (_buffers m' !! "gate_up_weights")
    /\ is_Some (_buffers m' !! "down_weights")
    /\ _update_model_fn uninit m' = (Raise AttributeError, m').
Proof.
  intros HE HE0 Hw1 Hv1 Hw2 Hs1 Hs2 Hs3 Hgu Hdn Hapart.
  destruct (update_model_fn_run uninit m E F H F2 H2 w1 v1 w2)
    as (gu & dn & Hrun & _); try done.
  eexists. split; [exact Hrun|].
  assert (Hgone : forall name, name ∈ ["w1"; "v1"; "w2"] ->
            getattr name
              {| moe_num_experts := E;
                 _parameters := delete "w2" (delete "v1" (delete "w1" (_parameters m)));
                 _buffers := <["down_weights":=dn]> (<["gate_up_weights":=gu]> (_buffers m)) |}
            = (Raise AttributeError,
              {| moe_num_experts := E;
                 _parameters := delete "w2" (delete "v1" (delete "w1" (_parameters m)));
                 _buffers := <["down_weights":=dn]> (<["gate_up_weights":=gu]> (_buffers m)) |})).
  { intros name Hin. apply getattr_missing; simpl.
    - set_unfold in Hin. destruct Hin as [->|[->|[->|[]]]]; by simplify_map_eq.
    - set_unfold in Hin.
      destruct Hin as [->|[->|[->|[]]]]; simplify_map_eq; by apply Hapart. }
  split; [exact Hgone|]. simpl.
  split; [by simplify_map_eq|]. split; [by simplify_map_eq|].
  unfold _update_model_fn.
  erewrite bind_run by reflexivity.
  erewrite bind_raise; [done|].
  apply Hgone. set_solver.
Qed.

End Claims.

End Repack.

(** ** Expert weights: loading *)

Module Load.
Import Torch TorchFacts TorchOpsFacts TorchExtFacts ExpertGLU ExpertGLUFacts.

Section Facts.
Context {A : Type}.
Variable uninit : A.

Lemma chunk_size_pos F ws : 0 < ws -> 0 < F -> 0 < chunk_size F ws.
Proof. intros Hws HF. unfold chunk_size. apply Nat.div_str_pos. lia. Qed.

(** The pieces of [split]: piece [rank] starts at row [rank * c] and is
    [c] rows long, except the last, which takes what is left. *)
Lemma split_piece (t : tensor A) E F H c rank :
  shape t = [E; F; H] -> 0 < c -> rank * c < F ->
  exists ps, split uninit t c 1 = Some ps
    /\ ps !! rank = Some (narrow uninit t 1 (rank * c) (Nat.min c (F - rank * c))).
Proof.
  intros Hs Hc Hr.
  unfold split. rewrite Hs. cbn [lookup list_lookup mbind option_bind].
  replace (c =? 0) with false by (symmetry; apply Nat.eqb_neq; lia).
  cbn [andb].
  set (q := (F + c - 1) / c).
  pose proof (Nat.div_mod_eq (F + c - 1) c) as Hdm. fold q in Hdm.
  pose proof (Nat.mod_upper_bound (F + c - 1) c ltac:(lia)) as Hm.
  set (r := (F + c - 1) mod c) in *.
  assert (Hq : rank < q) by nia.
  replace (q `max` 1) with q by lia.
  eexists; split; [done|].
  rewrite list_lookup_fmap, lookup_seq_lt by lia. simpl. do 2 f_equal.
  destruct (rank <? q - 1) eqn:Hlt.
  - apply Nat.ltb_lt in Hlt. nia.
  - apply Nat.ltb_ge in Hlt. assert (rank = q - 1) as -> by lia. nia.
Qed.

Lemma chunk_piece (t : tensor A) E F H ws rank :
  shape t = [E; F; H] -> 0 < ws -> rank * chunk_size F ws < F ->
  exists ps, chunk uninit t ws 1 = Some ps
    /\ ps !! rank = Some (narrow uninit t 1 (rank * chunk_size F ws)
                            (chunk_len F ws rank)).
Proof.
  intros Hs Hws Hr. pose proof (chunk_size_pos F ws Hws ltac:(lia)) as Hc.
  unfold chunk. rewrite Hs. cbn [lookup list_lookup mbind option_bind].
  replace (ws =? 0) with false by (symmetry; apply Nat.eqb_neq; lia).
  fold (chunk_size F ws).
  replace (chunk_size F ws =? 0) with false by (symmetry; apply Nat.eqb_neq; lia).
  cbn [andb]. by apply (split_piece t E F H).
Qed.

Lemma register_parameter_run (m : Module_ A) name t :
  is_Some (_parameters m !! name) ->
  register_parameter name t m
  = (Ok tt, {| moe_num_experts := moe_num_experts m;
               _parameters := <[name := t]> (_parameters m);
               _buffers := _buffers m |}).
Proof. intros [x Hx]. unfold register_parameter. by rewrite Hx. Qed.

(** One call of [__partition]: the parameter becomes, for every expert,
    rows [rank * c .. rank * c + len) of that expert. *)
Lemma partition_run (w : LoadWorld A) rank ws name param W E F H :
  moe_num_experts (self_ w) = E -> 0 < E -> 0 < ws ->
  is_Some (_parameters (self_ w) !! name) ->
  loader w !! name = Some W -> shape W = [E * F; H] ->
  rank * chunk_size F ws < F ->
  exists P,
    __partition uninit rank ws name param w
    = (Ok tt, {| self_ := {| moe_num_experts := E;
                             _parameters := <[name := P]> (_parameters (self_ w));
                             _buffers := _buffers (self_ w) |};
                 loader := delete name (loader w) |})
    /\ shape P = [E * chunk_len F ws rank; H]
    /\ forall e i j, e < E -> i < chunk_len F ws rank -> j < H ->
         get uninit P [e * chunk_len F ws rank + i; j]
         = get uninit W [e * F + (rank * chunk_size F ws + i); j].
Proof.
  intros HE HE0 Hws Hpar Hld Hs Hr.
  destruct (chunk_piece (Tensor [E; F; H] (data W)) E F H ws rank eq_refl Hws Hr)
    as (ps & Hch & Hps).
  set (len := chunk_len F ws rank) in *. set (c := chunk_size F ws) in *.
  eexists. split; [|split].
  - unfold __partition.
    erewrite bind_run by (unfold loader_pop; by rewrite Hld).
    erewrite bind_run by reflexivity. cbn [self_]. rewrite HE.
    erewrite bind_run by (apply lift_opt_run; by apply unflatten_experts).
    erewrite bind_run by (apply lift_opt_run; exact Hch).
    erewrite bind_run by (apply lift_opt_run; exact Hps).
    erewrite bind_run by (apply lift_opt_run; reflexivity).
    unfold on_self. cbn [self_ loader].
    rewrite register_parameter_run by done. by rewrite HE.
  - cbn. f_equal. lia.
  - intros e i j He Hi Hj.
    transitivity (get uninit (narrow uninit (Tensor [E; F; H] (data W)) 1 (rank * c) len)
                    [e; i; j]).
    + unfold get. cbn. f_equal. lia.
    + unfold narrow. cbn [shape].
      rewrite get_build by (unfold in_range; cbn; repeat constructor; lia).
      cbn [alter list_alter]. rewrite get_unflattened.
      rewrite (get_shape_irrel uninit W [E * F; H]) by done.
      do 3 f_equal. lia.
Qed.

End Facts.
End Load.

Module LoadClaims.
Import Torch TorchFacts TorchOpsFacts TorchExtFacts ExpertGLU ExpertGLUFacts Load.

Section Claims.
Context {A : Type}.
Variable uninit : A.

(** C1, as the code has it.  Loading cuts every expert along its row
    (feature) axis: with [c = chunk_size F world_size] rows per rank, the
    parameter of rank [rank] holds, for each of the [E] experts, rows
    [rank * c .. rank * c + len) of that expert, experts in order. *)
Theorem load_weights_shards_rows_of_every_expert
    (w : LoadWorld A) rank world_size E F H W1 V1 W2 :
  moe_num_experts (self_ w) = E -> 0 < E -> 0 < world_size ->
  is_Some (_parameters (self_ w) !! "w1") ->
  is_Some (_parameters (self_ w) !! "v1") ->
  is_Some (_parameters (self_ w) !! "w2") ->
  loader w !! "w1" = Some W1 ->
  loader w !! "v1" = Some V1 ->
  loader w !! "w2" = Some W2 ->
  shape W1 = [E * F; H] -> shape V1 = [E * F; H] -> shape W2 = [E * F; H] ->
  rank * chunk_size F world_size < F ->
  exists w',
    _load_weights uninit rank world_size w = (Ok tt, w')
    /\ forall name W, (name, W) ∈ [("w1", W1); ("v1", V1); ("w2", W2)] ->
         exists P,
           _parameters (self_ w') !! name = Some P
           /\ shape P = [E * chunk_len F world_size rank; H]
           /\ forall e i j,
                e < E -> i < chunk_len F world_size rank -> j < H ->
                get uninit P [e * chunk_len F world_size rank + i; j]
                = get uninit W [e * F + (rank * chunk_size F world_size + i); j].
Proof.
  intros HE HE0 Hws [p1 Hp1] [p2 Hp2] [p3 Hp3] Hl1 Hl2 Hl3 Hs1 Hs2 Hs3 Hr.
  destruct (partition_run uninit w rank world_size "w1" p1 W1 E F H)
    as (P1 & Hrun1 & Hsh1 & Hg1); try done.
  set (wa := {| self_ := {| moe_num_experts := E;
                            _parameters := <["w1" := P1]> (_parameters (self_ w));
                            _buffers := _buffers (self_ w) |};
                loader := delete "w1" (loader w) |}) in *.
  destruct (partition_run uninit wa rank world_size "v1" p2 V1 E F H)
    as (P2 & Hrun2 & Hsh2 & Hg2); try done;
    try (subst wa; cbn; by simplify_map_eq).
  set (wb := {| self_ := {| moe_num_experts := E;
                            _parameters := <["v1" := P2]> (_parameters (self_ wa));
                            _buffers := _buffers (self_ wa) |};
                loader := delete "v1" (loader wa) |}) in *.
  destruct (partition_run uninit wb rank world_size "w2" p3 W2 E F H)
    as (P3 & Hrun3 & Hsh3 & Hg3); try done;
    try (subst wb wa; cbn; by simplify_map_eq).
  eexists. split.
  - unfold _load_weights.
    erewrite bind_run
      by (unfold on_self; erewrite getattr_param by exact Hp1; reflexivity).
    replace {| self_ := self_ w; loader := loader w |} with w by (by destruct w).
    erewrite bind_run by exact Hrun1.
    erewrite bind_run
      by (unfold on_self; erewrite getattr_param
            by (subst wa; cbn; by simplify_map_eq); reflexivity).
    erewrite bind_run by exact Hrun2.
    erewrite bind_run
      by (unfold on_self; erewrite getattr_param
            by (subst wb wa; cbn; by simplify_map_eq); reflexivity).
    exact Hrun3.
  - intros name W Hin. set_unfold in Hin.
    destruct Hin as [Heq|[Heq|[Heq|[]]]]; injection Heq as -> ->.
    + exists P1. split; [subst wb wa; cbn; by simplify_map_eq|]. done.
    + exists P2. split; [subst wb wa; cbn; by simplify_map_eq|]. done.
    + exists P3. split; [subst wb wa; cbn; by simplify_map_eq|]. done.
Qed.

End Claims.

(** C1, as stated, fails.  Two experts of two rows, two ranks: rank 0
    gets row 0 of expert 0 and row 0 of expert 1 (positions 0 and 2), rank
    1 gets the two rows 1 (positions 1 and 3).  Rank 0 holds a part of
    expert 0 and not all of it, so the tensor is not sharded along the
    expert axis. *)
Lemma expert_axis_sharding_refuted :
  rank_shard 2 2 1 2 0 "w1" = Some (Tensor [2; 1] [0; 2])
  /\ rank_shard 2 2 1 2 1 "w1" = Some (Tensor [2; 1] [1; 3])
  /\ ~ sharded_along_expert_axis 2 2 1 2 "w1".
Proof.
  split; [vm_compute; reflexivity|]. split; [vm_compute; reflexivity|].
  intros Hc.
  destruct (Hc 0 (Tensor [2; 1] [0; 2]) 0) as [Hall _].
  - lia.
  - vm_compute. reflexivity.
  - lia.
  - exists 0. split; [apply list_elem_of_here|reflexivity].
  - specialize (Hall 1 ltac:(lia) eq_refl). cbn in Hall.
    rewrite !elem_of_cons, elem_of_nil in Hall. lia.
Qed.

End LoadClaims.

(** ** Shapes along the last dimension *)

Module ShapeFacts.
Import Torch TorchFacts TorchOpsFacts TorchExtFacts.

Section Facts.
Context {A : Type}.
Variable uninit : A.

Lemma numel_app sh1 sh2 : numel (sh1 ++ sh2) = numel sh1 * numel sh2.
Proof.
  induction sh1 as [|n sh1 IH]; simpl.
  - fold (numel sh2). lia.
  - fold (numel (sh1 ++ sh2)) (numel sh1). rewrite IH. lia.
Qed.

Lemma numel_last lead n : numel (lead ++ [n]) = numel lead * n.
Proof. rewrite numel_app. simpl. lia. Qed.

Lemma lookup_last_dim (lead : list nat) n :
  (lead ++ [n]) !! (length (lead ++ [n]) - 1) = Some n.
Proof.
  rewrite length_app. simpl.
  replace (length lead + 1 - 1) with (length lead + 0) by lia.
  by rewrite lookup_app_r, Nat.add_comm, Nat.add_sub by lia.
Qed.

Lemma insert_last_dim (lead : list nat) n m :
  <[length lead := m]> (lead ++ [n]) = lead ++ [m].
Proof.
  replace (length lead) with (length lead + 0) at 1 by lia.
  by rewrite insert_app_r.
Qed.

Lemma known_product_Some l : known_product (map Some l) = numel l.
Proof. induction l as [|n l IH]; simpl; [done|]. fold (numel l). by rewrite <- IH. Qed.

Lemma known_product_app l1 l2 :
  known_product (l1 ++ l2) = known_product l1 * known_product l2.
Proof.
  induction l1 as [|[n|] l1 IH]; simpl.
  - fold (known_product l2). lia.
  - fold (known_product (l1 ++ l2)) (known_product l1). rewrite IH. lia.
  - fold (known_product (l1 ++ l2)) (known_product l1). by rewrite IH.
Qed.

Lemma count_infer_Some (l : list nat) : count_infer (map Some l) = 0.
Proof. unfold count_infer. induction l as [|n l IH]; simpl; [done|]. exact IH. Qed.

Lemma count_infer_app l1 l2 :
  count_infer (l1 ++ l2) = count_infer l1 + count_infer l2.
Proof. unfold count_infer. by rewrite filter_app, length_app. Qed.

(** [reshape] to the sizes [lead] followed by [-1], of [n] elements. *)
Lemma infer_size_lead_tail (lead : list nat) n :
  0 < numel lead -> n mod numel lead = 0 ->
  infer_size (map Some lead ++ [None]) n = Some (lead ++ [n / numel lead]).
Proof.
  intros Hpos Hmod. unfold infer_size.
  rewrite count_infer_app, count_infer_Some, known_product_app, known_product_Some.
  change (count_infer [None]) with 1. change (known_product [None]) with 1.
  rewrite Nat.mul_1_r. simpl.
  replace (0 <? numel lead) with true by (symmetry; by apply Nat.ltb_lt).
  rewrite Hmod. simpl. f_equal.
  rewrite map_app, map_map. simpl. f_equal.
  induction lead as [|x lead IH']; simpl; [done|]. f_equal.
  clear. induction lead; simpl; [done|]. by f_equal.
Qed.

(** [view(-1, n, d)] *)
Lemma infer_size_head (n d total : nat) :
  0 < n * d -> total mod (n * d) = 0 ->
  infer_size [None; Some n; Some d] total = Some [total / (n * d); n; d].
Proof.
  intros Hpos Hmod. unfold infer_size.
  change (count_infer [None; Some n; Some d]) with 1.
  change (known_product [None; Some n; Some d]) with (n * (d * 1)).
  rewrite Nat.mul_1_r.
  replace (0 <? n * d) with true by (symmetry; by apply Nat.ltb_lt).
  by rewrite Hmod.
Qed.

Lemma shape_tmap (f : A -> A) (t : tensor A) : shape (tmap f t) = shape t.
Proof. reflexivity. Qed.

Lemma wf_tmap (f : A -> A) (t : tensor A) : wf t -> wf (tmap f t).
Proof. unfold wf, tmap. simpl. by rewrite length_map. Qed.

(** The three sections of a split of the last dimension. *)
Lemma split_last3 (t : tensor A) lead a b c :
  shape t = lead ++ [a + b + c] ->
  split_with_sizes uninit t [a; b; c] (rank t - 1)
  = Some [narrow uninit t (length lead) 0 a;
          narrow uninit t (length lead) a b;
          narrow uninit t (length lead) (a + b) c].
Proof.
  intros Hs. unfold split_with_sizes, rank. rewrite Hs, lookup_last_dim.
  simpl. replace (a + (b + (c + 0)) =? a + b + c) with true
    by (symmetry; apply Nat.eqb_eq; lia).
  rewrite length_app. simpl.
  by replace (length lead + 1 - 1) with (length lead) by lia.
Qed.

Lemma view_heads (t : tensor A) lead a n d :
  shape t = lead ++ [a] -> a = n * d -> 0 < a ->
  view t [None; Some n; Some d] = Some (Tensor [numel lead; n; d] (data t)).
Proof.
  intros Hs -> Hpos. unfold view. rewrite Hs, numel_last.
  rewrite infer_size_head by (try done; apply Nat.Div0.mod_mul).
  simpl. by rewrite Nat.div_mul by lia.
Qed.

Lemma shape_narrow_last (t : tensor A) lead n s len :
  shape t = lead ++ [n] ->
  shape (narrow uninit t (length lead) s len) = lead ++ [len].
Proof. intros Hs. unfold narrow. by rewrite shape_build, Hs, insert_last_dim. Qed.

End Facts.
End ShapeFacts.

(** ** The runtime: tensor objects and kernel calls *)

Module RuntimeFacts.
Import Torch Runtime.

Section Facts.
Context {F : Type}.

Lemma read_run (w : World F) r t : heap w !! r = Some t -> read r w = (Ok t, w).
Proof. intros H. unfold read. by rewrite H. Qed.

Lemma write_data_run (w : World F) r t d :
  heap w !! r = Some t ->
  write_data r d w = (Ok tt, set_heap (<[r := Tensor (shape t) d]> (heap w)) w).
Proof. intros H. unfold write_data. by rewrite H. Qed.

Lemma lookup_written (h : list (tensor F)) r r' t t' :
  h !! r' = Some t' -> r <> r' -> <[r := t]> h !! r' = Some t'.
Proof. intros H Hne. by rewrite list_lookup_insert_ne. Qed.

Lemma lookup_written_eq (h : list (tensor F)) r t t0 :
  h !! r = Some t0 -> <[r := t]> h !! r = Some t.
Proof. intros H. apply list_lookup_insert_eq. by eapply lookup_lt_Some. Qed.

Lemma lookup_allocated (h : list (tensor F)) ts r t :
  h !! r = Some t -> (h ++ ts) !! r = Some t.
Proof. intros H. by apply lookup_app_l_Some. Qed.

Variable all_reduce_sum : tensor F -> list F.

(** [dist.all_reduce] on a tensor: one call, and only that tensor
    changes. *)
Lemma all_reduce_run (w : World F) r t :
  heap w !! r = Some t ->
  all_reduce all_reduce_sum (PTensor r) w
  = (Ok tt, {| heap := <[r := Tensor (shape t) (all_reduce_sum t)]> (heap w);
               inv_freq := inv_freq w; context := context w;
               dist_world_size := dist_world_size w;
               calls := calls w ++ [Call_all_reduce r] |}).
Proof.
  intros H. unfold all_reduce.
  erewrite bind_run by reflexivity.
  erewrite bind_run by (by apply read_run).
  erewrite bind_run by reflexivity.
  by erewrite write_data_run by exact H.
Qed.

End Facts.
End RuntimeFacts.

Module KernelFacts.
Import Torch Runtime RuntimeFacts Attention.

Section Facts.
Context {F : Type}.
Variable fused_rotary_emb_kernel :
  tensor F -> tensor F -> tensor Z -> list F -> F -> list F * list F.
Variable fill_kv_cache_kernel :
  tensor F -> tensor F -> tensor F -> tensor F ->
  tensor Z -> tensor Z -> tensor Z -> Z -> tensor Z -> list F * list F.
Variable paged_attention_fwd_kernel :
  tensor F -> tensor F -> tensor F -> tensor F ->
  tensor Z -> tensor Z -> tensor Z -> tensor Z -> Z -> list F.

Lemma fused_rotary_emb_run (w : World F) q k Q K pos invf s :
  heap w !! q = Some Q -> heap w !! k = Some K -> q <> k ->
  fused_rotary_emb fused_rotary_emb_kernel q k pos invf s q k w
  = (Ok (q, k),
     let r := fused_rotary_emb_kernel (unsqueeze0 Q) (unsqueeze0 K) pos invf s in
     {| heap := <[k := Tensor (shape K) (snd r)]>
                  (<[q := Tensor (shape Q) (fst r)]> (heap w));
        inv_freq := inv_freq w; context := context w;
        dist_world_size := dist_world_size w;
        calls := calls w ++ [Call_fused_rotary_emb q k pos invf s q k] |}).
Proof.
  intros Hq Hk Hne. unfold fused_rotary_emb.
  erewrite bind_run by (by apply read_run).
  erewrite bind_run by (by apply read_run).
  erewrite bind_run by reflexivity.
  destruct (fused_rotary_emb_kernel _ _ _ _ _) as [dq dk] eqn:Hker.
  erewrite bind_run by (by apply write_data_run).
  erewrite bind_run
    by (apply write_data_run; cbn; by apply lookup_written).
  reflexivity.
Qed.

Lemma fill_kv_cache_run (w : World F) k v kc vc K V KC VC a b c m bo :
  heap w !! k = Some K -> heap w !! v = Some V ->
  heap w !! kc = Some KC -> heap w !! vc = Some VC ->
  fill_kv_cache fill_kv_cache_kernel k v kc vc a b c m bo w
  = (Ok tt,
     let r := fill_kv_cache_kernel K V KC VC a b c m bo in
     {| heap := <[vc := Tensor (shape VC) (snd r)]>
                  (<[kc := Tensor (shape KC) (fst r)]> (heap w));
        inv_freq := inv_freq w; context := context w;
        dist_world_size := dist_world_size w;
        calls := calls w ++ [Call_fill_kv_cache k v kc vc a b c m bo] |}).
Proof.
  intros Hk Hv Hkc Hvc. unfold fill_kv_cache.
  do 4 (erewrite bind_run by (by apply read_run)).
  erewrite bind_run by reflexivity.
  destruct (fill_kv_cache_kernel _ _ _ _ _ _ _ _ _) as [dkc dvc] eqn:Hker.
  erewrite bind_run by (by apply write_data_run).
  destruct (decide (kc = vc)) as [->|Hne].
  - erewrite write_data_run by (cbn; by eapply lookup_written_eq).
    cbn. replace (shape VC) with (shape KC) by congruence. done.
  - erewrite write_data_run by (cbn; by apply lookup_written).
    reflexivity.
Qed.

Lemma paged_attention_fwd_run (w : World F) q kc vc o Q KC VC O bo a b c m :
  heap w !! q = Some Q -> heap w !! kc = Some KC ->
  heap w !! vc = Some VC -> heap w !! o = Some O ->
  paged_attention_fwd paged_attention_fwd_kernel q kc vc o bo a b c m w
  = (Ok tt,
     {| heap := <[o := Tensor (shape O)
                          (paged_attention_fwd_kernel Q KC VC O bo a b c m)]>
                  (heap w);
        inv_freq := inv_freq w; context := context w;
        dist_world_size := dist_world_size w;
        calls := calls w ++ [Call_paged_attention_fwd q kc vc o bo a b c m] |}).
Proof.
  intros Hq Hkc Hvc Ho. unfold paged_attention_fwd.
  do 4 (erewrite bind_run by (by apply read_run)).
  erewrite bind_run by reflexivity.
  by erewrite write_data_run by exact Ho.
Qed.

End Facts.
End KernelFacts.

(** ** The attention forward, step by step *)

Module AttentionFacts.
Import Torch TorchFacts ShapeFacts ExpertGLUFacts Runtime RuntimeFacts KernelFacts Attention.

Lemma lookup_fresh0 {F} (h : list (tensor F)) a b c :
  (h ++ [a; b; c]) !! length h = Some a.
Proof. by rewrite lookup_app_r, Nat.sub_diag by lia. Qed.

Lemma lookup_fresh1 {F} (h : list (tensor F)) a b c :
  (h ++ [a; b; c]) !! (length h + 1) = Some b.
Proof.
  rewrite lookup_app_r by lia.
  by replace (length h + 1 - length h) with 1 by lia.
Qed.

Lemma lookup_fresh2 {F} (h : list (tensor F)) a b c :
  (h ++ [a; b; c]) !! (length h + 2) = Some c.
Proof.
  rewrite lookup_app_r by lia.
  by replace (length h + 2 - length h) with 2 by lia.
Qed.

Ltac heap_lookup :=
  lazymatch goal with
  | |- <[?r := _]> _ !! ?r = Some _ => eapply lookup_written_eq; heap_lookup
  | |- <[_ := _]> _ !! _ = Some _ => apply lookup_written; [heap_lookup | lia]
  | |- (?h ++ [_; _; _]) !! length ?h = Some _ => apply lookup_fresh0
  | |- (?h ++ [_; _; _]) !! (length ?h + 1) = Some _ => apply lookup_fresh1
  | |- (?h ++ [_; _; _]) !! (length ?h + 2) = Some _ => apply lookup_fresh2
  | |- (_ ++ _) !! _ = Some _ => apply lookup_allocated; heap_lookup
  | |- _ => eassumption
  end.

Section Facts.
Context {F : Type}.
Variable uninit : F.
Variable fle : F -> F -> bool.
Variable fneg : F -> F.
Variable fone : F.
Variable fdiv : F -> F -> F.
Variable fpow : F -> F -> F.
Variable of_int : nat -> F.
Variable fused_rotary_emb_kernel :
  tensor F -> tensor F -> tensor Z -> list F -> F -> list F * list F.
Variable fill_kv_cache_kernel :
  tensor F -> tensor F -> tensor F -> tensor F ->
  tensor Z -> tensor Z -> tensor Z -> Z -> tensor Z -> list F * list F.
Variable paged_attention_fwd_kernel :
  tensor F -> tensor F -> tensor F -> tensor F ->
  tensor Z -> tensor Z -> tensor Z -> tensor Z -> Z -> list F.
Variable self : Self F.

Lemma shape_clipped x : shape (clipped fle fneg self x) = shape x.
Proof. unfold clipped. by destruct (clip_qkv self). Qed.

Lemma qkv_proj_run (w : World F) nh nkv hd hidden h lead :
  heap w !! hidden = Some h ->
  shape (Wqkv self h) = lead ++ [nh * hd + nkv * hd + nkv * hd] ->
  0 < nh * hd -> 0 < nkv * hd ->
  __qkv_proj uninit fle fneg self nh nkv hd hidden w
  = (Ok (length (heap w), length (heap w) + 1, length (heap w) + 2),
     set_heap
       (heap w ++
        [Tensor [numel lead; nh; hd]
           (data (narrow uninit (clipped fle fneg self (Wqkv self h)) (length lead) 0 (nh * hd)));
         Tensor [numel lead; nkv; hd]
           (data (narrow uninit (clipped fle fneg self (Wqkv self h)) (length lead)
                    (nh * hd) (nkv * hd)));
         Tensor [numel lead; nkv; hd]
           (data (narrow uninit (clipped fle fneg self (Wqkv self h)) (length lead)
                    (nh * hd + nkv * hd) (nkv * hd)))]) w).
Proof.
  intros Hh Hs Hq Hk. unfold __qkv_proj.
  erewrite bind_run by (by apply read_run).
  cbv zeta.
  assert (Hsc : shape (clipped fle fneg self (Wqkv self h))
                = lead ++ [nh * hd + nkv * hd + nkv * hd])
    by (by rewrite shape_clipped).
  erewrite bind_run by (apply lift_opt_run; by apply split_last3).
  cbv beta iota.
  erewrite bind_run
    by (apply lift_opt_run; eapply view_heads;
        [by eapply shape_narrow_last|done|done]).
  erewrite bind_run
    by (apply lift_opt_run; eapply view_heads;
        [by eapply shape_narrow_last|done|done]).
  erewrite bind_run
    by (apply lift_opt_run; eapply view_heads;
        [by eapply shape_narrow_last|done|done]).
  erewrite bind_run by reflexivity.
  erewrite bind_run by reflexivity.
  erewrite bind_run by reflexivity.
  unfold ret, alloc, set_heap.
  cbn [heap inv_freq context dist_world_size calls].
  rewrite !length_app. cbn [length]. rewrite <- !app_assoc.
  cbn [app].
  by replace (length (heap w) + 1 + 1) with (length (heap w) + 2) by lia.
Qed.

Lemma view_lead_tail (t : tensor F) lead nh hd :
  shape t = [numel lead; nh; hd] -> 0 < numel lead ->
  view t (map Some lead ++ [None]) = Some (Tensor (lead ++ [nh * hd]) (data t)).
Proof.
  intros Hs Hpos. unfold view. rewrite Hs.
  change (numel [numel lead; nh; hd]) with (numel lead * (nh * (hd * 1))).
  rewrite Nat.mul_1_r.
  rewrite infer_size_lead_tail
    by (try done; rewrite Nat.mul_comm; apply Nat.Div0.mod_mul).
  simpl. rewrite (Nat.mul_comm (numel lead)), Nat.div_mul by lia. done.
Qed.

(** The inverse-frequency table a call uses: the cached one, or the one
    computed from the configuration when none is cached. *)
Lemma rotary_emb_fn_run (w : World F) ctx q k v Q K :
  heap w !! q = Some Q -> heap w !! k = Some K -> q <> k ->
  __rotary_emb_fn fone fdiv fpow of_int fused_rotary_emb_kernel self ctx q k v w
  = (Ok (q, k, v),
     let t := default (compute_inv_freq fone fdiv fpow of_int
                         (rotary_base self) (rotary_dim self)) (inv_freq w) in
     let r := fused_rotary_emb_kernel (unsqueeze0 Q) (unsqueeze0 K)
                (unsqueeze0 (position_ids_1d ctx)) t fone in
     {| heap := <[k := Tensor (shape K) (snd r)]>
                  (<[q := Tensor (shape Q) (fst r)]> (heap w));
        inv_freq := Some t; context := context w;
        dist_world_size := dist_world_size w;
        calls := calls w ++ [Call_fused_rotary_emb q k
                               (unsqueeze0 (position_ids_1d ctx)) t fone q k] |}).
Proof.
  intros Hq Hk Hne. unfold __rotary_emb_fn.
  erewrite bind_run by reflexivity.
  destruct (inv_freq w) as [t|] eqn:Ht.
  - erewrite bind_run by reflexivity.
    erewrite bind_run by (by apply fused_rotary_emb_run).
    cbn. by rewrite Ht.
  - erewrite bind_run by reflexivity.
    erewrite bind_run by (by apply fused_rotary_emb_run).
    reflexivity.
Qed.

(** One forward pass on a well-shaped input: the result and the world it
    leaves, in full. *)
Lemma forward_impl_run (w : World F) hidden pkv ws h kc vc KC0 VC0 rest :
  0 < ws ->
  heap w !! hidden = Some h ->
  let nh := num_heads self / ws in
  let nkv := num_key_value_heads self / ws in
  let hd := head_dim self in
  let lead := removelast (shape h) in
  shape (Wqkv self h) = lead ++ [nh * hd + nkv * hd + nkv * hd] ->
  0 < nh * hd -> 0 < nkv * hd -> 0 < numel lead ->
  pkv = PTuple (PTensor kc :: PTensor vc :: rest) ->
  heap w !! kc = Some KC0 -> heap w !! vc = Some VC0 ->
  kc <> vc -> hidden <> kc -> hidden <> vc ->
  let ctx := context w in
  let n := length (heap w) in
  let y := clipped fle fneg self (Wqkv self h) in
  let Q0 := Tensor [numel lead; nh; hd]
              (data (narrow uninit y (length lead) 0 (nh * hd))) in
  let K0 := Tensor [numel lead; nkv; hd]
              (data (narrow uninit y (length lead) (nh * hd) (nkv * hd))) in
  let V0 := Tensor [numel lead; nkv; hd]
              (data (narrow uninit y (length lead) (nh * hd + nkv * hd)
                       (nkv * hd))) in
  let t := default (compute_inv_freq fone fdiv fpow of_int
                      (rotary_base self) (rotary_dim self)) (inv_freq w) in
  let rot := fused_rotary_emb_kernel (unsqueeze0 Q0) (unsqueeze0 K0)
               (unsqueeze0 (position_ids_1d ctx)) t fone in
  let Q1 := Tensor (shape Q0) (fst rot) in
  let K1 := Tensor (shape K0) (snd rot) in
  let fil := fill_kv_cache_kernel K1 V0 KC0 VC0 (q_start_loc ctx)
               (q_seq_length ctx) (kv_seq_length ctx) (max_q_seq_length ctx)
               (block_offsets ctx) in
  let KC1 := Tensor (shape KC0) (fst fil) in
  let VC1 := Tensor (shape VC0) (snd fil) in
  let Q2 := Tensor (shape Q0)
              (paged_attention_fwd_kernel Q1 KC1 VC1 Q1 (block_offsets ctx)
                 (q_start_loc ctx) (q_seq_length ctx) (kv_seq_length ctx)
                 (max_q_seq_length ctx)) in
  let out := out_proj self (Tensor (lead ++ [nh * hd]) (data Q2)) in
  _contiguous_batching_forward_impl uninit fle fneg fone fdiv fpow of_int
    fused_rotary_emb_kernel fill_kv_cache_kernel paged_attention_fwd_kernel
    self hidden pkv ws w
  = (Ok (PTuple [PTensor (n + 3); PNone; pkv]),
     {| heap :=
          <[n := Q2]>
            (<[vc := VC1]>
               (<[kc := KC1]>
                  (<[n + 1 := K1]> (<[n := Q1]> (heap w ++ [Q0; K0; V0])))))
          ++ [out];
        inv_freq := Some t;
        context := ctx;
        dist_world_size := dist_world_size w;
        calls :=
          calls w ++
          [Call_fused_rotary_emb n (n + 1) (unsqueeze0 (position_ids_1d ctx))
             t fone n (n + 1);
           Call_fill_kv_cache (n + 1) (n + 2) kc vc (q_start_loc ctx)
             (q_seq_length ctx) (kv_seq_length ctx) (max_q_seq_length ctx)
             (block_offsets ctx);
           Call_paged_attention_fwd n kc vc n (block_offsets ctx)
             (q_start_loc ctx) (q_seq_length ctx) (kv_seq_length ctx)
             (max_q_seq_length ctx)] |}).
Proof.
  intros Hws Hh nh nkv hd lead Hs Ha Hb Hlead -> Hkc Hvc Hne Hne1 Hne2.
  intros ctx n y Q0 K0 V0 t rot Q1 K1 fil KC1 VC1 Q2 out.
  pose proof (lookup_lt_Some _ _ _ Hkc) as Hkcn.
  pose proof (lookup_lt_Some _ _ _ Hvc) as Hvcn.
  pose proof (lookup_lt_Some _ _ _ Hh) as Hhn.
  subst n.
  unfold _contiguous_batching_forward_impl.
  erewrite bind_run by reflexivity.
  erewrite bind_run by (by apply floordiv_run).
  erewrite bind_run by (by apply floordiv_run).
  fold nh nkv hd ctx.
  erewrite bind_run by (by eapply qkv_proj_run).
  fold y Q0 K0 V0. cbv beta iota.
  erewrite bind_run
    by (eapply rotary_emb_fn_run; cbn [heap set_heap]; [heap_lookup..|lia]).
  cbv beta iota zeta. cbn [heap set_heap inv_freq context dist_world_size calls].
  fold ctx t rot. fold Q1 K1.
  erewrite bind_run by reflexivity.
  erewrite bind_run by reflexivity.
  erewrite bind_run
    by (eapply fill_kv_cache_run; cbn [heap]; heap_lookup).
  cbv zeta. cbn [heap set_heap inv_freq context dist_world_size calls].
  fold fil. fold KC1 VC1.
  erewrite bind_run by reflexivity.
  erewrite bind_run by reflexivity.
  erewrite bind_run
    by (eapply paged_attention_fwd_run; cbn [heap]; heap_lookup).
  cbn [heap set_heap inv_freq context dist_world_size calls].
  fold Q2.
  erewrite bind_run by (apply read_run; cbn [heap]; heap_lookup).
  erewrite bind_run by (apply read_run; cbn [heap]; heap_lookup).
  erewrite bind_run
    by (apply lift_opt_run; by apply view_lead_tail).
  erewrite bind_run by reflexivity.
  unfold ret, set_heap.
  cbn [heap set_heap inv_freq context dist_world_size calls].
  rewrite !length_insert, length_app. cbn [length].
  rewrite <- !app_assoc. cbn [app]. reflexivity.
Qed.

End Facts.
End AttentionFacts.

(** ** Clamping and splitting *)

Module ClampFacts.
Import Torch TorchFacts TorchExtFacts ShapeFacts Attention.

Section Facts.
Context {F : Type}.
Variable uninit : F.
Variable fle : F -> F -> bool.

(** An entry that is NaN passes the clamp as it is. *)
Lemma clamp_elt_nan lo hi x :
  fle lo lo = true -> fle hi hi = true -> fle x x = false ->
  clamp_elt fle lo hi x = x.
Proof.
  intros Hlo Hhi Hx. unfold clamp_elt, is_nan. by rewrite Hlo, Hhi, Hx.
Qed.

(** An entry that is a number ends between the bounds, when these are
    numbers in order; [<=] need only be total on numbers. *)
Lemma clamp_elt_bounds lo hi x :
  (forall a b, fle a a = true -> fle b b = true ->
               fle a b = true \/ fle b a = true) ->
  fle lo lo = true -> fle hi hi = true -> fle lo hi = true ->
  fle x x = true ->
  fle lo (clamp_elt fle lo hi x) = true /\ fle (clamp_elt fle lo hi x) hi = true.
Proof.
  intros Htot Hlo Hhi Hlh Hx. unfold clamp_elt, is_nan, fmin, fmax, flt.
  rewrite Hlo, Hhi, Hx. cbn [negb].
  destruct (fle x lo) eqn:Hxl, (fle lo x) eqn:Hlx; cbn [andb negb].
  - destruct (fle hi x) eqn:Hhx, (fle x hi) eqn:Hxh; cbn [andb negb]; try done.
    destruct (Htot x hi Hx Hhi); congruence.
  - rewrite Hlh. destruct (fle hi lo); cbn [andb negb]; done.
  - destruct (fle hi x) eqn:Hhx, (fle x hi) eqn:Hxh; cbn [andb negb]; try done.
    destruct (Htot x hi Hx Hhi); congruence.
  - destruct (Htot x lo Hx Hlo); congruence.
Qed.

Lemma in_range_shift_last idx lead len W s :
  in_range idx (lead ++ [len]) -> s + len <= W ->
  in_range (alter (fun i => i + s) (length lead) idx) (lead ++ [W]).
Proof.
  intros Hr Hle. unfold in_range in *.
  apply Forall2_app_inv_r in Hr as (idx1 & idx2 & H1 & H2 & ->).
  apply Forall2_cons_inv_r in H2 as (i & tl & Hi & Htl & ->).
  apply Forall2_nil_inv_r in Htl as ->.
  rewrite <- (Forall2_length _ _ _ H1).
  replace (length idx1) with (length idx1 + 0) by lia.
  rewrite alter_app_r. simpl.
  apply Forall2_app; [done|]. repeat constructor. lia.
Qed.

Lemma get_tmap (f : F -> F) (t : tensor F) idx :
  wf t -> in_range idx (shape t) ->
  get uninit (tmap f t) idx = f (get uninit t idx).
Proof.
  intros Hwf Hr. unfold get, tmap. simpl.
  pose proof (ravel_lt _ _ Hr) as Hlt. rewrite <- Hwf in Hlt.
  rewrite (nth_indep _ uninit (f uninit)) by (by rewrite length_map).
  apply map_nth.
Qed.

Lemma tmap_build (f : F -> F) sh (g : list nat -> F) :
  tmap f (build sh g) = build sh (fun idx => f (g idx)).
Proof. unfold tmap, build. simpl. by rewrite map_map. Qed.

Lemma build_ext sh (g1 g2 : list nat -> F) :
  (forall idx, in_range idx sh -> g1 idx = g2 idx) -> build sh g1 = build sh g2.
Proof.
  intros Hg. unfold build. f_equal. apply map_ext_in. intros k Hk.
  apply in_seq in Hk. apply Hg. apply unravel_in_range. lia.
Qed.

(** Clamping and then taking a section of the last dimension is taking
    the section and then clamping. *)
Lemma narrow_tmap (f : F -> F) (t : tensor F) lead W s len :
  shape t = lead ++ [W] -> wf t -> s + len <= W ->
  narrow uninit (tmap f t) (length lead) s len
  = tmap f (narrow uninit t (length lead) s len).
Proof.
  intros Hs Hwf Hle. unfold narrow. rewrite tmap_build, shape_tmap.
  apply build_ext. intros idx Hidx.
  apply get_tmap; [done|].
  rewrite Hs in *. rewrite insert_last_dim in Hidx.
  by eapply in_range_shift_last.
Qed.

End Facts.
End ClampFacts.

(** ** The attention forward: claims *)

Module AttentionClaims.
Import Torch TorchFacts ShapeFacts Runtime RuntimeFacts KernelFacts.
Import Attention AttentionFacts ClampFacts.

Section Claims.
Context {F : Type}.
Variable uninit : F.
Variable fle : F -> F -> bool.
Variable fneg : F -> F.
Variable fone : F.
Variable fdiv : F -> F -> F.
Variable fpow : F -> F -> F.
Variable of_int : nat -> F.
Variable fused_rotary_emb_kernel :
  tensor F -> tensor F -> tensor Z -> list F -> F -> list F * list F.
Variable fill_kv_cache_kernel :
  tensor F -> tensor F -> tensor F -> tensor F ->
  tensor Z -> tensor Z -> tensor Z -> Z -> tensor Z -> list F * list F.
Variable paged_attention_fwd_kernel :
  tensor F -> tensor F -> tensor F -> tensor F ->
  tensor Z -> tensor Z -> tensor Z -> tensor Z -> Z -> list F.
Variable self : Self F.

Local Abbreviation forward_ :=
  (forward uninit fle fneg fone fdiv fpow of_int fused_rotary_emb_kernel
     fill_kv_cache_kernel paged_attention_fwd_kernel self).
Local Abbreviation table_ :=
  (compute_inv_freq fone fdiv fpow of_int (rotary_base self) (rotary_dim self)).

(** The public [forward] on a well-shaped call, in full. *)
Lemma forward_run (w : World F) hidden position_ids attention_mask pkv
    output_attentions use_cache cache_position kwargs h kc vc :
  ready self w hidden pkv h kc vc ->
  exists KC0 VC0,
    heap w !! kc = Some KC0 /\ heap w !! vc = Some VC0 /\
    let ws := world_size_of w in
    let nh := num_heads self / ws in
    let nkv := num_key_value_heads self / ws in
    let hd := head_dim self in
    let lead := removelast (shape h) in
    let ctx := context w in
    let n := length (heap w) in
    let y := clipped fle fneg self (Wqkv self h) in
    let Q0 := heads_of uninit y lead 0 (nh * hd) nh hd in
    let K0 := heads_of uninit y lead (nh * hd) (nkv * hd) nkv hd in
    let V0 := heads_of uninit y lead (nh * hd + nkv * hd) (nkv * hd) nkv hd in
    let t := default table_ (inv_freq w) in
    let rot := fused_rotary_emb_kernel (unsqueeze0 Q0) (unsqueeze0 K0)
                 (unsqueeze0 (position_ids_1d ctx)) t fone in
    let Q1 := Tensor (shape Q0) (fst rot) in
    let K1 := Tensor (shape K0) (snd rot) in
    let fil := fill_kv_cache_kernel K1 V0 KC0 VC0 (q_start_loc ctx)
                 (q_seq_length ctx) (kv_seq_length ctx) (max_q_seq_length ctx)
                 (block_offsets ctx) in
    let KC1 := Tensor (shape KC0) (fst fil) in
    let VC1 := Tensor (shape VC0) (snd fil) in
    let Q2 := Tensor (shape Q0)
                (paged_attention_fwd_kernel Q1 KC1 VC1 Q1 (block_offsets ctx)
                   (q_start_loc ctx) (q_seq_length ctx) (kv_seq_length ctx)
                   (max_q_seq_length ctx)) in
    let out := out_proj self (Tensor (lead ++ [nh * hd]) (data Q2)) in
    forward_ hidden position_ids attention_mask pkv output_attentions
      use_cache cache_position kwargs w
    = (Ok (PTuple [PTensor (n + 3); PNone; pkv]),
       {| heap :=
            <[n := Q2]>
              (<[vc := VC1]>
                 (<[kc := KC1]>
                    (<[n + 1 := K1]> (<[n := Q1]> (heap w ++ [Q0; K0; V0])))))
            ++ [out];
          inv_freq := Some t;
          context := ctx;
          dist_world_size := dist_world_size w;
          calls :=
            calls w ++
            [Call_fused_rotary_emb n (n + 1) (unsqueeze0 (position_ids_1d ctx))
               t fone n (n + 1);
             Call_fill_kv_cache (n + 1) (n + 2) kc vc (q_start_loc ctx)
               (q_seq_length ctx) (kv_seq_length ctx) (max_q_seq_length ctx)
               (block_offsets ctx);
             Call_paged_attention_fwd n kc vc n (block_offsets ctx)
               (q_start_loc ctx) (q_seq_length ctx) (kv_seq_length ctx)
               (max_q_seq_length ctx)] |}).
Proof.
  intros (Hws & Hh & Hs & Ha & Hb & Hl & [rest Hp] & [KC0 Hkc] & [VC0 Hvc]
          & Hne & Hn1 & Hn2).
  exists KC0, VC0. split; [done|]. split; [done|].
  cbv zeta. unfold forward.
  erewrite bind_run by reflexivity.
  replace (match dist_world_size w with Some n => n | None => 1 end)
    with (world_size_of w) by (unfold world_size_of; by destruct (dist_world_size w)).
  by apply (forward_impl_run uninit fle fneg fone fdiv fpow of_int
              fused_rotary_emb_kernel fill_kv_cache_kernel
              paged_attention_fwd_kernel self w hidden pkv (world_size_of w)
              h kc vc KC0 VC0 rest).
Qed.

Lemma arange2_lookup dim k : 2 * k < dim -> arange2 dim !! k = Some (2 * k).
Proof.
  intros Hk. unfold arange2.
  assert (k < (dim + 1) / 2).
  { pose proof (Nat.div_mod_eq (dim + 1) 2).
    pose proof (Nat.mod_upper_bound (dim + 1) 2). lia. }
  by rewrite list_lookup_fmap, lookup_seq_lt.
Qed.

(** Where the tensors are after a forward pass. *)
Lemma final_heap (hp : list (tensor F)) kc vc Q0 K0 V0 Q1 K1 KC1 VC1 Q2 out :
  kc < length hp -> vc < length hp -> kc <> vc ->
  let n := length hp in
  let hf := <[n := Q2]>
              (<[vc := VC1]>
                 (<[kc := KC1]>
                    (<[n + 1 := K1]> (<[n := Q1]> (hp ++ [Q0; K0; V0])))))
            ++ [out] in
  hf !! n = Some Q2 /\ hf !! (n + 1) = Some K1 /\ hf !! (n + 2) = Some V0
  /\ hf !! kc = Some KC1 /\ hf !! vc = Some VC1 /\ hf !! (n + 3) = Some out.
Proof.
  intros Hkc Hvc Hne n hf. subst n hf.
  assert (Hlen : length (hp ++ [Q0; K0; V0]) = length hp + 3)
    by (rewrite length_app; simpl; lia).
  repeat split.
  - apply lookup_allocated, list_lookup_insert_eq.
    rewrite !length_insert. lia.
  - apply lookup_allocated.
    rewrite !list_lookup_insert_ne by lia.
    apply list_lookup_insert_eq. rewrite !length_insert. lia.
  - apply lookup_allocated.
    rewrite !list_lookup_insert_ne by lia. apply lookup_fresh2.
  - apply lookup_allocated.
    rewrite !list_lookup_insert_ne by lia.
    apply list_lookup_insert_eq. rewrite !length_insert. lia.
  - apply lookup_allocated.
    rewrite list_lookup_insert_ne by lia.
    apply list_lookup_insert_eq. rewrite !length_insert. lia.
  - rewrite lookup_app_r by (rewrite !length_insert; lia).
    rewrite !length_insert, Hlen. by rewrite Nat.sub_diag.
Qed.

(** C4.  On a well-shaped call the kernels are called in this order: the
    rotary embedding writes the query and the key in place, the cache
    fill gets that key and the value with the caches of [past_key_value]
    and the offsets of the context, and paged attention then reads the
    query and the filled caches and writes its output into the query
    tensor.  The projected output is [out_proj] of the query tensor seen
    with the leading sizes of the input and the local hidden size, and
    the third result is [past_key_value] as passed. *)
Theorem forward_steps_in_order (w : World F) hidden position_ids
    attention_mask pkv output_attentions use_cache cache_position kwargs
    h kc vc :
  ready self w hidden pkv h kc vc ->
  exists KC0 VC0 T w',
    heap w !! kc = Some KC0 /\ heap w !! vc = Some VC0 /\
    let ws := world_size_of w in
    let nh := num_heads self / ws in
    let nkv := num_key_value_heads self / ws in
    let hd := head_dim self in
    let lead := removelast (shape h) in
    let ctx := context w in
    let y := clipped fle fneg self (Wqkv self h) in
    let Q0 := heads_of uninit y lead 0 (nh * hd) nh hd in
    let K0 := heads_of uninit y lead (nh * hd) (nkv * hd) nkv hd in
    let V0 := heads_of uninit y lead (nh * hd + nkv * hd) (nkv * hd) nkv hd in
    let rot := fused_rotary_emb_kernel (unsqueeze0 Q0) (unsqueeze0 K0)
                 (unsqueeze0 (position_ids_1d ctx)) T fone in
    let Q1 := Tensor [numel lead; nh; hd] (fst rot) in
    let K1 := Tensor [numel lead; nkv; hd] (snd rot) in
    let fil := fill_kv_cache_kernel K1 V0 KC0 VC0 (q_start_loc ctx)
                 (q_seq_length ctx) (kv_seq_length ctx) (max_q_seq_length ctx)
                 (block_offsets ctx) in
    let KC1 := Tensor (shape KC0) (fst fil) in
    let VC1 := Tensor (shape VC0) (snd fil) in
    let Q2 := Tensor [numel lead; nh; hd]
                (paged_attention_fwd_kernel Q1 KC1 VC1 Q1 (block_offsets ctx)
                   (q_start_loc ctx) (q_seq_length ctx) (kv_seq_length ctx)
                   (max_q_seq_length ctx)) in
    let q := length (heap w) in
    let k := q + 1 in
    let v := q + 2 in
    let out := q + 3 in
    forward_ hidden position_ids attention_mask pkv output_attentions
      use_cache cache_position kwargs w
    = (Ok (PTuple [PTensor out; PNone; pkv]), w')
    /\ calls w'
       = calls w ++
         [Call_fused_rotary_emb q k (unsqueeze0 (position_ids_1d ctx)) T fone q k;
          Call_fill_kv_cache k v kc vc (q_start_loc ctx) (q_seq_length ctx)
            (kv_seq_length ctx) (max_q_seq_length ctx) (block_offsets ctx);
          Call_paged_attention_fwd q kc vc q (block_offsets ctx)
            (q_start_loc ctx) (q_seq_length ctx) (kv_seq_length ctx)
            (max_q_seq_length ctx)]
    /\ heap w' !! k = Some K1 /\ heap w' !! v = Some V0
    /\ heap w' !! kc = Some KC1 /\ heap w' !! vc = Some VC1
    /\ heap w' !! q = Some Q2
    /\ heap w' !! out
       = Some (out_proj self (Tensor (lead ++ [q_width self ws]) (data Q2))).
Proof.
  intros Hready.
  destruct (forward_run w hidden position_ids attention_mask pkv
              output_attentions use_cache cache_position kwargs h kc vc Hready)
    as (KC0 & VC0 & Hkc & Hvc & Hrun).
  cbv zeta in Hrun.
  destruct Hready as (_ & _ & _ & _ & _ & _ & _ & _ & _ & Hne & _).
  exists KC0, VC0. eexists _, _.
  split; [done|]. split; [done|]. cbv zeta.
  split; [exact Hrun|]. cbn [calls heap].
  split; [reflexivity|].
  pose proof (lookup_lt_Some _ _ _ Hkc) as Hkcn.
  pose proof (lookup_lt_Some _ _ _ Hvc) as Hvcn.
  split; [by eapply final_heap|]. split; [by eapply final_heap|].
  split; [by eapply final_heap|]. split; [by eapply final_heap|].
  split; [by eapply final_heap|]. by eapply final_heap.
Qed.

(** C7, as the code has it.  On a well-shaped call of [forward] the
    projection is clamped entry by entry and split into the tensors the
    kernels then work on: the rotary kernel gets the query and the key,
    the cache fill the key it returns and the value.  The sections have
    widths [(num_heads // world_size) * head_dim] and twice
    [(num_key_value_heads // world_size) * head_dim], with the world size
    of the process group, and each head keeps the full [head_dim].  With
    a bound [c] that is a number and [-c <= c], an entry that is a number
    ends between [-c] and [c] and an entry that is NaN stays as it is;
    without a bound the entries are those of the projection.  The query
    heads and the key-value heads are in the unsharded ratio when the
    world size divides both head counts. *)
Theorem qkv_clamped_then_split (w : World F) hidden position_ids
    attention_mask pkv output_attentions use_cache cache_position kwargs
    h kc vc :
  ready self w hidden pkv h kc vc ->
  wf (Wqkv self h) ->
  let ws := world_size_of w in
  let x := Wqkv self h in
  let lead := removelast (shape h) in
  let nh := num_heads self / ws in
  let nkv := num_key_value_heads self / ws in
  let hd := head_dim self in
  let d := length lead in
  let a := nh * hd in
  let b := nkv * hd in
  let n := length (heap w) in
  let ctx := context w in
  let cl := match clip_qkv self with
            | Some c => clamp_elt fle (fneg c) c
            | None => fun e => e
            end in
  exists Q K V KC0 VC0 T w',
    shape Q = [numel lead; nh; hd]
    /\ shape K = [numel lead; nkv; hd]
    /\ shape V = [numel lead; nkv; hd]
    /\ data Q = map cl (data (narrow uninit x d 0 a))
    /\ data K = map cl (data (narrow uninit x d a b))
    /\ data V = map cl (data (narrow uninit x d (a + b) b))
    /\ heap w !! kc = Some KC0 /\ heap w !! vc = Some VC0
    /\ (let rot := fused_rotary_emb_kernel (unsqueeze0 Q) (unsqueeze0 K)
                     (unsqueeze0 (position_ids_1d ctx)) T fone in
        let Q1 := Tensor (shape Q) (fst rot) in
        let K1 := Tensor (shape K) (snd rot) in
        let fil := fill_kv_cache_kernel K1 V KC0 VC0 (q_start_loc ctx)
                     (q_seq_length ctx) (kv_seq_length ctx)
                     (max_q_seq_length ctx) (block_offsets ctx) in
        let KC1 := Tensor (shape KC0) (fst fil) in
        let VC1 := Tensor (shape VC0) (snd fil) in
        let Q2 := Tensor (shape Q)
                    (paged_attention_fwd_kernel Q1 KC1 VC1 Q1
                       (block_offsets ctx) (q_start_loc ctx)
                       (q_seq_length ctx) (kv_seq_length ctx)
                       (max_q_seq_length ctx)) in
        forward_ hidden position_ids attention_mask pkv output_attentions
          use_cache cache_position kwargs w
        = (Ok (PTuple [PTensor (n + 3); PNone; pkv]), w')
        /\ heap w' !! n = Some Q2 /\ heap w' !! (n + 1) = Some K1
        /\ heap w' !! (n + 2) = Some V
        /\ heap w' !! kc = Some KC1 /\ heap w' !! vc = Some VC1)
    /\ (forall c, clip_qkv self = Some c ->
          fle (fneg c) (fneg c) = true -> fle c c = true ->
          fle (fneg c) c = true ->
          (forall u v, fle u u = true -> fle v v = true ->
                       fle u v = true \/ fle v u = true) ->
          Forall2 (fun e e0 =>
                     if fle e0 e0
                     then fle (fneg c) e = true /\ fle e c = true
                     else e = e0)
            (data Q ++ data K ++ data V)
            (data (narrow uninit x d 0 a) ++ data (narrow uninit x d a b)
             ++ data (narrow uninit x d (a + b) b)))
    /\ (num_heads self mod ws = 0 -> num_key_value_heads self mod ws = 0 ->
          head_ratio_preserved self Q K).
Proof.
  intros Hready Hwf ws x lead nh nkv hd d a b n ctx cl.
  destruct (forward_run w hidden position_ids attention_mask pkv
              output_attentions use_cache cache_position kwargs h kc vc Hready)
    as (KC0 & VC0 & Hkc & Hvc & Hrun).
  cbv zeta in Hrun. fold ws lead nh nkv hd ctx n in Hrun. fold a b in Hrun.
  destruct Hready as (_ & _ & Hs & _ & _ & _ & _ & _ & _ & Hne & _).
  unfold q_width, kv_width in Hs. fold ws nh nkv hd lead a b in Hs.
  pose proof (lookup_lt_Some _ _ _ Hkc) as Hkcn.
  pose proof (lookup_lt_Some _ _ _ Hvc) as Hvcn.
  assert (Hsec : forall s len, s + len <= a + b + b ->
            data (narrow uninit (clipped fle fneg self x) d s len)
            = map cl (data (narrow uninit x d s len))).
  { intros s len Hle. unfold clipped, cl. destruct (clip_qkv self) as [c|].
    - unfold clamp. subst d.
      by rewrite (narrow_tmap uninit _ x lead (a + b + b)).
    - by rewrite map_id. }
  exists (heads_of uninit (clipped fle fneg self x) lead 0 a nh hd),
    (heads_of uninit (clipped fle fneg self x) lead a b nkv hd),
    (heads_of uninit (clipped fle fneg self x) lead (a + b) b nkv hd),
    KC0, VC0.
  eexists _, _.
  split; [done|]. split; [done|]. split; [done|].
  unfold heads_of at 1 2 3. cbn [data]. fold d.
  split; [apply Hsec; lia|]. split; [apply Hsec; lia|].
  split; [apply Hsec; lia|].
  split; [done|]. split; [done|]. split; [|split].
  - cbv zeta. split; [exact Hrun|]. cbn [heap]. fold n.
    split; [by eapply final_heap|]. split; [by eapply final_heap|].
    split; [by eapply final_heap|]. split; by eapply final_heap.
  - intros c Hc Hlo Hhi Hlh Htot. unfold heads_of. cbn [data]. fold d.
    rewrite !Hsec by lia. subst cl. rewrite Hc.
    repeat apply Forall2_app; apply Forall2_fmap_l, Forall_Forall2_diag,
      Forall_forall; intros e _; unfold compose; cbv beta;
      destruct (fle e e) eqn:He;
      (by apply clamp_elt_bounds) || (by apply clamp_elt_nan).
  - intros H1 H2. exists (numel lead), nh, nkv, hd.
    split; [done|]. split; [done|]. subst nh nkv.
    apply Nat.Div0.div_exact in H1, H2.
    remember (num_heads self / ws) as p eqn:Hp.
    remember (num_key_value_heads self / ws) as q eqn:Hq.
    rewrite H1, H2. nia.
Qed.

End Claims.

Section Cache.
Context {F : Type}.
Variable uninit : F.
Variable fle : F -> F -> bool.
Variable fneg : F -> F.
Variable fone : F.
Variable fdiv : F -> F -> F.
Variable fpow : F -> F -> F.
Variable of_int : nat -> F.
Variable fused_rotary_emb_kernel :
  tensor F -> tensor F -> tensor Z -> list F -> F -> list F * list F.
Variable fill_kv_cache_kernel :
  tensor F -> tensor F -> tensor F -> tensor F ->
  tensor Z -> tensor Z -> tensor Z -> Z -> tensor Z -> list F * list F.
Variable paged_attention_fwd_kernel :
  tensor F -> tensor F -> tensor F -> tensor F ->
  tensor Z -> tensor Z -> tensor Z -> tensor Z -> Z -> list F.

Local Abbreviation forward_of self :=
  (forward uninit fle fneg fone fdiv fpow of_int fused_rotary_emb_kernel
     fill_kv_cache_kernel paged_attention_fwd_kernel self).

(** C3.  On a well-shaped call the inverse-frequency table the rotary
    kernel gets is the cached one when there is one, and else the table
    computed from [(base, dim)], whose entry [k] is
    [1 / base ** (2k / dim)] for the even numbers [2k < dim]; that table
    is the cache afterwards, and every later well-shaped call that finds
    it cached hands the same table to the kernel and leaves it cached,
    whatever its position ids and even its configuration.  The kernel is
    given the query and the key only, and the value tensor handed to the
    cache fill is the section of the QKV activations as split. *)
Theorem rotary_table_computed_once (self : Self F) (w : World F) hidden
    position_ids attention_mask pkv output_attentions use_cache
    cache_position kwargs h kc vc :
  ready self w hidden pkv h kc vc ->
  let n := length (heap w) in
  let ws := world_size_of w in
  let ctx := context w in
  let base := rotary_base self in
  let dim := rotary_dim self in
  let table := compute_inv_freq fone fdiv fpow of_int base dim in
  exists res w' T,
    forward_of self hidden position_ids attention_mask pkv output_attentions
      use_cache cache_position kwargs w = (Ok res, w')
    /\ inv_freq w' = Some T
    /\ (inv_freq w = None -> T = table)
    /\ (forall t, inv_freq w = Some t -> T = t)
    /\ length table = (dim + 1) / 2
    /\ (forall k, 2 * k < dim ->
          table !! k
          = Some (fdiv fone (fpow base (fdiv (of_int (2 * k)) (of_int dim)))))
    /\ calls w' !! length (calls w)
       = Some (Call_fused_rotary_emb n (n + 1) (unsqueeze0 (position_ids_1d ctx))
                 T fone n (n + 1))
    /\ calls w' !! (length (calls w) + 1)
       = Some (Call_fill_kv_cache (n + 1) (n + 2) kc vc (q_start_loc ctx)
                 (q_seq_length ctx) (kv_seq_length ctx) (max_q_seq_length ctx)
                 (block_offsets ctx))
    /\ heap w' !! (n + 2)
       = Some (heads_of uninit (clipped fle fneg self (Wqkv self h))
                 (removelast (shape h)) (q_width self ws + kv_width self ws)
                 (kv_width self ws) (num_key_value_heads self / ws)
                 (head_dim self))
    /\ (forall (self2 : Self F) (w2 : World F) hidden2 position_ids2
               attention_mask2 pkv2 output_attentions2 use_cache2
               cache_position2 kwargs2 h2 kc2 vc2,
          inv_freq w2 = Some T ->
          ready self2 w2 hidden2 pkv2 h2 kc2 vc2 ->
          let n2 := length (heap w2) in
          exists res2 w2',
            forward_of self2 hidden2 position_ids2 attention_mask2 pkv2
              output_attentions2 use_cache2 cache_position2 kwargs2 w2
            = (Ok res2, w2')
            /\ inv_freq w2' = Some T
            /\ calls w2' !! length (calls w2)
               = Some (Call_fused_rotary_emb n2 (n2 + 1)
                         (unsqueeze0 (position_ids_1d (context w2)))
                         T fone n2 (n2 + 1))).
Proof.
  intros Hready n ws ctx base dim table.
  destruct (forward_run uninit fle fneg fone fdiv fpow of_int
              fused_rotary_emb_kernel fill_kv_cache_kernel
              paged_attention_fwd_kernel self w hidden position_ids
              attention_mask pkv output_attentions use_cache cache_position
              kwargs h kc vc Hready)
    as (KC0 & VC0 & Hkc & Hvc & Hrun).
  cbv zeta in Hrun.
  destruct Hready as (_ & _ & _ & _ & _ & _ & _ & _ & _ & Hne & _).
  eexists _, _, _. split; [exact Hrun|]. cbn [inv_freq calls heap].
  split; [done|]. split; [by intros ->|]. split; [by intros t ->|].
  split; [unfold table, compute_inv_freq, arange2;
          by rewrite !length_map, length_seq|].
  split.
  { intros k Hk. unfold table, compute_inv_freq.
    by rewrite list_lookup_fmap, arange2_lookup. }
  split; [by rewrite lookup_app_r, Nat.sub_diag by lia|].
  split.
  { rewrite lookup_app_r by lia.
    by replace (length (calls w) + 1 - length (calls w)) with 1 by lia. }
  split; [eapply final_heap; [by eapply lookup_lt_Some..|done]|].
  intros self2 w2 hidden2 position_ids2 attention_mask2 pkv2
    output_attentions2 use_cache2 cache_position2 kwargs2 h2 kc2 vc2
    Hcached Hready2.
  destruct (forward_run uninit fle fneg fone fdiv fpow of_int
              fused_rotary_emb_kernel fill_kv_cache_kernel
              paged_attention_fwd_kernel self2 w2 hidden2 position_ids2
              attention_mask2 pkv2 output_attentions2 use_cache2
              cache_position2 kwargs2 h2 kc2 vc2 Hready2)
    as (KC2 & VC2 & _ & _ & Hrun2).
  cbv zeta in Hrun2. rewrite Hcached in Hrun2. cbn [default] in Hrun2.
  eexists _, _. split; [exact Hrun2|]. cbn [inv_freq calls].
  split; [done|]. by rewrite lookup_app_r, Nat.sub_diag by lia.
Qed.

End Cache.

End AttentionClaims.

(** ** The distribution-output hooks *)

Module HookClaims.
Import Torch Runtime RuntimeFacts.

Section Claims.
Context {F : Type}.
Variable all_reduce_sum : tensor F -> list F.

(** C6.  Whatever a tensor holds, the attention hook issues one
    all-reduce, on [outputs[0]], and the experts hook one, on [outputs];
    the tensor reduced gets the sum in place, every other tensor object is
    as before, and the hooks return [outputs] as given. *)
Theorem hooks_all_reduce_unconditionally (w : World F) r t rest kwargs :
  heap w !! r = Some t ->
  let w' := {| heap := <[r := Tensor (shape t) (all_reduce_sum t)]> (heap w);
               inv_freq := inv_freq w; context := context w;
               dist_world_size := dist_world_size w;
               calls := calls w ++ [Call_all_reduce r] |} in
  Attention._distribute_output_fn all_reduce_sum (PTuple (PTensor r :: rest))
    kwargs w
  = (Ok (PTuple (PTensor r :: rest)), w')
  /\ Experts._distribute_output_fn all_reduce_sum (PTensor r) kwargs w
     = (Ok (PTensor r), w')
  /\ forall r', r' <> r -> heap w' !! r' = heap w !! r'.
Proof.
  intros Hr w'. split; [|split].
  - unfold Attention._distribute_output_fn.
    erewrite bind_run by reflexivity.
    erewrite bind_run by (by apply all_reduce_run).
    reflexivity.
  - unfold Experts._distribute_output_fn.
    erewrite bind_run by (by apply all_reduce_run).
    reflexivity.
  - intros r' Hne. subst w'. cbn [heap]. by rewrite list_lookup_insert_ne.
Qed.

End Claims.
End HookClaims.

(** ** The experts forward *)

Module ExpertsClaims.
Import Torch TorchFacts ExpertGLU ExpertGLUFacts.

Section Claims.
Context {F : Type}.
Variable fused_moe :
  tensor F -> tensor F -> tensor F -> tensor F -> tensor Z -> nat -> bool ->
  tensor F.

Lemma infer_size_head1 q n :
  Torch.infer_size [None; Some q] n
  = if (0 <? q * 1) && (n mod (q * 1) =? 0) then Some [n / (q * 1); q] else None.
Proof. reflexivity. Qed.

Lemma flatten01 (x : tensor F) B S H :
  shape x = [B; S; H] -> flatten x 0 1 = Some (Tensor [B * S; H] (data x)).
Proof.
  intros Hx. unfold flatten, rank. rewrite Hx. simpl. by rewrite Nat.mul_1_r.
Qed.

(** C8, as the code has it.  For an input of shape [(batch, seq, hidden)]
    with [seq >= 1], gate weights of shape [(tokens, k)], a repacked
    [mlp] and a kernel that returns as many rows of [hidden] entries as it
    gets tokens: the kernel is called once, on the [batch * seq] tokens,
    with the two repacked buffers, [topk = k] and renormalisation off, and
    the output is its result seen as [(batch, seq, hidden)]. *)
Theorem experts_forward_restores_shape
    (mlp : Module_ F) (x weights top_weights : tensor F)
    (top_experts : tensor Z) B S H T K gate_up down :
  shape x = [B; S; H] -> 0 < S ->
  shape top_weights = [T; K] ->
  _parameters mlp !! "gate_up_weights" = None ->
  _parameters mlp !! "down_weights" = None ->
  _buffers mlp !! "gate_up_weights" = Some gate_up ->
  _buffers mlp !! "down_weights" = Some down ->
  (forall tokens w1 w2 tw te k rn,
     shape (fused_moe tokens w1 w2 tw te k rn) = shape tokens) ->
  let tokens := Tensor [B * S; H] (data x) in
  let y := fused_moe tokens gate_up down top_weights top_experts K false in
  Experts.forward fused_moe x weights top_weights top_experts mlp
  = (Ok (Tensor [B; S; H] (data y)), mlp).
Proof.
  intros Hx HS Ht Hp1 Hp2 Hb1 Hb2 Hker tokens y.
  unfold Experts.forward.
  erewrite bind_run by (apply lift_opt_run; unfold size; by rewrite Hx).
  erewrite bind_run by (apply lift_opt_run; by apply flatten01).
  erewrite bind_run by (unfold getattr; by rewrite Hp1, Hb1).
  erewrite bind_run by (unfold getattr; by rewrite Hp2, Hb2).
  erewrite bind_run by (apply lift_opt_run; unfold size; by rewrite Ht).
  fold tokens y.
  assert (Hy : shape y = [B * S; H]) by (unfold y; by rewrite Hker).
  erewrite bind_run; [reflexivity|].
  apply lift_opt_run. unfold unflatten. rewrite Hy. cbn [lookup list_lookup].
  cbn [mbind option_bind]. rewrite infer_size_head1, Nat.mul_1_r.
  replace (0 <? S) with true by (symmetry; by apply Nat.ltb_lt).
  rewrite Nat.Div0.mod_mul, Nat.div_mul by lia. reflexivity.
Qed.

End Claims.
End ExpertsClaims.

(** ** The model forward driver *)

Lemma bind_ok_inv {S A B} (c : M S A) (k : A -> M S B) s b s' :
  bind c k s = (Ok b, s') ->
  exists a s1, c s = (Ok a, s1) /\ k a s1 = (Ok b, s').
Proof.
  unfold bind. destruct (c s) as [[a|e] s1]; [eauto|discriminate].
Qed.

Lemma subscript_ok_inv {S} (v : pyval) i (s : S) x s' :
  subscript v i s = (Ok x, s') -> getitem v i = Ok x /\ s' = s.
Proof. unfold subscript. intros H. by injection H as -> ->. Qed.

Module ModelClaims.
Import Model.

Section Claims.
Context {W : Type}.
Variable wte : pyval -> M W pyval.
Variable blocks : list (BlockArgs -> M W pyval).
Variable norm_f : pyval -> M W pyval.

Lemma call_sub_ok_inv (m : M W pyval) ev (w : World W) r w' :
  call_sub m ev w = (Ok r, w') ->
  exists i, m (inner w) = (Ok r, i)
            /\ w' = {| inner := i; trace := trace w ++ [ev r] |}.
Proof.
  unfold call_sub. destruct (m (inner w)) as [[a|e] i]; [|discriminate].
  intros H. injection H as -> <-. eauto.
Qed.

Lemma call_sub_run (m : M W pyval) ev (w : World W) r i :
  m (inner w) = (Ok r, i) ->
  call_sub m ev w = (Ok r, {| inner := i; trace := trace w ++ [ev r] |}).
Proof. intros H. unfold call_sub. by rewrite H. Qed.

(** The loop calls the blocks as [blocks_run] says. *)
Lemma run_blocks_sound position_ids pkv (bs : list (BlockArgs -> M W pyval)) :
  forall idx h (w : World W) h' w',
  run_blocks idx bs h PNone position_ids pkv false false true PNone w
  = (Ok h', w') ->
  exists evs,
    blocks_run position_ids pkv idx bs h (inner w) evs h' (inner w')
    /\ trace w' = trace w ++ evs.
Proof.
  induction bs as [|block bs IH]; intros idx h w h' w' Hrun; simpl in Hrun.
  - injection Hrun as <- <-. exists []. split; [constructor|].
    by rewrite app_nil_r.
  - apply bind_ok_inv in Hrun as (kv & w1 & Hkv & Hrun).
    apply subscript_ok_inv in Hkv as [Hkv ->].
    apply bind_ok_inv in Hrun as (res & w2 & Hcall & Hrun).
    apply call_sub_ok_inv in Hcall as (i1 & Hblock & ->).
    apply bind_ok_inv in Hrun as (h1 & w3 & Hh1 & Hrun).
    apply subscript_ok_inv in Hh1 as [Hh1 ->].
    apply IH in Hrun as (evs & Hevs & Htr). simpl in Hevs, Htr.
    eexists. split.
    + eapply blocks_run_cons; eauto.
    + rewrite Htr, <- app_assoc. reflexivity.
Qed.

(** Conversely, when the calls [blocks_run] lists succeed, so does the
    loop. *)
Lemma run_blocks_complete position_ids pkv idx
    (bs : list (BlockArgs -> M W pyval)) h (i : W) evs h' (i' : W) :
  blocks_run position_ids pkv idx bs h i evs h' i' ->
  forall tr,
    run_blocks idx bs h PNone position_ids pkv false false true PNone
      {| inner := i; trace := tr |}
    = (Ok h', {| inner := i'; trace := tr ++ evs |}).
Proof.
  induction 1 as [idx h i|idx block bs h i kv res i1 h1 evs h' i' Hkv args Hb Hh1 _ IH];
    intros tr; simpl.
  - by rewrite app_nil_r.
  - erewrite bind_run by (unfold subscript; by rewrite Hkv).
    erewrite bind_run by (by apply call_sub_run).
    erewrite bind_run by (unfold subscript; by rewrite Hh1).
    rewrite IH, <- app_assoc. reflexivity.
Qed.

(** C5.  The driver returns a result exactly when the embedding, the
    blocks in index order, each called without attention mask and without
    cache position on the hidden states of the one before, and the final
    norm on the hidden states of the last block all return; the calls are
    made in that order, and the result holds the normalised hidden states
    and the [past_key_values] it was given. *)
Theorem driver_runs_blocks_in_order input_ids position_ids past_key_values
    (w : World W) out w' :
  _continuous_batching_forward wte blocks norm_f input_ids position_ids
    past_key_values w = (Ok out, w')
  <->
  exists embeds i1 evs h i2 normed,
    wte input_ids (inner w) = (Ok embeds, i1)
    /\ blocks_run position_ids past_key_values 0 blocks embeds i1 evs h i2
    /\ norm_f h i2 = (Ok normed, inner w')
    /\ trace w' = trace w ++ Ev_wte input_ids embeds :: evs ++ [Ev_norm_f h normed]
    /\ out = {| last_hidden_state := normed;
                past_key_values := past_key_values;
                all_hidden_states := PNone;
                attentions := PNone |}.
Proof.
  split.
  - intros Hrun. unfold _continuous_batching_forward in Hrun.
    apply bind_ok_inv in Hrun as (embeds & w1 & Hwte & Hrun).
    apply call_sub_ok_inv in Hwte as (i1 & Hwte & ->).
    apply bind_ok_inv in Hrun as (h & w2 & Hblocks & Hrun).
    apply run_blocks_sound in Hblocks as (evs & Hevs & Htr).
    simpl in Hevs, Htr.
    apply bind_ok_inv in Hrun as (normed & w3 & Hnorm & Hrun).
    apply call_sub_ok_inv in Hnorm as (i3 & Hnorm & ->).
    injection Hrun as <- <-. simpl.
    exists embeds, i1, evs, h, (inner w2), normed.
    repeat split; try done.
    rewrite Htr, <- !app_assoc. reflexivity.
  - intros (embeds & i1 & evs & h & i2 & normed & Hwte & Hevs & Hnorm & Htr & ->).
    unfold _continuous_batching_forward.
    erewrite bind_run by (by apply call_sub_run).
    erewrite bind_run by (by apply run_blocks_complete).
    erewrite bind_run by (by apply call_sub_run).
    unfold ret. f_equal. destruct w' as [iw' tw']. simpl in *. subst tw'.
    f_equal. rewrite <- !app_assoc. reflexivity.
Qed.

End Claims.
End ModelClaims.

(** ** Arguments the two public [forward]s never read *)

Module IgnoredArguments.
Import Torch Runtime.

Section Claims.
Context {W F : Type}.
Variable wte : pyval -> M W pyval.
Variable blocks : list (Model.BlockArgs -> M W pyval).
Variable norm_f : pyval -> M W pyval.
Variable uninit : F.
Variable fle : F -> F -> bool.
Variable fneg : F -> F.
Variable fone : F.
Variable fdiv : F -> F -> F.
Variable fpow : F -> F -> F.
Variable of_int : nat -> F.
Variable fused_rotary_emb_kernel :
  tensor F -> tensor F -> tensor Z -> list F -> F -> list F * list F.
Variable fill_kv_cache_kernel :
  tensor F -> tensor F -> tensor F -> tensor F ->
  tensor Z -> tensor Z -> tensor Z -> Z -> tensor Z -> list F * list F.
Variable paged_attention_fwd_kernel :
  tensor F -> tensor F -> tensor F -> tensor F ->
  tensor Z -> tensor Z -> tensor Z -> tensor Z -> Z -> list F.
Variable self : Attention.Self F.

Local Abbreviation attention_forward :=
  (Attention.forward uninit fle fneg fone fdiv fpow of_int
     fused_rotary_emb_kernel fill_kv_cache_kernel paged_attention_fwd_kernel
     self).

(** C10.  The model's [forward] is one computation for all values of
    [attention_mask], [inputs_embeds], [use_cache], [output_attentions],
    [output_hidden_states], [output_router_logits], [return_dict] and
    [cache_position]; the attention block's [forward] is one computation
    for all values of [position_ids], [attention_mask],
    [output_attentions], [use_cache], [cache_position] and the extra
    keyword arguments, and whenever it returns, the second element of its
    result is [None]. *)
Theorem forwards_ignore_unused_arguments :
  (forall input_ids position_ids past_key_values
          attention_mask attention_mask' inputs_embeds inputs_embeds'
          use_cache use_cache' output_attentions output_attentions'
          output_hidden_states output_hidden_states'
          output_router_logits output_router_logits'
          return_dict return_dict' cache_position cache_position',
     Model.forward wte blocks norm_f input_ids attention_mask position_ids
       past_key_values inputs_embeds use_cache output_attentions
       output_hidden_states output_router_logits return_dict cache_position
     = Model.forward wte blocks norm_f input_ids attention_mask' position_ids
         past_key_values inputs_embeds' use_cache' output_attentions'
         output_hidden_states' output_router_logits' return_dict'
         cache_position')
  /\ (forall hidden_states past_key_value
             position_ids position_ids' attention_mask attention_mask'
             output_attentions output_attentions' use_cache use_cache'
             cache_position cache_position' kwargs kwargs',
        attention_forward hidden_states position_ids attention_mask
          past_key_value output_attentions use_cache cache_position kwargs
        = attention_forward hidden_states position_ids' attention_mask'
            past_key_value output_attentions' use_cache' cache_position'
            kwargs')
  /\ (forall hidden_states position_ids attention_mask past_key_value
             output_attentions use_cache cache_position kwargs w res w',
        attention_forward hidden_states position_ids attention_mask
          past_key_value output_attentions use_cache cache_position kwargs w
        = (Ok res, w') ->
        exists attn_output, res = PTuple [attn_output; PNone; past_key_value]).
Proof.
  split; [reflexivity|]. split; [reflexivity|].
  intros hidden_states position_ids attention_mask past_key_value
    output_attentions use_cache cache_position kwargs w res w' H.
  unfold Attention.forward, Attention._contiguous_batching_forward_impl in H.
  repeat first
    [ apply bind_ok_inv in H as (? & ? & _ & H)
    | match type of H with
      | context [match ?x with _ => _ end] => destruct x
      end ].
  injection H as <- _. eauto.
Qed.

End Claims.
End IgnoredArguments.

(** ** The theorems at concrete inputs *)

Module Instances.
Import Torch Runtime.

Lemma load_weights_shards_rows_of_every_expert_witness :
  exists w',
    ExpertGLU._load_weights 0 0 2 Demo.load_world = (Ok tt, w')
    /\ ExpertGLU._parameters (ExpertGLU.self_ w') !! "w1"
       = Some (Tensor [2; 2] [10; 11; 20; 21]).
Proof.
  destruct (LoadClaims.load_weights_shards_rows_of_every_expert 0
              Demo.load_world 0 2 2 2 2 Demo.w (tmap (Nat.add 100) Demo.w)
              (tmap (Nat.add 200) Demo.w))
    as (w' & Hrun & _);
    [reflexivity|lia|lia|by eexists|by eexists|by eexists
    |reflexivity|reflexivity|reflexivity|reflexivity|reflexivity|reflexivity
    |vm_compute; lia|].
  exists w'. split; [exact Hrun|].
  vm_compute in Hrun. injection Hrun as <-. vm_compute. reflexivity.
Defined.

Lemma repack_matches_reference_witness :
  exists m' gate_up down,
    ExpertGLU._update_model_fn 0 Demo.loaded = (Ok tt, m')
    /\ ExpertGLU._buffers m' !! "gate_up_weights" = Some gate_up
    /\ ExpertGLU._buffers m' !! "down_weights" = Some down
    /\ gate_up
       = Reference.reference_gate_up 0 2 Demo.w (tmap (Nat.add 100) Demo.w)
    /\ down = Reference.reference_down 0 2 (tmap (Nat.add 200) Demo.w).
Proof.
  destruct (Repack.repack_matches_reference 0 Demo.loaded 2 2 2 2 2 Demo.w
              (tmap (Nat.add 100) Demo.w) (tmap (Nat.add 200) Demo.w))
    as (m' & gu & dn & Hrun & Hgu & Hdn & Hrg & Hrd & _);
    [reflexivity|lia|reflexivity|reflexivity|reflexivity
    |reflexivity|reflexivity|reflexivity|reflexivity|reflexivity|].
  exists m', gu, dn. repeat split; assumption.
Defined.

Lemma repack_one_time_transition_witness :
  exists m',
    ExpertGLU._update_model_fn 0 Demo.loaded = (Ok tt, m')
    /\ ExpertGLU.getattr "w1" m' = (Raise AttributeError, m')
    /\ ExpertGLU._update_model_fn 0 m' = (Raise AttributeError, m').
Proof.
  destruct (Repack.repack_one_time_transition 0 Demo.loaded 2 2 2 2 2 Demo.w
              (tmap (Nat.add 100) Demo.w) (tmap (Nat.add 200) Demo.w))
    as (m' & Hrun & Hgone & _ & _ & Hagain);
    [reflexivity|lia|reflexivity|reflexivity|reflexivity
    |reflexivity|reflexivity|reflexivity|reflexivity|reflexivity
    |intros name _; reflexivity|].
  exists m'. split; [exact Hrun|]. split; [|exact Hagain].
  apply Hgone. apply list_elem_of_here.
Defined.

Lemma demo_ready :
  Attention.ready Demo.self Demo.world 0 Demo.past_key_value Demo.hidden 1 2.
Proof.
  unfold Attention.ready. cbv zeta.
  split; [vm_compute; lia|]. split; [reflexivity|]. split; [reflexivity|].
  split; [vm_compute; lia|]. split; [vm_compute; lia|].
  split; [vm_compute; lia|]. split; [by exists []|].
  split; [by eexists|]. split; [by eexists|].
  split; [lia|]. split; lia.
Defined.

Lemma rotary_table_computed_once_witness :
  exists res w',
    Attention.forward 0%Z Z.leb Z.opp 1%Z Z.div Z.pow Z.of_nat
      Demo.rotary_kernel Demo.fill_kernel Demo.attention_kernel Demo.self
      0 PNone PNone Demo.past_key_value false false PNone [] Demo.world
    = (Ok res, w')
    /\ inv_freq w'
       = Some [(1 / 10000 ^ (0 / 4))%Z; (1 / 10000 ^ (2 / 4))%Z].
Proof.
  destruct (AttentionClaims.rotary_table_computed_once 0%Z Z.leb Z.opp 1%Z
              Z.div Z.pow Z.of_nat Demo.rotary_kernel Demo.fill_kernel
              Demo.attention_kernel Demo.self Demo.world 0 PNone PNone
              Demo.past_key_value false false PNone [] Demo.hidden 1 2
              demo_ready)
    as (res & w' & T & Hrun & Hinv & Hnone & _).
  exists res, w'. split; [exact Hrun|].
  rewrite Hinv, (Hnone eq_refl). reflexivity.
Defined.

Lemma forward_steps_in_order_witness :
  exists w',
    Attention.forward 0%Z Z.leb Z.opp 1%Z Z.div Z.pow Z.of_nat
      Demo.rotary_kernel Demo.fill_kernel Demo.attention_kernel Demo.self
      0 PNone PNone Demo.past_key_value false false PNone [] Demo.world
    = (Ok (PTuple [PTensor 6; PNone; Demo.past_key_value]), w')
    /\ length (calls w') = 3.
Proof.
  destruct (AttentionClaims.forward_steps_in_order 0%Z Z.leb Z.opp 1%Z
              Z.div Z.pow Z.of_nat Demo.rotary_kernel Demo.fill_kernel
              Demo.attention_kernel Demo.self Demo.world 0 PNone PNone
              Demo.past_key_value false false PNone [] Demo.hidden 1 2
              demo_ready)
    as (KC0 & VC0 & T & w' & _ & _ & Hrun & Hcalls & _).
  exists w'. split; [exact Hrun|]. rewrite Hcalls. reflexivity.
Defined.

Lemma qkv_clamped_then_split_witness :
  exists Q K V w',
    Attention.forward 0%Z Z.leb Z.opp 1%Z Z.div Z.pow Z.of_nat
      Demo.rotary_kernel Demo.fill_kernel Demo.attention_kernel Demo.self
      0 PNone PNone Demo.past_key_value false false PNone [] Demo.world
    = (Ok (PTuple [PTensor 6; PNone; Demo.past_key_value]), w')
    /\ shape Q = [2; 2; 1] /\ shape K = [2; 1; 1] /\ shape V = [2; 1; 1]
    /\ heap w' !! 5 = Some V
    /\ Forall (fun e => (-5 <=? e)%Z = true /\ (e <=? 5)%Z = true)
              (data Q ++ data K ++ data V)
    /\ Attention.head_ratio_preserved Demo.self Q K.
Proof.
  destruct (AttentionClaims.qkv_clamped_then_split 0%Z Z.leb Z.opp 1%Z
              Z.div Z.pow Z.of_nat Demo.rotary_kernel Demo.fill_kernel
              Demo.attention_kernel Demo.self Demo.world 0 PNone PNone
              Demo.past_key_value false false PNone [] Demo.hidden 1 2
              demo_ready)
    as (Q & K & V & KC0 & VC0 & T & w' & HQ & HK & HV & _ & _ & _ & _ & _
        & Hfwd & Hbound & Hratio); [reflexivity|].
  cbv zeta in Hfwd. destruct Hfwd as (Hrun & _ & _ & Hv & _).
  exists Q, K, V, w'. split; [exact Hrun|].
  split; [exact HQ|]. split; [exact HK|]. split; [exact HV|].
  split; [exact Hv|]. split; [|apply Hratio; reflexivity].
  specialize (Hbound 5%Z eq_refl eq_refl eq_refl eq_refl
                (fun u v _ _ => ltac:(lia))).
  eapply Forall2_Forall_l; [exact Hbound|].
  apply Forall_true. intros e0 e He. rewrite Z.leb_refl in He. exact He.
Defined.

(** C7, as stated, fails: the split does not keep the head-count ratio
    unconditionally.  With 5 query heads and 3 key-value heads on two
    ranks the forward returns, and the query it leaves has 2 heads where
    the key has 1. *)
Lemma head_ratio_lost_on_two_ranks :
  exists w' Q K,
    Attention.forward 0%Z Z.leb Z.opp 1%Z Z.div Z.pow Z.of_nat
      Demo.rotary_kernel Demo.fill_kernel Demo.attention_kernel
      DemoExtra.self53
      0 PNone PNone Demo.past_key_value false false PNone [] Demo.world
    = (Ok (PTuple [PTensor 6; PNone; Demo.past_key_value]), w')
    /\ heap w' !! 3 = Some Q /\ heap w' !! 4 = Some K
    /\ shape Q = [2; 2; 1] /\ shape K = [2; 1; 1]
    /\ ~ Attention.head_ratio_preserved DemoExtra.self53 Q K.
Proof.
  eexists _, _, _. split; [vm_compute; reflexivity|].
  split; [vm_compute; reflexivity|]. split; [vm_compute; reflexivity|].
  split; [reflexivity|]. split; [reflexivity|].
  intros (t & nh & nkv & hd & HQ & HK & H).
  cbn in HQ, HK. injection HQ as _ <- _. injection HK as _ <- _.
  cbn in H. lia.
Qed.

Lemma hooks_all_reduce_unconditionally_witness :
  exists w',
    Attention._distribute_output_fn Demo.reduce_kernel
      (PTuple [PTensor 0; PNone; Demo.past_key_value]) [] Demo.world
    = (Ok (PTuple [PTensor 0; PNone; Demo.past_key_value]), w')
    /\ calls w' = [Call_all_reduce 0]
    /\ heap w' !! 0 = Some (Tensor [1; 2; 1] [6%Z; 14%Z]).
Proof.
  destruct (HookClaims.hooks_all_reduce_unconditionally Demo.reduce_kernel
              Demo.world 0 Demo.hidden [PNone; Demo.past_key_value] [])
    as (Hattn & _ & _); [reflexivity|].
  eexists. split; [exact Hattn|]. split; reflexivity.
Defined.

Lemma experts_forward_restores_shape_witness :
  Experts.forward Demo.moe_kernel Demo.x Demo.top_weights Demo.top_weights
    Demo.top_experts Demo.repacked
  = (Ok (Tensor [1; 2; 2] [1; 2; 3; 4]), Demo.repacked).
Proof.
  apply (ExpertsClaims.experts_forward_restores_shape Demo.moe_kernel
           Demo.repacked Demo.x Demo.top_weights Demo.top_weights
           Demo.top_experts 1 2 2 2 1
           (Reference.reference_gate_up 0 2 Demo.w (tmap (Nat.add 100) Demo.w))
           (Reference.reference_down 0 2 (tmap (Nat.add 200) Demo.w)));
    [reflexivity|lia|reflexivity|reflexivity|reflexivity
    |vm_compute; reflexivity|vm_compute; reflexivity|reflexivity].
Defined.

(** C8, as stated, fails: on an input with no token per sequence, of
    shape [(1, 0, 2)], restoring the shape raises, because the batch size
    cannot be inferred from zero tokens. *)
Lemma experts_forward_empty_sequence_raises :
  shape Demo.x_empty = [1; 0; 2]
  /\ Experts.forward Demo.moe_kernel Demo.x_empty Demo.top_weights
       Demo.top_weights Demo.top_experts Demo.repacked
     = (Raise TorchError, Demo.repacked).
Proof. split; [reflexivity|vm_compute; reflexivity]. Qed.

(** The driver on two blocks: embedding, block 0, block 1, norm, in that
    order, each block without attention mask and cache position and with
    its own entry of [past_key_values]. *)
Example driver_two_blocks :
  Model._continuous_batching_forward Demo.wte [Demo.block; Demo.block]
    Demo.norm_f (PTensor 9) (PTensor 8) Demo.past_key_values
    {| Model.inner := 0; Model.trace := [] |}
  = (Ok {| Model.last_hidden_state := PTensor 0;
           Model.past_key_values := Demo.past_key_values;
           Model.all_hidden_states := PNone;
           Model.attentions := PNone |},
     {| Model.inner := 4;
        Model.trace :=
          [Model.Ev_wte (PTensor 9) (PTensor 0);
           Model.Ev_block 0
             {| Model.hidden_states := PTensor 0;
                Model.attention_mask := PNone;
                Model.position_ids := PTensor 8;
                Model.past_key_value := PTuple [PTensor 1; PTensor 2];
                Model.output_attentions := false;
                Model.output_router_logits := false;
                Model.use_cache := true;
                Model.cache_position := PNone |}
             (PTuple [PTensor 0; PNone]);
           Model.Ev_block 1
             {| Model.hidden_states := PTensor 0;
                Model.attention_mask := PNone;
                Model.position_ids := PTensor 8;
                Model.past_key_value := PTuple [PTensor 3; PTensor 4];
                Model.output_attentions := false;
                Model.output_router_logits := false;
                Model.use_cache := true;
                Model.cache_position := PNone |}
             (PTuple [PTensor 0; PNone]);
           Model.Ev_norm_f (PTensor 0) (PTensor 0)] |}).
Proof. reflexivity. Qed.

End Instances.

(** * Further properties *)

(** ** Loading the expert weights: frame, coverage, failures *)

Module LoadExtra.
Import Torch TorchFacts TorchOpsFacts TorchExtFacts ExpertGLU ExpertGLUFacts Load.

Section Facts.
Context {A : Type}.
Variable uninit : A.

(** [_load_weights] on a well-shaped weight source, with the world it
    leaves in full. *)
Lemma load_weights_run (w : LoadWorld A) rank ws E F H W1 V1 W2 :
  moe_num_experts (self_ w) = E -> 0 < E -> 0 < ws ->
  is_Some (_parameters (self_ w) !! "w1") ->
  is_Some (_parameters (self_ w) !! "v1") ->
  is_Some (_parameters (self_ w) !! "w2") ->
  loader w !! "w1" = Some W1 ->
  loader w !! "v1" = Some V1 ->
  loader w !! "w2" = Some W2 ->
  shape W1 = [E * F; H] -> shape V1 = [E * F; H] -> shape W2 = [E * F; H] ->
  rank * chunk_size F ws < F ->
  exists P1 P2 P3,
    _load_weights uninit rank ws w
    = (Ok tt,
       {| self_ :=
            {| moe_num_experts := E;
               _parameters :=
                 <["w2" := P3]> (<["v1" := P2]> (<["w1" := P1]>
                   (_parameters (self_ w))));
               _buffers := _buffers (self_ w) |};
          loader := delete "w2" (delete "v1" (delete "w1" (loader w))) |})
    /\ Forall2 (fun P W =>
         shape P = [E * chunk_len F ws rank; H]
         /\ forall e i j, e < E -> i < chunk_len F ws rank -> j < H ->
              get uninit P [e * chunk_len F ws rank + i; j]
              = get uninit W [e * F + (rank * chunk_size F ws + i); j])
       [P1; P2; P3] [W1; V1; W2].
Proof.
  intros HE HE0 Hws [p1 Hp1] [p2 Hp2] [p3 Hp3] Hl1 Hl2 Hl3 Hs1 Hs2 Hs3 Hr.
  destruct (partition_run uninit w rank ws "w1" p1 W1 E F H)
    as (P1 & Hrun1 & Hsh1 & Hg1); try done.
  set (wa := {| self_ := {| moe_num_experts := E;
                            _parameters := <["w1" := P1]> (_parameters (self_ w));
                            _buffers := _buffers (self_ w) |};
                loader := delete "w1" (loader w) |}) in *.
  destruct (partition_run uninit wa rank ws "v1" p2 V1 E F H)
    as (P2 & Hrun2 & Hsh2 & Hg2); try done;
    try (subst wa; cbn; by simplify_map_eq).
  set (wb := {| self_ := {| moe_num_experts := E;
                            _parameters := <["v1" := P2]> (_parameters (self_ wa));
                            _buffers := _buffers (self_ wa) |};
                loader := delete "v1" (loader wa) |}) in *.
  destruct (partition_run uninit wb rank ws "w2" p3 W2 E F H)
    as (P3 & Hrun3 & Hsh3 & Hg3); try done;
    try (subst wb wa; cbn; by simplify_map_eq).
  exists P1, P2, P3. split.
  - unfold _load_weights.
    erewrite bind_run
      by (unfold on_self; erewrite getattr_param by exact Hp1; reflexivity).
    replace {| self_ := self_ w; loader := loader w |} with w by (by destruct w).
    erewrite bind_run by exact Hrun1.
    erewrite bind_run
      by (unfold on_self; erewrite getattr_param
            by (subst wa; cbn; by simplify_map_eq); reflexivity).
    erewrite bind_run by exact Hrun2.
    erewrite bind_run
      by (unfold on_self; erewrite getattr_param
            by (subst wb wa; cbn; by simplify_map_eq); reflexivity).
    exact Hrun3.
  - repeat constructor; done.
Qed.

(** Loading touches nothing but the three weights: the loader loses
    exactly the entries [w1], [v1] and [w2], and in the module only the
    parameters of these names change. *)
Theorem load_weights_frame (w : LoadWorld A) rank ws E F H W1 V1 W2 :
  moe_num_experts (self_ w) = E -> 0 < E -> 0 < ws ->
  is_Some (_parameters (self_ w) !! "w1") ->
  is_Some (_parameters (self_ w) !! "v1") ->
  is_Some (_parameters (self_ w) !! "w2") ->
  loader w !! "w1" = Some W1 ->
  loader w !! "v1" = Some V1 ->
  loader w !! "w2" = Some W2 ->
  shape W1 = [E * F; H] -> shape V1 = [E * F; H] -> shape W2 = [E * F; H] ->
  rank * chunk_size F ws < F ->
  exists w',
    _load_weights uninit rank ws w = (Ok tt, w')
    /\ (forall name, name ∈ ["w1"; "v1"; "w2"] -> loader w' !! name = None)
    /\ (forall name, name ∉ ["w1"; "v1"; "w2"] ->
          loader w' !! name = loader w !! name
          /\ _parameters (self_ w') !! name = _parameters (self_ w) !! name)
    /\ _buffers (self_ w') = _buffers (self_ w)
    /\ moe_num_experts (self_ w') = moe_num_experts (self_ w).
Proof.
  intros HE HE0 Hws Hp1 Hp2 Hp3 Hl1 Hl2 Hl3 Hs1 Hs2 Hs3 Hr.
  destruct (load_weights_run w rank ws E F H W1 V1 W2)
    as (P1 & P2 & P3 & Hrun & _); try done.
  eexists. split; [exact Hrun|]. cbn [loader self_ _parameters _buffers moe_num_experts].
  split; [|split; [|done]].
  - intros name Hin. set_unfold in Hin.
    destruct Hin as [->|[->|[->|[]]]]; by simplify_map_eq.
  - intros name Hnot.
    assert (name <> "w1" /\ name <> "v1" /\ name <> "w2") as (N1 & N2 & N3).
    { set_unfold in Hnot. naive_solver. }
    split; by simplify_map_eq.
Qed.

(** Every row of every expert is on exactly one rank: row [i] of an
    expert is held by rank [i / c] at local row [i mod c], where [c] is
    the chunk size, and the rows a rank holds are those whose quotient by
    [c] is that rank. *)
Theorem load_weights_rows_covered (w : LoadWorld A) ws E F H W1 V1 W2 e i j :
  moe_num_experts (self_ w) = E -> 0 < E -> 0 < ws ->
  is_Some (_parameters (self_ w) !! "w1") ->
  is_Some (_parameters (self_ w) !! "v1") ->
  is_Some (_parameters (self_ w) !! "w2") ->
  loader w !! "w1" = Some W1 ->
  loader w !! "v1" = Some V1 ->
  loader w !! "w2" = Some W2 ->
  shape W1 = [E * F; H] -> shape V1 = [E * F; H] -> shape W2 = [E * F; H] ->
  e < E -> i < F -> j < H ->
  let c := chunk_size F ws in
  let rank := i / c in
  (exists w',
     _load_weights uninit rank ws w = (Ok tt, w')
     /\ forall name W, (name, W) ∈ [("w1", W1); ("v1", V1); ("w2", W2)] ->
          exists P,
            _parameters (self_ w') !! name = Some P
            /\ get uninit P [e * chunk_len F ws rank + i mod c; j]
               = get uninit W [e * F + i; j])
  /\ (forall r i', i' < chunk_len F ws r ->
        (r * c + i') / c = r /\ (r * c + i') mod c = i')
  /\ rank < ws.
Proof.
  intros HE HE0 Hws Hp1 Hp2 Hp3 Hl1 Hl2 Hl3 Hs1 Hs2 Hs3 He Hi Hj c rank.
  assert (Hc : 0 < c) by (apply chunk_size_pos; lia).
  pose proof (Nat.div_mod_eq i c) as Hdm.
  pose proof (Nat.mod_upper_bound i c ltac:(lia)) as Hm.
  fold rank in Hdm.
  assert (Hr : rank * c < F) by nia.
  assert (Hlen : i mod c < chunk_len F ws rank).
  { unfold chunk_len. fold c. nia. }
  split; [|split].
  - destruct (load_weights_run w rank ws E F H W1 V1 W2)
      as (P1 & P2 & P3 & Hrun & Hspec); try done.
    apply Forall2_cons in Hspec as [[_ Hg1] Hspec].
    apply Forall2_cons in Hspec as [[_ Hg2] Hspec].
    apply Forall2_cons in Hspec as [[_ Hg3] _].
    eexists. split; [exact Hrun|].
    intros name W Hin. set_unfold in Hin.
    destruct Hin as [Heq|[Heq|[Heq|[]]]]; injection Heq as -> ->;
      eexists; (split; [cbn; by simplify_map_eq|]).
    + rewrite Hg1 by done. do 3 f_equal. fold c. lia.
    + rewrite Hg2 by done. do 3 f_equal. fold c. lia.
    + rewrite Hg3 by done. do 3 f_equal. fold c. lia.
  - intros r i' Hi'. unfold chunk_len in Hi'. fold c in Hi'.
    assert (i' < c) by lia. split.
    + rewrite Nat.add_comm, Nat.div_add, Nat.div_small by lia. lia.
    + rewrite Nat.add_comm, Nat.Div0.mod_add. apply Nat.mod_small. lia.
  - apply Nat.Div0.div_lt_upper_bound.
    pose proof (Nat.div_mod_eq (F + ws - 1) ws) as Hq.
    pose proof (Nat.mod_upper_bound (F + ws - 1) ws ltac:(lia)) as Hu.
    fold (chunk_size F ws) in Hq. fold c in Hq. nia.
Qed.

(** A rank beyond the last chunk: [chunk] yields fewer than [world_size]
    pieces when the rows do not fill them. *)
Lemma chunk_piece_none (t : tensor A) E F H ws rank :
  shape t = [E; F; H] -> 0 < ws -> 0 < F -> F <= rank * chunk_size F ws ->
  exists ps, chunk uninit t ws 1 = Some ps /\ ps !! rank = None.
Proof.
  intros Hs Hws HF Hr. pose proof (chunk_size_pos F ws Hws HF) as Hc.
  unfold chunk. rewrite Hs. cbn [lookup list_lookup mbind option_bind].
  replace (ws =? 0) with false by (symmetry; apply Nat.eqb_neq; lia).
  fold (chunk_size F ws). set (c := chunk_size F ws) in *.
  replace (c =? 0) with false by (symmetry; apply Nat.eqb_neq; lia).
  cbn [andb]. unfold split. rewrite Hs.
  cbn [lookup list_lookup mbind option_bind].
  replace (c =? 0) with false by (symmetry; apply Nat.eqb_neq; lia).
  cbn [andb]. eexists; split; [done|].
  apply lookup_ge_None. rewrite length_map, length_seq.
  pose proof (Nat.div_mod_eq (F + c - 1) c) as Hdm.
  pose proof (Nat.mod_upper_bound (F + c - 1) c ltac:(lia)) as Hm.
  set (q := (F + c - 1) / c) in *. nia.
Qed.

(** Loading uses the weight source up: a second load on the world the
    first one leaves raises KeyError and changes nothing. *)
Theorem load_weights_consumes_loader (w : LoadWorld A) rank ws E F H W1 V1 W2 :
  moe_num_experts (self_ w) = E -> 0 < E -> 0 < ws ->
  is_Some (_parameters (self_ w) !! "w1") ->
  is_Some (_parameters (self_ w) !! "v1") ->
  is_Some (_parameters (self_ w) !! "w2") ->
  loader w !! "w1" = Some W1 ->
  loader w !! "v1" = Some V1 ->
  loader w !! "w2" = Some W2 ->
  shape W1 = [E * F; H] -> shape V1 = [E * F; H] -> shape W2 = [E * F; H] ->
  rank * chunk_size F ws < F ->
  exists w',
    _load_weights uninit rank ws w = (Ok tt, w')
    /\ forall rank' ws',
         _load_weights uninit rank' ws' w' = (Raise KeyError, w').
Proof.
  intros HE HE0 Hws Hp1 Hp2 Hp3 Hl1 Hl2 Hl3 Hs1 Hs2 Hs3 Hr.
  destruct (load_weights_run w rank ws E F H W1 V1 W2)
    as (P1 & P2 & P3 & Hrun & _); try done.
  eexists. split; [exact Hrun|]. intros rank' ws'.
  unfold _load_weights.
  erewrite bind_run
    by (unfold on_self; erewrite getattr_param
          by (cbn; by simplify_map_eq); reflexivity).
  erewrite bind_raise; [reflexivity|].
  unfold __partition. erewrite bind_raise; [reflexivity|].
  unfold loader_pop. cbn. by simplify_map_eq.
Qed.

(** When the rows of an expert do not reach rank [rank] (its first row
    [rank * c] is past the last one), loading raises IndexError; the
    weight has by then been taken out of the loader, and the module is as
    it was. *)
Theorem load_weights_rank_without_rows (w : LoadWorld A) rank ws E F H W1 p1 :
  moe_num_experts (self_ w) = E -> 0 < E -> 0 < ws -> 0 < F ->
  _parameters (self_ w) !! "w1" = Some p1 ->
  loader w !! "w1" = Some W1 ->
  shape W1 = [E * F; H] ->
  F <= rank * chunk_size F ws ->
  _load_weights uninit rank ws w
  = (Raise IndexError,
     {| self_ := self_ w; loader := delete "w1" (loader w) |}).
Proof.
  intros HE HE0 Hws HF Hp1 Hl1 Hs1 Hr.
  destruct (chunk_piece_none (Tensor [E; F; H] (data W1)) E F H ws rank
              eq_refl Hws HF Hr) as (ps & Hch & Hps).
  unfold _load_weights.
  erewrite bind_run
    by (unfold on_self; erewrite getattr_param by exact Hp1; reflexivity).
  erewrite bind_raise; [reflexivity|].
  unfold __partition.
  erewrite bind_run by (unfold loader_pop; cbn; by rewrite Hl1).
  erewrite bind_run by reflexivity. cbn [self_]. rewrite HE.
  erewrite bind_run by (apply lift_opt_run; by apply unflatten_experts).
  erewrite bind_run by (apply lift_opt_run; exact Hch).
  erewrite bind_raise; [reflexivity|]. by rewrite Hps.
Qed.

(** A weight source without [v1]: loading raises KeyError after [w1] has
    been replaced by its shard and taken out of the loader. *)
Theorem load_weights_missing_v1 (w : LoadWorld A) rank ws E F H W1 p1 p2 :
  moe_num_experts (self_ w) = E -> 0 < E -> 0 < ws ->
  _parameters (self_ w) !! "w1" = Some p1 ->
  _parameters (self_ w) !! "v1" = Some p2 ->
  loader w !! "w1" = Some W1 ->
  loader w !! "v1" = None ->
  shape W1 = [E * F; H] ->
  rank * chunk_size F ws < F ->
  exists P1,
    _load_weights uninit rank ws w
    = (Raise KeyError,
       {| self_ := {| moe_num_experts := E;
                      _parameters := <["w1" := P1]> (_parameters (self_ w));
                      _buffers := _buffers (self_ w) |};
          loader := delete "w1" (loader w) |})
    /\ shape P1 = [E * chunk_len F ws rank; H].
Proof.
  intros HE HE0 Hws Hp1 Hp2 Hl1 Hl2 Hs1 Hr.
  destruct (partition_run uninit w rank ws "w1" p1 W1 E F H)
    as (P1 & Hrun1 & Hsh1 & _); try done.
  exists P1. split; [|done].
  unfold _load_weights.
  erewrite bind_run
    by (unfold on_self; erewrite getattr_param by exact Hp1; reflexivity).
  replace {| self_ := self_ w; loader := loader w |} with w by (by destruct w).
  erewrite bind_run by exact Hrun1.
  erewrite bind_run
    by (unfold on_self; erewrite getattr_param
          by (cbn; by simplify_map_eq); reflexivity).
  erewrite bind_raise; [reflexivity|].
  unfold __partition. erewrite bind_raise; [reflexivity|].
  unfold loader_pop. cbn. rewrite lookup_delete_ne by done. by rewrite Hl2.
Qed.

End Facts.
End LoadExtra.

(** ** Repacking: what a failure leaves behind *)

Lemma bind_raise_inv {S A B} (c : M S A) (k : A -> M S B) s e s' :
  bind c k s = (Raise e, s') ->
  c s = (Raise e, s') \/ exists a s1, c s = (Ok a, s1) /\ k a s1 = (Raise e, s').
Proof.
  unfold bind. destruct (c s) as [[a|e0] s1]; [eauto|].
  intros H. injection H as -> ->. by left.
Qed.

Lemma lift_opt_state {S A} (e : exn) (o : option A) (s : S) r s' :
  lift_opt e o s = (r, s') -> s' = s.
Proof. destruct o; intros H; by injection H as _ <-. Qed.

Lemma floordiv_state {S} (a b : nat) (s : S) r s' :
  floordiv a b s = (r, s') -> s' = s.
Proof. unfold floordiv. destruct (b =? 0); intros H; by injection H as _ <-. Qed.

Module RepackExtra.
Import Torch TorchFacts TorchOpsFacts TorchExtFacts ExpertGLU ExpertGLUFacts.

Section Facts.
Context {A : Type}.
Variable uninit : A.

Local Abbreviation gone name m :=
  (_parameters m !! name = None /\ _buffers m !! name = None).

Lemma getattr_state (m : Module_ A) name r m' :
  getattr name m = (r, m') -> m' = m.
Proof.
  unfold getattr. destruct (_parameters m !! name); [|destruct (_buffers m !! name)];
    intros H; by injection H as _ <-.
Qed.

Lemma getattr_ok_inv (m : Module_ A) name t m' :
  getattr name m = (Ok t, m') ->
  is_Some (_parameters m !! name) \/ is_Some (_buffers m !! name).
Proof.
  unfold getattr. destruct (_parameters m !! name); [eauto|].
  destruct (_buffers m !! name); [eauto|discriminate].
Qed.

Lemma delattr_raise_inv (m : Module_ A) name e m' :
  delattr name m = (Raise e, m') -> m' = m /\ gone name m.
Proof.
  unfold delattr. destruct (_parameters m !! name); [discriminate|].
  destruct (_buffers m !! name); [discriminate|].
  intros H. by injection H as _ <-.
Qed.

(** A successful [delattr] removes the name and nothing else. *)
Lemma delattr_ok_inv (m : Module_ A) name u m' :
  names_apart m -> delattr name m = (Ok u, m') ->
  gone name m'
  /\ (forall n, n <> name ->
        _parameters m' !! n = _parameters m !! n
        /\ _buffers m' !! n = _buffers m !! n)
  /\ names_apart m'.
Proof.
  intros Hap. unfold delattr.
  destruct (_parameters m !! name) as [t|] eqn:Hp.
  - intros H. injection H as _ <-. cbn. repeat split.
    + apply lookup_delete_eq.
    + apply Hap. by rewrite Hp.
    + by rewrite lookup_delete_ne.
    + intros n [x Hx]. cbn in *. apply Hap.
      destruct (decide (name = n)) as [->|Hne];
        [by rewrite lookup_delete_eq in Hx|].
      rewrite lookup_delete_ne in Hx by done. by rewrite Hx.
  - destruct (_buffers m !! name) as [t|] eqn:Hb; [|discriminate].
    intros H. injection H as _ <-. cbn. repeat split; try done.
    + apply lookup_delete_eq.
    + by rewrite lookup_delete_ne.
    + intros n Hn. cbn in *.
      destruct (decide (name = n)) as [->|Hne]; [apply lookup_delete_eq|].
      rewrite lookup_delete_ne by done. by apply Hap.
Qed.

Lemma register_buffer_inv (m : Module_ A) name t r m' :
  register_buffer name t m = (r, m') ->
  forall n, n <> name ->
    _parameters m' !! n = _parameters m !! n
    /\ _buffers m' !! n = _buffers m !! n.
Proof.
  unfold register_buffer. intros H n Hne.
  destruct (_buffers m !! name), (_parameters m !! name);
    injection H as _ <-; cbn; by rewrite ?lookup_insert_ne.
Qed.

(** Repacking is not all-or-nothing.  When [_update_model_fn] raises,
    either nothing has changed, or [w1] and [v1] are already deleted: the
    load representation cannot be repacked again. *)
Theorem repack_failure_leaves (m : Module_ A) e m' :
  names_apart m ->
  _update_model_fn uninit m = (Raise e, m') ->
  m' = m \/ (gone "w1" m' /\ gone "v1" m').
Proof.
  intros Hap H. unfold _update_model_fn in H.
  apply bind_raise_inv in H as [H|(m0 & s & Ha & H)]; [discriminate|].
  injection Ha as <- <-.
  repeat lazymatch type of H with
  | bind (getattr "w1") _ _ = _ =>
      apply bind_raise_inv in H as [H|(? & ? & Ha & H)];
        [left; by eapply getattr_state|];
        apply getattr_state in Ha as ->
  | bind (lift_opt _ _) _ _ = _ =>
      apply bind_raise_inv in H as [H|(? & ? & Ha & H)];
        [left; by eapply lift_opt_state|];
        apply lift_opt_state in Ha as ->
  | bind (floordiv _ _) _ _ = _ =>
      apply bind_raise_inv in H as [H|(? & ? & Ha & H)];
        [left; by eapply floordiv_state|];
        apply floordiv_state in Ha as ->
  end.
  apply bind_raise_inv in H as [H|(v1 & s & Hv1 & H)];
    [left; by eapply getattr_state|].
  pose proof (getattr_state _ _ _ _ Hv1) as ->.
  repeat lazymatch type of H with
  | bind (lift_opt _ _) _ _ = _ =>
      apply bind_raise_inv in H as [H|(? & ? & Ha & H)];
        [left; by eapply lift_opt_state|];
        apply lift_opt_state in Ha as ->
  end.
  apply bind_raise_inv in H as [H|(u1 & m1 & Hd1 & H)];
    [left; by apply delattr_raise_inv in H as [-> _]|].
  apply delattr_ok_inv in Hd1 as (Hg1 & Hsame1 & Hap1); [|done].
  apply bind_raise_inv in H as [H|(u2 & m2 & Hd2 & H)].
  { exfalso. apply delattr_raise_inv in H as [_ [Hp Hb]].
    destruct (Hsame1 "v1" ltac:(done)) as [Hp1 Hb1].
    rewrite Hp1 in Hp. rewrite Hb1 in Hb.
    apply getattr_ok_inv in Hv1 as [[xx Hx]|[xx Hx]]; congruence. }
  apply delattr_ok_inv in Hd2 as (Hg2 & Hsame2 & Hap2); [|done].
  assert (Hw1 : gone "w1" m2).
  { destruct (Hsame2 "w1" ltac:(done)) as [-> ->]. exact Hg1. }
  right.
  apply bind_raise_inv in H as [H|(w2 & s & Hw2 & H)];
    [by apply getattr_state in H as ->|].
  apply getattr_state in Hw2 as ->.
  repeat lazymatch type of H with
  | bind (lift_opt _ _) _ _ = _ =>
      apply bind_raise_inv in H as [H|(? & ? & Ha & H)];
        [by apply lift_opt_state in H as ->|];
        apply lift_opt_state in Ha as ->
  end.
  assert (Hkeep : forall (ma mb : Module_ A),
            (forall n, n <> "w2" ->
               _parameters mb !! n = _parameters ma !! n
               /\ _buffers mb !! n = _buffers ma !! n) ->
            gone "w1" ma /\ gone "v1" ma -> gone "w1" mb /\ gone "v1" mb).
  { intros ma mb Hs [[? ?] [? ?]].
    destruct (Hs "w1" ltac:(done)) as [-> ->].
    destruct (Hs "v1" ltac:(done)) as [-> ->]. done. }
  assert (Hkeepb : forall name (ma mb : Module_ A),
            name <> "w1" -> name <> "v1" ->
            (forall n, n <> name ->
               _parameters mb !! n = _parameters ma !! n
               /\ _buffers mb !! n = _buffers ma !! n) ->
            gone "w1" ma /\ gone "v1" ma -> gone "w1" mb /\ gone "v1" mb).
  { intros name ma mb N1 N2 Hs [[? ?] [? ?]].
    destruct (Hs "w1" ltac:(done)) as [-> ->].
    destruct (Hs "v1" ltac:(done)) as [-> ->]. done. }
  apply bind_raise_inv in H as [H|(u3 & m3 & Hd3 & H)];
    [by apply delattr_raise_inv in H as [-> _]|].
  apply delattr_ok_inv in Hd3 as (_ & Hsame3 & _); [|done].
  pose proof (Hkeep m2 m3 Hsame3 (conj Hw1 Hg2)) as Hg3.
  apply bind_raise_inv in H as [H|(u4 & m4 & Hr1 & H)].
  { eapply (Hkeepb "gate_up_weights"); [done|done| |exact Hg3].
    by eapply register_buffer_inv. }
  pose proof (Hkeepb "gate_up_weights" m3 m4 ltac:(done) ltac:(done)
                (register_buffer_inv _ _ _ _ _ Hr1) Hg3) as Hg4.
  eapply (Hkeepb "down_weights"); [done|done| |exact Hg4].
  by eapply register_buffer_inv.
Qed.

End Facts.
End RepackExtra.

(** ** From the checkpoint to the kernel: load, repack, forward *)

Module PipelineExtra.
Import Torch TorchFacts TorchOpsFacts TorchExtFacts ExpertGLU ExpertGLUFacts.
Import Load LoadExtra RepackExtra.

Section Facts.
Context {A : Type}.
Variable uninit : A.

(** Loading on one rank and then repacking: the buffers the kernel reads
    hold, for every expert, this rank's rows of the checkpoint, gate rows
    first and value rows after them in [gate_up_weights], and the rows of
    [w2] as columns in [down_weights]. *)
Theorem load_then_repack (w : LoadWorld A) rank ws E F H W1 V1 W2 :
  moe_num_experts (self_ w) = E -> 0 < E -> 0 < ws ->
  is_Some (_parameters (self_ w) !! "w1") ->
  is_Some (_parameters (self_ w) !! "v1") ->
  is_Some (_parameters (self_ w) !! "w2") ->
  loader w !! "w1" = Some W1 ->
  loader w !! "v1" = Some V1 ->
  loader w !! "w2" = Some W2 ->
  shape W1 = [E * F; H] -> shape V1 = [E * F; H] -> shape W2 = [E * F; H] ->
  rank * chunk_size F ws < F ->
  _parameters (self_ w) !! "gate_up_weights" = None ->
  _parameters (self_ w) !! "down_weights" = None ->
  let c := chunk_size F ws in
  let n := chunk_len F ws rank in
  exists w1 m' gate_up down,
    _load_weights uninit rank ws w = (Ok tt, w1)
    /\ _update_model_fn uninit (self_ w1) = (Ok tt, m')
    /\ _buffers m' !! "gate_up_weights" = Some gate_up
    /\ _buffers m' !! "down_weights" = Some down
    /\ shape gate_up = [E; n * 2; H] /\ shape down = [E; H; n]
    /\ forall e i j, e < E -> i < n -> j < H ->
         get uninit gate_up [e; i; j] = get uninit W1 [e * F + (rank * c + i); j]
         /\ get uninit gate_up [e; n + i; j]
            = get uninit V1 [e * F + (rank * c + i); j]
         /\ get uninit down [e; j; i] = get uninit W2 [e * F + (rank * c + i); j].
Proof.
  intros HE HE0 Hws Hp1 Hp2 Hp3 Hl1 Hl2 Hl3 Hs1 Hs2 Hs3 Hr Hgu Hdn c n.
  destruct (load_weights_run uninit w rank ws E F H W1 V1 W2)
    as (P1 & P2 & P3 & Hload & HF); try done.
  apply Forall2_cons in HF as [[Hsh1 Hg1] HF].
  apply Forall2_cons in HF as [[Hsh2 Hg2] HF].
  apply Forall2_cons in HF as [[Hsh3 Hg3] _].
  fold n in Hsh1, Hsh2, Hsh3, Hg1, Hg2, Hg3. fold c in Hg1, Hg2, Hg3.
  set (m1 := {| moe_num_experts := E;
                _parameters := <["w2" := P3]> (<["v1" := P2]> (<["w1" := P1]>
                                 (_parameters (self_ w))));
                _buffers := _buffers (self_ w) |}) in *.
  destruct (update_model_fn_run uninit m1 E n H n H P1 P2 P3)
    as (gu & dn & Hrun & Hsg & _ & Hgg & Hsd & _ & Hgd); try done;
    try (subst m1; cbn; by simplify_map_eq).
  eexists _, _, gu, dn. split; [exact Hload|]. cbn [self_].
  split; [exact Hrun|]. cbn [_buffers].
  split; [by simplify_map_eq|]. split; [by simplify_map_eq|].
  split; [done|]. split; [done|].
  intros e i j He Hi Hj. split; [|split].
  - rewrite Hgg by lia.
    replace (i <? n) with true by (symmetry; apply Nat.ltb_lt; lia).
    by apply Hg1.
  - rewrite Hgg by lia.
    replace (n + i <? n) with false by (symmetry; apply Nat.ltb_ge; lia).
    replace (n + i - n) with i by lia. by apply Hg2.
  - rewrite Hgd by lia. by apply Hg3.
Qed.

End Facts.

Section Forward.
Context {F : Type}.
Variable fused_moe :
  tensor F -> tensor F -> tensor F -> tensor F -> tensor Z -> nat -> bool ->
  tensor F.

(** The experts forward only reads the module: whatever it returns or
    raises, the module is as before. *)
Theorem experts_forward_reads_only (x weights top_weights : tensor F)
    (top_experts : tensor Z) (mlp : Module_ F) :
  snd (Experts.forward fused_moe x weights top_weights top_experts mlp) = mlp.
Proof.
  unfold Experts.forward, bind, lift_opt, ret, raise, getattr.
  repeat match goal with
         | |- context [match ?o with Some _ => _ | None => _ end] => destruct o
         end; reflexivity.
Qed.

(** Before the repacking there is nothing for the kernel to read: on a
    module that lacks one of the two buffers the forward raises
    AttributeError, whatever the input of shape [(batch, seq, hidden)]. *)
Theorem experts_forward_needs_repack (x weights top_weights : tensor F)
    (top_experts : tensor Z) (mlp : Module_ F) B S H :
  shape x = [B; S; H] ->
  (exists name, name ∈ ["gate_up_weights"; "down_weights"]
                /\ _parameters mlp !! name = None
                /\ _buffers mlp !! name = None) ->
  Experts.forward fused_moe x weights top_weights top_experts mlp
  = (Raise AttributeError, mlp).
Proof.
  intros Hx (name & Hin & Hp & Hb).
  unfold Experts.forward.
  erewrite bind_run by (apply lift_opt_run; unfold size; by rewrite Hx).
  erewrite bind_run by (apply lift_opt_run; by apply ExpertsClaims.flatten01).
  apply elem_of_cons in Hin as [->|Hin].
  - erewrite bind_raise; [done|]. by apply getattr_missing.
  - apply elem_of_cons in Hin as [->|Hin]; [|by apply elem_of_nil in Hin].
    destruct (getattr "gate_up_weights" mlp) as [[t|e] s] eqn:Hg.
    + pose proof (getattr_state _ _ _ _ Hg) as ->.
      erewrite bind_run by exact Hg.
      erewrite bind_raise; [done|]. by apply getattr_missing.
    + unfold bind. rewrite Hg. unfold getattr in Hg.
      destruct (_parameters mlp !! "gate_up_weights"); [discriminate|].
      destruct (_buffers mlp !! "gate_up_weights"); [discriminate|].
      by injection Hg as <- <-.
Qed.

End Forward.
End PipelineExtra.

(** ** The hooks when there is nothing to reduce *)

Module HookExtra.
Import Torch Runtime RuntimeFacts.

Section Facts.
Context {F : Type}.
Variable all_reduce_sum : tensor F -> list F.

Lemma all_reduce_inv (v : pyval) (w : World F) r w' :
  all_reduce all_reduce_sum v w = (r, w') ->
  (exists ref t, v = PTensor ref /\ heap w !! ref = Some t /\ r = Ok tt
                 /\ calls w' = calls w ++ [Call_all_reduce ref])
  \/ ((forall ref, v = PTensor ref -> heap w !! ref = None)
      /\ (exists e, r = Raise e) /\ w' = w).
Proof.
  destruct v as [| |ref|]; try (intros H; injection H as <- <-; right;
    split; [done|split; [by eexists|done]]).
  destruct (heap w !! ref) as [t|] eqn:Ht.
  - rewrite (all_reduce_run all_reduce_sum w ref t Ht).
    intros H. injection H as <- <-. left. by exists ref, t.
  - unfold all_reduce. erewrite bind_run by reflexivity.
    erewrite bind_raise by (unfold read; by rewrite Ht).
    intros H. injection H as <- <-. right.
    split; [by intros ? [= <-]|]. split; [by eexists|done].
Qed.

(** A hook that raises has done nothing: the world is as before, and in
    particular no all-reduce was issued.  On [None] or a tuple the
    attention hook returns exactly when [outputs[0]] is a live tensor, and
    the experts hook returns exactly when [outputs] is one. *)
Theorem hooks_fail_without_effect (outputs : pyval) kwargs (w : World F) :
  (forall e w',
     Attention._distribute_output_fn all_reduce_sum outputs kwargs w
     = (Raise e, w') -> w' = w)
  /\ (forall e w',
        Experts._distribute_output_fn all_reduce_sum outputs kwargs w
        = (Raise e, w') -> w' = w)
  /\ ((forall r, outputs <> PTensor r) ->
      ((exists out w',
          Attention._distribute_output_fn all_reduce_sum outputs kwargs w
          = (Ok out, w'))
       <-> exists r rest, outputs = PTuple (PTensor r :: rest)
                          /\ is_Some (heap w !! r)))
  /\ ((exists out w',
         Experts._distribute_output_fn all_reduce_sum outputs kwargs w
         = (Ok out, w'))
      <-> exists r, outputs = PTensor r /\ is_Some (heap w !! r)).
Proof.
  split; [|split; [|split]].
  - intros e w' H. unfold Attention._distribute_output_fn in H.
    apply bind_raise_inv in H as [H|(o & s & Ho & H)];
      [by injection H as _ <-|].
    apply subscript_ok_inv in Ho as [_ ->].
    apply bind_raise_inv in H as [H|(u & s & Hu & H)]; [|discriminate].
    apply all_reduce_inv in H as [(? & ? & _ & _ & ? & _)|(_ & _ & ->)]; done.
  - intros e w' H. unfold Experts._distribute_output_fn in H.
    apply bind_raise_inv in H as [H|(u & s & Hu & H)]; [|discriminate].
    apply all_reduce_inv in H as [(? & ? & _ & _ & ? & _)|(_ & _ & ->)]; done.
  - intros _. split.
    + intros (out & w' & H). unfold Attention._distribute_output_fn in H.
      apply bind_ok_inv in H as (o & s & Ho & H).
      apply subscript_ok_inv in Ho as [Ho ->].
      apply bind_ok_inv in H as (u & s & Hu & _).
      apply all_reduce_inv in Hu as [(r & t & -> & Hr & _)|(_ & [e ?] & _)];
        [|done].
      destruct outputs as [| | |items]; try discriminate.
      destruct items as [|i0 rest]; [discriminate|].
      injection Ho as ->. exists r, rest. by rewrite Hr.
    + intros (r & rest & -> & [t Ht]).
      unfold Attention._distribute_output_fn.
      erewrite bind_run by reflexivity.
      erewrite bind_run by (by apply all_reduce_run). eauto.
  - split.
    + intros (out & w' & H). unfold Experts._distribute_output_fn in H.
      apply bind_ok_inv in H as (u & s & Hu & _).
      apply all_reduce_inv in Hu as [(r & t & -> & Hr & _)|(_ & [e ?] & _)];
        [|done].
      exists r. by rewrite Hr.
    + intros (r & -> & [t Ht]).
      unfold Experts._distribute_output_fn.
      erewrite bind_run by (by apply all_reduce_run). eauto.
Qed.

End Facts.
End HookExtra.

(** ** The attention forward: what it leaves alone and how it fails *)

Module AttentionExtra.
Import Torch TorchFacts ShapeFacts ExpertGLUFacts Runtime RuntimeFacts KernelFacts.
Import Attention AttentionFacts.

Section Facts.
Context {F : Type}.
Variable uninit : F.
Variable fle : F -> F -> bool.
Variable fneg : F -> F.
Variable fone : F.
Variable fdiv : F -> F -> F.
Variable fpow : F -> F -> F.
Variable of_int : nat -> F.
Variable fused_rotary_emb_kernel :
  tensor F -> tensor F -> tensor Z -> list F -> F -> list F * list F.
Variable fill_kv_cache_kernel :
  tensor F -> tensor F -> tensor F -> tensor F ->
  tensor Z -> tensor Z -> tensor Z -> Z -> tensor Z -> list F * list F.
Variable paged_attention_fwd_kernel :
  tensor F -> tensor F -> tensor F -> tensor F ->
  tensor Z -> tensor Z -> tensor Z -> tensor Z -> Z -> list F.
Variable self : Self F.

Local Abbreviation forward_ :=
  (forward uninit fle fneg fone fdiv fpow of_int fused_rotary_emb_kernel
     fill_kv_cache_kernel paged_attention_fwd_kernel self).

(** Of the tensors that exist before the call, a well-shaped forward
    writes the two caches and nothing else: the hidden states and every
    other tensor are as before, the caches keep their shapes, four new
    tensors are made, the context and the world size are untouched, and
    no all-reduce is issued. *)
Theorem forward_writes_only_caches (w : World F) hidden position_ids
    attention_mask pkv output_attentions use_cache cache_position kwargs
    h kc vc :
  ready self w hidden pkv h kc vc ->
  exists out w' new,
    forward_ hidden position_ids attention_mask pkv output_attentions
      use_cache cache_position kwargs w = (Ok out, w')
    /\ length (heap w') = length (heap w) + 4
    /\ (forall r t, heap w !! r = Some t -> r <> kc -> r <> vc ->
          heap w' !! r = Some t)
    /\ (forall r t, heap w !! r = Some t ->
          exists t', heap w' !! r = Some t' /\ shape t' = shape t)
    /\ context w' = context w
    /\ dist_world_size w' = dist_world_size w
    /\ calls w' = calls w ++ new
    /\ forall r, Call_all_reduce r ∉ new.
Proof.
  intros Hready.
  destruct (AttentionClaims.forward_run uninit fle fneg fone fdiv fpow of_int
              fused_rotary_emb_kernel fill_kv_cache_kernel
              paged_attention_fwd_kernel self w hidden position_ids
              attention_mask pkv output_attentions use_cache cache_position
              kwargs h kc vc Hready)
    as (KC0 & VC0 & Hkc & Hvc & Hrun).
  cbv zeta in Hrun.
  eexists _, _, _. split; [exact Hrun|].
  cbn [heap context dist_world_size calls].
  pose proof (lookup_lt_Some _ _ _ Hkc) as Hkcn.
  pose proof (lookup_lt_Some _ _ _ Hvc) as Hvcn.
  assert (Hold : forall r t, heap w !! r = Some t -> r <> kc -> r <> vc ->
            forall Q2 VC1 KC1 K1 Q1 Q0 K0 V0 out,
            (<[length (heap w) := Q2]>
               (<[vc := VC1]>
                  (<[kc := KC1]>
                     (<[length (heap w) + 1 := K1]>
                        (<[length (heap w) := Q1]> (heap w ++ [Q0; K0; V0])))))
             ++ [out]) !! r = Some t).
  { intros r t Hr N1 N2 *. pose proof (lookup_lt_Some _ _ _ Hr).
    apply lookup_allocated.
    rewrite !list_lookup_insert_ne by lia. by apply lookup_allocated. }
  split; [|split; [|split; [|split; [|split; [|split]]]]]; try done.
  - rewrite length_app, !length_insert, length_app. simpl. lia.
  - intros r t Hr N1 N2. by apply Hold.
  - intros r t Hr.
    destruct (decide (r = vc)) as [->|N2].
    { eexists. split.
      - apply lookup_allocated.
        rewrite list_lookup_insert_ne by lia.
        apply list_lookup_insert_eq. rewrite !length_insert, length_app. lia.
      - pose proof (eq_trans (eq_sym Hr) Hvc) as [= ->]. reflexivity. }
    destruct (decide (r = kc)) as [->|N1].
    { eexists. split.
      - apply lookup_allocated.
        rewrite !list_lookup_insert_ne by lia.
        apply list_lookup_insert_eq. rewrite !length_insert, length_app. lia.
      - pose proof (eq_trans (eq_sym Hr) Hkc) as [= ->]. reflexivity. }
    exists t. split; [by apply Hold|done].
  - intros r Hin. repeat (apply elem_of_cons in Hin as [Hin|Hin]; [done|]).
    by apply elem_of_nil in Hin.
Qed.

(** Called without caches ([past_key_value] left at its default [None]),
    the forward raises TypeError, but only after the projection and the
    rotary embedding: three tensors have been made, the rotary kernel has
    run on the query and the key, the frequency table is cached, and no
    cache fill or attention call was issued. *)
Theorem forward_without_caches_raises (w : World F) hidden position_ids
    attention_mask output_attentions use_cache cache_position kwargs h :
  let ws := world_size_of w in
  let lead := removelast (shape h) in
  0 < ws ->
  heap w !! hidden = Some h ->
  shape (Wqkv self h)
  = lead ++ [q_width self ws + kv_width self ws + kv_width self ws] ->
  0 < q_width self ws -> 0 < kv_width self ws ->
  exists w' T,
    forward_ hidden position_ids attention_mask PNone output_attentions
      use_cache cache_position kwargs w = (Raise TypeError, w')
    /\ length (heap w') = length (heap w) + 3
    /\ inv_freq w' = Some T
    /\ calls w'
       = calls w ++
         [Call_fused_rotary_emb (length (heap w)) (length (heap w) + 1)
            (unsqueeze0 (position_ids_1d (context w))) T fone
            (length (heap w)) (length (heap w) + 1)].
Proof.
  intros ws lead Hws Hh Hs Ha Hb.
  eexists _, _. split.
  - unfold forward.
    erewrite bind_run by reflexivity.
    replace (match dist_world_size w with Some n => n | None => 1 end)
      with ws by (unfold ws, world_size_of; by destruct (dist_world_size w)).
    unfold _contiguous_batching_forward_impl.
    erewrite bind_run by reflexivity.
    erewrite bind_run by (by apply floordiv_run).
    erewrite bind_run by (by apply floordiv_run).
    erewrite bind_run by (by eapply qkv_proj_run).
    cbv beta iota.
    erewrite bind_run
      by (eapply rotary_emb_fn_run; cbn [heap set_heap]; [heap_lookup..|lia]).
    cbv beta iota zeta.
    erewrite bind_raise; [reflexivity|].
    erewrite bind_raise; reflexivity.
  - cbn [heap set_heap inv_freq context dist_world_size calls].
    split; [|split; reflexivity].
    rewrite !length_insert, length_app. simpl. lia.
Qed.

Lemma view_no_heads (t : tensor F) hd :
  view t [None; Some 0; Some hd] = None.
Proof. reflexivity. Qed.

Lemma qkv_proj_no_kv_heads (w : World F) nh hd hidden :
  exists e, __qkv_proj uninit fle fneg self nh 0 hd hidden w = (Raise e, w).
Proof.
  unfold __qkv_proj, bind, read.
  destruct (heap w !! hidden) as [h|]; [|by eexists].
  cbv zeta.
  destruct (split_with_sizes _ _ _ _) as [parts|]; [|by eexists].
  cbn [lift_opt ret].
  destruct parts as [|a [|b [|c [|d parts]]]]; try by eexists.
  destruct (view a _); [|by eexists]. cbn [lift_opt ret].
  rewrite view_no_heads. by eexists.
Qed.

(** More ranks than key-value heads: the local number of key-value heads
    is zero, and every call raises before anything is allocated, written
    or cached. *)
Theorem forward_more_ranks_than_kv_heads (w : World F) ws hidden position_ids
    attention_mask pkv output_attentions use_cache cache_position kwargs :
  dist_world_size w = Some ws ->
  num_key_value_heads self < ws ->
  exists e,
    forward_ hidden position_ids attention_mask pkv output_attentions
      use_cache cache_position kwargs w = (Raise e, w).
Proof.
  intros Hws Hlt.
  destruct (qkv_proj_no_kv_heads w (num_heads self / ws) (head_dim self) hidden)
    as [e He].
  exists e. unfold forward.
  erewrite bind_run by reflexivity. rewrite Hws.
  unfold _contiguous_batching_forward_impl.
  erewrite bind_run by reflexivity.
  erewrite bind_run by (apply floordiv_run; lia).
  erewrite bind_run by (apply floordiv_run; lia).
  rewrite (Nat.div_small (num_key_value_heads self) ws) by done.
  by erewrite bind_raise by exact He.
Qed.

End Facts.
End AttentionExtra.

(** ** The driver when a step fails *)

Module ModelExtra.
Import Model ModelClaims.

Section Facts.
Context {W : Type}.
Variable wte : pyval -> M W pyval.
Variable blocks : list (BlockArgs -> M W pyval).
Variable norm_f : pyval -> M W pyval.

Lemma call_sub_raise (m : M W pyval) ev (w : World W) e i :
  m (inner w) = (Raise e, i) ->
  call_sub m ev w = (Raise e, {| inner := i; trace := trace w |}).
Proof. intros H. unfold call_sub. by rewrite H. Qed.

(** The loop over blocks that return, followed by more blocks: it goes on
    with the next index from where the first ones arrived. *)
Lemma run_blocks_app position_ids pkv idx
    (bs1 : list (BlockArgs -> M W pyval)) h (i : W) evs h' (i' : W) :
  blocks_run position_ids pkv idx bs1 h i evs h' i' ->
  forall bs2 tr,
    run_blocks idx (bs1 ++ bs2) h PNone position_ids pkv false false true PNone
      {| inner := i; trace := tr |}
    = run_blocks (idx + length bs1) bs2 h' PNone position_ids pkv false false
        true PNone {| inner := i'; trace := tr ++ evs |}.
Proof.
  induction 1 as [idx h i|idx block bs h i kv res i1 h1 evs h' i' Hkv args Hb Hh1 _ IH];
    intros bs2 tr.
  - by rewrite app_nil_r, Nat.add_0_r.
  - cbn [app run_blocks].
    erewrite bind_run by (unfold subscript; by rewrite Hkv).
    erewrite bind_run by (by apply call_sub_run).
    erewrite bind_run by (unfold subscript; by rewrite Hh1).
    rewrite IH, <- app_assoc. cbn [length].
    by replace (S idx + length bs) with (idx + S (length bs)) by lia.
Qed.

(** A block that raises ends the pass with its exception: the blocks
    before it have run, in order, and neither a later block nor the final
    norm is called. *)
Theorem driver_stops_at_failing_block input_ids position_ids pkv
    (w : World W) before block after embeds i1 evs h i2 kv e i3 :
  blocks = before ++ block :: after ->
  wte input_ids (inner w) = (Ok embeds, i1) ->
  blocks_run position_ids pkv 0 before embeds i1 evs h i2 ->
  getitem pkv (length before) = Ok kv ->
  block {| hidden_states := h;
           attention_mask := PNone;
           position_ids := position_ids;
           past_key_value := kv;
           output_attentions := false;
           output_router_logits := false;
           use_cache := true;
           cache_position := PNone |} i2 = (Raise e, i3) ->
  _continuous_batching_forward wte blocks norm_f input_ids position_ids pkv w
  = (Raise e, {| inner := i3;
                 trace := trace w ++ Ev_wte input_ids embeds :: evs |}).
Proof.
  intros -> Hwte Hrun Hkv Hb. unfold _continuous_batching_forward.
  erewrite bind_run by (by apply call_sub_run).
  erewrite bind_raise; [reflexivity|].
  rewrite (run_blocks_app _ _ _ _ _ _ _ _ _ Hrun). cbn [run_blocks Nat.add].
  erewrite bind_run by (unfold subscript; by rewrite Hkv).
  erewrite bind_raise; [|by apply call_sub_raise].
  cbn [trace]. by rewrite <- app_assoc.
Qed.

(** Fewer cache entries than blocks: the blocks that have an entry run,
    then the pass raises IndexError; the final norm is not called and
    what the blocks did stays done. *)
Theorem driver_short_past_key_values input_ids position_ids items
    (w : World W) embeds i1 evs h i2 :
  length items < length blocks ->
  wte input_ids (inner w) = (Ok embeds, i1) ->
  blocks_run position_ids (PTuple items) 0 (take (length items) blocks)
    embeds i1 evs h i2 ->
  _continuous_batching_forward wte blocks norm_f input_ids position_ids
    (PTuple items) w
  = (Raise IndexError, {| inner := i2;
                          trace := trace w ++ Ev_wte input_ids embeds :: evs |}).
Proof.
  intros Hlen Hwte Hrun. unfold _continuous_batching_forward.
  erewrite bind_run by (by apply call_sub_run).
  erewrite bind_raise; [reflexivity|].
  rewrite <- (take_drop (length items) blocks) at 1.
  rewrite (run_blocks_app _ _ _ _ _ _ _ _ _ Hrun).
  rewrite length_take, Nat.min_l by lia. cbn [Nat.add].
  destruct (drop (length items) blocks) as [|block after] eqn:Hd.
  { apply (f_equal length) in Hd. rewrite length_drop in Hd. simpl in Hd. lia. }
  cbn [run_blocks].
  erewrite bind_raise; cycle 1.
  { unfold subscript. cbn [getitem].
    by rewrite (lookup_ge_None_2 items (length items)) by lia. }
  cbn [inner trace]. by rewrite <- app_assoc.
Qed.

(** Called without caches ([past_key_values] left at its default
    [None]) on a model with at least one block, the pass raises TypeError
    once the embedding has run: no block and no norm is called. *)
Theorem driver_without_caches_raises input_ids position_ids (w : World W)
    embeds i1 :
  blocks <> [] ->
  wte input_ids (inner w) = (Ok embeds, i1) ->
  _continuous_batching_forward wte blocks norm_f input_ids position_ids PNone w
  = (Raise TypeError, {| inner := i1;
                         trace := trace w ++ [Ev_wte input_ids embeds] |}).
Proof.
  intros Hne Hwte. unfold _continuous_batching_forward.
  erewrite bind_run by (by apply call_sub_run).
  destruct blocks as [|block after]; [done|].
  erewrite bind_raise; [reflexivity|].
  cbn [run_blocks]. by erewrite bind_raise by reflexivity.
Qed.

End Facts.
End ModelExtra.

(** ** Steps put together *)

Module ComposeExtra.
Import Torch TorchFacts TorchOpsFacts TorchExtFacts ShapeFacts.
Import ExpertGLU ExpertGLUFacts Reference ReferenceFacts.

Section Experts.
Context {F : Type}.
Variable uninit : F.
Variable fused_moe :
  tensor F -> tensor F -> tensor F -> tensor F -> tensor Z -> nat -> bool ->
  tensor F.

(** Repacking and then calling the experts: the kernel gets the tokens
    and the two reference tensors of the loaded weights, and the module
    the repacking left is not changed by the call. *)
Theorem repack_then_forward (m : Module_ F) E Fh H F2 H2 w1 v1 w2
    (x weights top_weights : tensor F) (top_experts : tensor Z) B S D T K :
  moe_num_experts m = E -> 0 < E ->
  _parameters m !! "w1" = Some w1 ->
  _parameters m !! "v1" = Some v1 ->
  _parameters m !! "w2" = Some w2 ->
  shape w1 = [E * Fh; H] -> shape v1 = [E * Fh; H] -> shape w2 = [E * F2; H2] ->
  _parameters m !! "gate_up_weights" = None ->
  _parameters m !! "down_weights" = None ->
  shape x = [B; S; D] -> 0 < S ->
  shape top_weights = [T; K] ->
  (forall tokens g d tw te k rn,
     shape (fused_moe tokens g d tw te k rn) = shape tokens) ->
  let tokens := Tensor [B * S; D] (data x) in
  let y := fused_moe tokens (reference_gate_up uninit E w1 v1)
             (reference_down uninit E w2) top_weights top_experts K false in
  exists m',
    _update_model_fn uninit m = (Ok tt, m')
    /\ Experts.forward fused_moe x weights top_weights top_experts m'
       = (Ok (Tensor [B; S; D] (data y)), m').
Proof.
  intros HE HE0 Hw1 Hv1 Hw2 Hs1 Hs2 Hs3 Hgu Hdn Hx HS Ht Hker tokens y.
  subst E.
  destruct (update_model_fn_run uninit m (moe_num_experts m) Fh H F2 H2 w1 v1 w2)
    as (gu & dn & Hrun & Hsg & Hwg & Hgg & Hsd & Hwd & Hgd); try done.
  destruct (reference_gate_up_spec uninit w1 v1 (moe_num_experts m) Fh H) as (Rs & Rw & Rg);
    try done.
  destruct (reference_down_spec uninit w2 (moe_num_experts m) F2 H2) as (Ds & Dw & Dg); try done.
  assert (gu = reference_gate_up uninit (moe_num_experts m) w1 v1) as ->.
  { apply (tensor_ext uninit); try done.
    - rewrite Hsg, Rs. do 2 f_equal. lia.
    - intros idx Hidx. rewrite Hsg in Hidx.
      apply in_range3 in Hidx as (e & i & j & -> & He & Hi & Hj).
      rewrite Hgg, Rg by lia. done. }
  assert (dn = reference_down uninit (moe_num_experts m) w2) as ->.
  { apply (tensor_ext uninit); try done.
    - by rewrite Hsd, Ds.
    - intros idx Hidx. rewrite Hsd in Hidx.
      apply in_range3 in Hidx as (e & h & f & -> & He & Hh & Hf).
      rewrite Hgd, Dg by lia. done. }
  eexists. split; [exact Hrun|].
  unfold Experts.forward.
  erewrite bind_run by (apply lift_opt_run; unfold size; by rewrite Hx).
  erewrite bind_run by (apply lift_opt_run; by apply ExpertsClaims.flatten01).
  erewrite bind_run
    by (unfold getattr; cbn [_parameters _buffers]; by simplify_map_eq).
  erewrite bind_run
    by (unfold getattr; cbn [_parameters _buffers]; by simplify_map_eq).
  erewrite bind_run by (apply lift_opt_run; unfold size; by rewrite Ht).
  fold tokens y.
  assert (Hy : shape y = [B * S; D]) by (unfold y; by rewrite Hker).
  erewrite bind_run; [reflexivity|].
  apply lift_opt_run. unfold unflatten. rewrite Hy. cbn [lookup list_lookup].
  cbn [mbind option_bind].
  rewrite ExpertsClaims.infer_size_head1, Nat.mul_1_r.
  replace (0 <? S) with true by (symmetry; by apply Nat.ltb_lt).
  rewrite Nat.Div0.mod_mul, Nat.div_mul by lia. reflexivity.
Qed.

End Experts.

Section Attention.
Import Runtime RuntimeFacts Attention AttentionFacts.
Context {F : Type}.
Variable uninit : F.
Variable fle : F -> F -> bool.
Variable fneg : F -> F.
Variable fone : F.
Variable fdiv : F -> F -> F.
Variable fpow : F -> F -> F.
Variable of_int : nat -> F.
Variable fused_rotary_emb_kernel :
  tensor F -> tensor F -> tensor Z -> list F -> F -> list F * list F.
Variable fill_kv_cache_kernel :
  tensor F -> tensor F -> tensor F -> tensor F ->
  tensor Z -> tensor Z -> tensor Z -> Z -> tensor Z -> list F * list F.
Variable paged_attention_fwd_kernel :
  tensor F -> tensor F -> tensor F -> tensor F ->
  tensor Z -> tensor Z -> tensor Z -> tensor Z -> Z -> list F.
Variable all_reduce_sum : tensor F -> list F.
Variable self : Self F.

(** The hook on what a well-shaped forward returns: the one all-reduce
    is on the projected output, the new tensor the forward made last; the
    caches, the query, key and value tensors and everything else stay as
    the forward left them. *)
Theorem forward_then_hook_reduces_output (w : World F) hidden position_ids
    attention_mask pkv output_attentions use_cache cache_position kwargs
    hook_kwargs h kc vc :
  ready self w hidden pkv h kc vc ->
  let o := length (heap w) + 3 in
  exists out w1 w2 O,
    forward uninit fle fneg fone fdiv fpow of_int fused_rotary_emb_kernel
      fill_kv_cache_kernel paged_attention_fwd_kernel self
      hidden position_ids attention_mask pkv output_attentions
      use_cache cache_position kwargs w = (Ok out, w1)
    /\ Attention._distribute_output_fn all_reduce_sum out hook_kwargs w1
       = (Ok out, w2)
    /\ heap w1 !! o = Some O
    /\ calls w2 = calls w1 ++ [Call_all_reduce o]
    /\ heap w2 !! o = Some (Tensor (shape O) (all_reduce_sum O))
    /\ forall r, r <> o -> heap w2 !! r = heap w1 !! r.
Proof.
  intros Hready o.
  destruct (AttentionClaims.forward_run uninit fle fneg fone fdiv fpow of_int
              fused_rotary_emb_kernel fill_kv_cache_kernel
              paged_attention_fwd_kernel self w hidden position_ids
              attention_mask pkv output_attentions use_cache cache_position
              kwargs h kc vc Hready)
    as (KC0 & VC0 & Hkc & Hvc & Hrun).
  cbv zeta in Hrun.
  match type of Hrun with
  | context [out_proj self ?t] => set (O := out_proj self t) in *
  end.
  match type of Hrun with _ = (_, ?s) => set (w1 := s) in * end.
  assert (HO : heap w1 !! o = Some O).
  { subst w1 o. cbn [heap].
    rewrite lookup_app_r by (rewrite !length_insert, length_app; simpl; lia).
    rewrite !length_insert, length_app. simpl.
    by replace (length (heap w) + 3 - (length (heap w) + 3)) with 0 by lia. }
  eexists _, w1, _, O. split; [exact Hrun|].
  split.
  { unfold Attention._distribute_output_fn.
    erewrite bind_run by reflexivity.
    erewrite bind_run by (apply all_reduce_run; exact HO).
    reflexivity. }
  split; [exact HO|]. cbn [calls heap]. split; [reflexivity|].
  split.
  - apply list_lookup_insert_eq. by eapply lookup_lt_Some.
  - intros r Hne. by rewrite list_lookup_insert_ne.
Qed.

End Attention.
End ComposeExtra.

(** ** The attention weights: what is loaded and what forward splits *)

Module AttentionLoadExtra.
Import Attention AttentionLoad.

Section Facts.
Context {F : Type}.
Variable self : Self F.

Lemma mul_div_exact a b : 0 < b -> (a = b * (a / b) <-> a mod b = 0).
Proof.
  intros Hb. pose proof (Nat.div_mod_eq a b). lia.
Qed.

(** The sections [_load_weights] has the QKV weight cut by are the widths
    [forward] splits the projection by, times the world size, exactly when
    the world size divides the number of heads and the number of key-value
    heads; otherwise what forward expects is narrower than what was
    loaded. *)
Theorem load_sections_match_forward_split ws :
  0 < ws -> 0 < head_dim self ->
  (sections self
   = map (Nat.mul ws) [q_width self ws; kv_width self ws; kv_width self ws]
   <-> num_heads self mod ws = 0 /\ num_key_value_heads self mod ws = 0)
  /\ Forall2 (fun s wd => ws * wd <= s) (sections self)
       [q_width self ws; kv_width self ws; kv_width self ws].
Proof.
  intros Hws Hhd. unfold sections, q_width, kv_width. cbn [map].
  pose proof (Nat.div_mod_eq (num_heads self) ws) as Hq.
  pose proof (Nat.div_mod_eq (num_key_value_heads self) ws) as Hk.
  set (nh := num_heads self) in *. set (nkv := num_key_value_heads self) in *.
  set (hd := head_dim self) in *.
  split; [split|].
  - intros [= H1 H2 _].
    rewrite Nat.mul_assoc in H1, H2.
    apply Nat.mul_cancel_r in H1; [|lia]. apply Nat.mul_cancel_r in H2; [|lia].
    split; by apply mul_div_exact.
  - intros [H1 H2].
    apply mul_div_exact in H1; [|done]. apply mul_div_exact in H2; [|done].
    rewrite !Nat.mul_assoc, <- H1, <- H2. reflexivity.
  - repeat constructor; rewrite Nat.mul_assoc; apply Nat.mul_le_mono_r; lia.
Qed.

End Facts.
End AttentionLoadExtra.

(** ** The further properties at concrete inputs *)

Module InstancesExtra.
Import Torch Runtime.

Lemma load_weights_frame_witness :
  exists w',
    ExpertGLU._load_weights 0 1 2 Demo.load_world = (Ok tt, w')
    /\ ExpertGLU.loader w' !! "w1" = None
    /\ ExpertGLU._buffers (ExpertGLU.self_ w') = ∅.
Proof.
  destruct (LoadExtra.load_weights_frame 0 Demo.load_world 1 2 2 2 2 Demo.w
              (tmap (Nat.add 100) Demo.w) (tmap (Nat.add 200) Demo.w))
    as (w' & Hrun & Hgone & _ & Hb & _);
    [reflexivity|lia|lia|by eexists|by eexists|by eexists
    |reflexivity|reflexivity|reflexivity|reflexivity|reflexivity|reflexivity
    |vm_compute; lia|].
  exists w'. split; [exact Hrun|]. split; [|exact Hb].
  apply Hgone, list_elem_of_here.
Defined.

Lemma load_weights_rows_covered_witness :
  exists w' P,
    ExpertGLU._load_weights 0 1 2 Demo.load_world = (Ok tt, w')
    /\ ExpertGLU._parameters (ExpertGLU.self_ w') !! "w1" = Some P
    /\ get 0 P [1; 0] = get 0 Demo.w [3; 0].
Proof.
  destruct (LoadExtra.load_weights_rows_covered 0 Demo.load_world 2 2 2 2
              Demo.w (tmap (Nat.add 100) Demo.w) (tmap (Nat.add 200) Demo.w)
              1 1 0)
    as [(w' & Hrun & Hall) _];
    [reflexivity|lia|lia|by eexists|by eexists|by eexists
    |reflexivity|reflexivity|reflexivity|reflexivity|reflexivity|reflexivity
    |lia|lia|lia|].
  destruct (Hall "w1" Demo.w) as (P & HP & Hget); [apply list_elem_of_here|].
  exists w', P. split; [exact Hrun|]. split; [exact HP|exact Hget].
Defined.

Lemma load_weights_consumes_loader_witness :
  exists w',
    ExpertGLU._load_weights 0 0 2 Demo.load_world = (Ok tt, w')
    /\ ExpertGLU._load_weights 0 0 2 w' = (Raise KeyError, w').
Proof.
  destruct (LoadExtra.load_weights_consumes_loader 0 Demo.load_world 0 2 2 2 2
              Demo.w (tmap (Nat.add 100) Demo.w) (tmap (Nat.add 200) Demo.w))
    as (w' & Hrun & Hagain);
    [reflexivity|lia|lia|by eexists|by eexists|by eexists
    |reflexivity|reflexivity|reflexivity|reflexivity|reflexivity|reflexivity
    |vm_compute; lia|].
  exists w'. split; [exact Hrun|apply Hagain].
Defined.

Lemma load_weights_rank_without_rows_witness :
  ExpertGLU._load_weights 0 3 4 DemoExtra.load_world5
  = (Raise IndexError,
     {| ExpertGLU.self_ := ExpertGLU.self_ DemoExtra.load_world5;
        ExpertGLU.loader := delete "w1" (ExpertGLU.loader DemoExtra.load_world5) |}).
Proof.
  apply (LoadExtra.load_weights_rank_without_rows 0 DemoExtra.load_world5 3 4
           2 5 1 DemoExtra.w5 DemoExtra.w5);
    [reflexivity|lia|lia|lia|reflexivity|reflexivity|reflexivity
    |vm_compute; lia].
Defined.

Lemma load_weights_missing_v1_witness :
  exists P1 w',
    ExpertGLU._load_weights 0 0 2 DemoExtra.load_world_no_v1
    = (Raise KeyError, w')
    /\ ExpertGLU._parameters (ExpertGLU.self_ w') !! "w1" = Some P1
    /\ shape P1 = [2; 2].
Proof.
  destruct (LoadExtra.load_weights_missing_v1 0 DemoExtra.load_world_no_v1
              0 2 2 2 2 Demo.w Demo.w (tmap (Nat.add 100) Demo.w))
    as (P1 & Hrun & Hsh);
    [reflexivity|lia|lia|reflexivity|reflexivity|reflexivity|reflexivity
    |reflexivity|vm_compute; lia|].
  exists P1. eexists. split; [exact Hrun|]. split; [|exact Hsh].
  cbn. by simplify_map_eq.
Defined.

Lemma repack_failure_leaves_witness :
  fst (ExpertGLU._update_model_fn 0 DemoExtra.odd_w2) = Raise TorchError
  /\ (snd (ExpertGLU._update_model_fn 0 DemoExtra.odd_w2) = DemoExtra.odd_w2
      \/ (ExpertGLU._parameters
            (snd (ExpertGLU._update_model_fn 0 DemoExtra.odd_w2)) !! "w1" = None
          /\ ExpertGLU._buffers
               (snd (ExpertGLU._update_model_fn 0 DemoExtra.odd_w2)) !! "w1" = None)
         /\ (ExpertGLU._parameters
               (snd (ExpertGLU._update_model_fn 0 DemoExtra.odd_w2)) !! "v1" = None
             /\ ExpertGLU._buffers
                  (snd (ExpertGLU._update_model_fn 0 DemoExtra.odd_w2)) !! "v1" = None)).
Proof.
  split; [vm_compute; reflexivity|].
  apply (RepackExtra.repack_failure_leaves 0 DemoExtra.odd_w2 TorchError);
    [intros name _; reflexivity|vm_compute; reflexivity].
Defined.

Lemma load_then_repack_witness :
  exists w1 m' gate_up,
    ExpertGLU._load_weights 0 0 2 Demo.load_world = (Ok tt, w1)
    /\ ExpertGLU._update_model_fn 0 (ExpertGLU.self_ w1) = (Ok tt, m')
    /\ ExpertGLU._buffers m' !! "gate_up_weights" = Some gate_up
    /\ shape gate_up = [2; 2; 2]
    /\ get 0 gate_up [1; 0; 1] = get 0 Demo.w [2; 1].
Proof.
  destruct (PipelineExtra.load_then_repack 0 Demo.load_world 0 2 2 2 2 Demo.w
              (tmap (Nat.add 100) Demo.w) (tmap (Nat.add 200) Demo.w))
    as (w1 & m' & gu & dn & Hload & Hrun & Hgu & _ & Hsh & _ & Hget);
    [reflexivity|lia|lia|by eexists|by eexists|by eexists
    |reflexivity|reflexivity|reflexivity|reflexivity|reflexivity|reflexivity
    |vm_compute; lia|reflexivity|reflexivity|].
  exists w1, m', gu. split; [exact Hload|]. split; [exact Hrun|].
  split; [exact Hgu|]. split; [exact Hsh|].
  destruct (Hget 1 0 1) as [H1 _]; [lia|vm_compute; lia|lia|]. exact H1.
Defined.

Lemma experts_forward_needs_repack_witness :
  Experts.forward Demo.moe_kernel Demo.x Demo.top_weights Demo.top_weights
    Demo.top_experts Demo.loaded
  = (Raise AttributeError, Demo.loaded).
Proof.
  apply (PipelineExtra.experts_forward_needs_repack Demo.moe_kernel Demo.x
           Demo.top_weights Demo.top_weights Demo.top_experts Demo.loaded
           1 2 2); [reflexivity|].
  exists "gate_up_weights".
  split; [apply list_elem_of_here|]. split; reflexivity.
Defined.

Lemma forward_writes_only_caches_witness :
  exists out w',
    Attention.forward 0%Z Z.leb Z.opp 1%Z Z.div Z.pow Z.of_nat
      Demo.rotary_kernel Demo.fill_kernel Demo.attention_kernel Demo.self
      0 PNone PNone Demo.past_key_value false false PNone [] Demo.world
    = (Ok out, w')
    /\ length (heap w') = 7
    /\ heap w' !! 0 = Some Demo.hidden.
Proof.
  destruct (AttentionExtra.forward_writes_only_caches 0%Z Z.leb Z.opp 1%Z
              Z.div Z.pow Z.of_nat Demo.rotary_kernel Demo.fill_kernel
              Demo.attention_kernel Demo.self Demo.world 0 PNone PNone
              Demo.past_key_value false false PNone [] Demo.hidden 1 2
              Instances.demo_ready)
    as (out & w' & new & Hrun & Hlen & Hkeep & _).
  exists out, w'. split; [exact Hrun|]. split; [exact Hlen|].
  apply Hkeep; [reflexivity|lia|lia].
Defined.

Lemma forward_without_caches_raises_witness :
  exists w' T,
    Attention.forward 0%Z Z.leb Z.opp 1%Z Z.div Z.pow Z.of_nat
      Demo.rotary_kernel Demo.fill_kernel Demo.attention_kernel Demo.self
      0 PNone PNone PNone false false PNone [] Demo.world
    = (Raise TypeError, w')
    /\ length (heap w') = 6
    /\ inv_freq w' = Some T.
Proof.
  destruct (AttentionExtra.forward_without_caches_raises 0%Z Z.leb Z.opp 1%Z
              Z.div Z.pow Z.of_nat Demo.rotary_kernel Demo.fill_kernel
              Demo.attention_kernel Demo.self Demo.world 0 PNone PNone
              false false PNone [] Demo.hidden)
    as (w' & T & Hrun & Hlen & Hinv & _);
    [vm_compute; lia|reflexivity|reflexivity|vm_compute; lia|vm_compute; lia|].
  exists w', T. split; [exact Hrun|]. split; [exact Hlen|exact Hinv].
Defined.

Lemma forward_more_ranks_than_kv_heads_witness :
  exists e,
    Attention.forward 0%Z Z.leb Z.opp 1%Z Z.div Z.pow Z.of_nat
      Demo.rotary_kernel Demo.fill_kernel Demo.attention_kernel Demo.self
      0 PNone PNone Demo.past_key_value false false PNone [] DemoExtra.world3
    = (Raise e, DemoExtra.world3).
Proof.
  apply (AttentionExtra.forward_more_ranks_than_kv_heads 0%Z Z.leb Z.opp 1%Z
           Z.div Z.pow Z.of_nat Demo.rotary_kernel Demo.fill_kernel
           Demo.attention_kernel Demo.self DemoExtra.world3 3);
    [reflexivity|vm_compute; lia].
Defined.

Lemma driver_stops_at_failing_block_witness :
  exists evs,
    Model._continuous_batching_forward Demo.wte
      [Demo.block; DemoExtra.failing_block; Demo.block] Demo.norm_f
      (PTensor 9) (PTensor 8) Demo.past_key_values
      {| Model.inner := 0; Model.trace := [] |}
    = (Raise TorchError,
       {| Model.inner := 3;
          Model.trace := Model.Ev_wte (PTensor 9) (PTensor 0) :: evs |})
    /\ length evs = 1.
Proof.
  eexists. split.
  - apply (ModelExtra.driver_stops_at_failing_block Demo.wte
             [Demo.block; DemoExtra.failing_block; Demo.block] Demo.norm_f
             (PTensor 9) (PTensor 8) Demo.past_key_values
             {| Model.inner := 0; Model.trace := [] |}
             [Demo.block] DemoExtra.failing_block [Demo.block]
             (PTensor 0) 1 _ (PTensor 0) 2 (PTuple [PTensor 3; PTensor 4])
             TorchError 3);
      [reflexivity|reflexivity| |reflexivity|reflexivity].
    eapply Model.blocks_run_cons; [reflexivity|reflexivity|reflexivity|].
    apply Model.blocks_run_nil.
  - reflexivity.
Defined.

Lemma driver_short_past_key_values_witness :
  exists evs,
    Model._continuous_batching_forward Demo.wte
      [Demo.block; Demo.block; Demo.block] Demo.norm_f
      (PTensor 9) (PTensor 8) Demo.past_key_values
      {| Model.inner := 0; Model.trace := [] |}
    = (Raise IndexError,
       {| Model.inner := 3;
          Model.trace := Model.Ev_wte (PTensor 9) (PTensor 0) :: evs |})
    /\ length evs = 2.
Proof.
  eexists. split.
  - apply (ModelExtra.driver_short_past_key_values Demo.wte
             [Demo.block; Demo.block; Demo.block] Demo.norm_f
             (PTensor 9) (PTensor 8)
             [PTuple [PTensor 1; PTensor 2]; PTuple [PTensor 3; PTensor 4]]
             {| Model.inner := 0; Model.trace := [] |}
             (PTensor 0) 1 _ (PTensor 0) 3);
      [simpl; lia|reflexivity|].
    eapply Model.blocks_run_cons; [reflexivity|reflexivity|reflexivity|].
    eapply Model.blocks_run_cons; [reflexivity|reflexivity|reflexivity|].
    apply Model.blocks_run_nil.
  - reflexivity.
Defined.

Lemma driver_without_caches_raises_witness :
  Model._continuous_batching_forward Demo.wte [Demo.block] Demo.norm_f
    (PTensor 9) (PTensor 8) PNone {| Model.inner := 0; Model.trace := [] |}
  = (Raise TypeError,
     {| Model.inner := 1;
        Model.trace := [Model.Ev_wte (PTensor 9) (PTensor 0)] |}).
Proof.
  apply (ModelExtra.driver_without_caches_raises Demo.wte [Demo.block]
           Demo.norm_f (PTensor 9) (PTensor 8)
           {| Model.inner := 0; Model.trace := [] |} (PTensor 0) 1);
    [discriminate|reflexivity].
Defined.

Lemma repack_then_forward_witness :
  exists m',
    ExpertGLU._update_model_fn 0 Demo.loaded = (Ok tt, m')
    /\ Experts.forward Demo.moe_kernel Demo.x Demo.top_weights
         Demo.top_weights Demo.top_experts m'
       = (Ok (Tensor [1; 2; 2] [1; 2; 3; 4]), m').
Proof.
  apply (ComposeExtra.repack_then_forward 0 Demo.moe_kernel Demo.loaded
           2 2 2 2 2 Demo.w (tmap (Nat.add 100) Demo.w)
           (tmap (Nat.add 200) Demo.w) Demo.x Demo.top_weights
           Demo.top_weights Demo.top_experts 1 2 2 2 1);
    [reflexivity|lia|reflexivity|reflexivity|reflexivity
    |reflexivity|reflexivity|reflexivity|reflexivity|reflexivity
    |reflexivity|lia|reflexivity|reflexivity].
Defined.

Lemma forward_then_hook_reduces_output_witness :
  exists out w1 w2,
    Attention.forward 0%Z Z.leb Z.opp 1%Z Z.div Z.pow Z.of_nat
      Demo.rotary_kernel Demo.fill_kernel Demo.attention_kernel Demo.self
      0 PNone PNone Demo.past_key_value false false PNone [] Demo.world
    = (Ok out, w1)
    /\ Attention._distribute_output_fn Demo.reduce_kernel out [] w1
       = (Ok out, w2)
    /\ calls w2 = calls w1 ++ [Call_all_reduce 6].
Proof.
  destruct (ComposeExtra.forward_then_hook_reduces_output 0%Z Z.leb Z.opp 1%Z
              Z.div Z.pow Z.of_nat Demo.rotary_kernel Demo.fill_kernel
              Demo.attention_kernel Demo.reduce_kernel Demo.self Demo.world 0
              PNone PNone Demo.past_key_value false false PNone [] []
              Demo.hidden 1 2 Instances.demo_ready)
    as (out & w1 & w2 & O & Hrun & Hhook & _ & Hcalls & _).
  exists out, w1, w2. split; [exact Hrun|]. split; [exact Hhook|exact Hcalls].
Defined.

Lemma load_sections_match_forward_split_witness :
  AttentionLoad.sections Demo.self
  = map (Nat.mul 2)
      [Attention.q_width Demo.self 2; Attention.kv_width Demo.self 2;
       Attention.kv_width Demo.self 2].
Proof.
  destruct (AttentionLoadExtra.load_sections_match_forward_split Demo.self 2)
    as [[_ H] _]; [lia|vm_compute; lia|].
  apply H. split; reflexivity.
Defined.

End InstancesExtra.
